(** * OpenXcom battlescape terrain engine: [TerrainModifier]

    A shallow embedding of [src/Battlescape/TerrainModifier.cpp] (with the
    accessors of [src/Ruleset/MapData.cpp] it calls) and the properties of
    its field-of-view, lighting, blockage, explosion, fire-spread and voxel
    routines.

    Conventions.
    - A C++ [int] is a [Z].  The coordinates, powers and counters of a
      battlescape are far below 2^31, and signed overflow is undefined in
      C++, so no wrap-around is written out.  [a / b] and [a % b] on [int]
      truncate toward zero: they are [Z.quot] and [Z.rem], never [Z.div].
    - A [Tile*] is the index of the tile in the flat tile array of the saved
      game (a [nat]); the null pointer is [None].  A [BattleUnit*] is the
      index of the unit in the unit vector of the saved game.
    - [Tile], [BattleUnit], [SavedBattleGame] and [RNG] are classes whose
      bodies are not part of the sources at hand.  Their plain accessors are
      record fields; everything else is either modelled from the
      specification (and says so) or kept abstract, as a field of the
      record [Externals] or as a variable of a section. *)

From Stdlib Require Import ZArith List Bool Lia QArith.
From stdpp Require Import base list.

Close Scope Q_scope.
Open Scope Z_scope.

(** ** Positions *)

Record Position := mkPosition { px : Z; py : Z; pz : Z }.

Definition Position_add (a b : Position) : Position :=
  mkPosition (px a + px b) (py a + py b) (pz a + pz b).

Definition Position_sub (a b : Position) : Position :=
  mkPosition (px a - px b) (py a - py b) (pz a - pz b).

Definition Position_eqb (a b : Position) : bool :=
  (px a =? px b) && (py a =? py b) && (pz a =? pz b).

(** ** Enumerations *)

(** The four parts of a tile.  [voxelCheck] walks them as the indices 0..3
    and reports the index it hits, which the specification names Floor=0,
    WestWall=1, NorthWall=2, Object=3. *)
Inductive TilePart := O_FLOOR | O_WESTWALL | O_NORTHWALL | O_OBJECT.

Definition partIndex (p : TilePart) : Z :=
  match p with O_FLOOR => 0 | O_WESTWALL => 1 | O_NORTHWALL => 2 | O_OBJECT => 3 end.

Definition partEqb (p q : TilePart) : bool := partIndex p =? partIndex q.

Inductive ItemDamageType := DT_NONE | DT_AP | DT_IN | DT_HE | DT_SMOKE | DT_STUN.

Inductive UnitFaction := FACTION_PLAYER | FACTION_HOSTILE | FACTION_NEUTRAL.

Definition factionEqb (a b : UnitFaction) : bool :=
  match a, b with
  | FACTION_PLAYER, FACTION_PLAYER
  | FACTION_HOSTILE, FACTION_HOSTILE
  | FACTION_NEUTRAL, FACTION_NEUTRAL => true
  | _, _ => false
  end.

(** ** MapData (src/Ruleset/MapData.cpp) *)

(** The fields of a [MapData] that the engine reads.  [_block] is the
    six-entry table that [setBlockValue] fills; [_loftID] is indexed by the
    vertical sub-layer (its declared length is in a header that is not part
    of the sources, so it is a function of the index). *)
Record MapData := mkMapData {
  _block : Z -> Z;
  _isUfoDoor : bool;
  _isDoor : bool;
  _lightSource : Z;
  _flammable : Z;
  _loftID : Z -> Z
}.

(** [MapData::setBlockValue]: the only writer of [_block]. *)
Definition setBlockValue (lightBlock visionBlock HEBlock smokeBlock fireBlock gasBlock : Z)
  : Z -> Z :=
  fun i =>
    if i =? 0 then lightBlock
    else if i =? 1 then (if visionBlock =? 1 then 255 else 0)
    else if i =? 2 then HEBlock
    else if i =? 3 then (if smokeBlock =? 1 then 255 else 0)
    else if i =? 4 then (if fireBlock =? 1 then 255 else 0)
    else if i =? 5 then (if gasBlock =? 1 then 255 else 0)
    else 0.

(** [MapData::getBlock]. *)
Definition getBlock (mp : MapData) (type : ItemDamageType) : Z :=
  match type with
  | DT_NONE => _block mp 1
  | DT_HE => _block mp 2
  | DT_SMOKE => _block mp 3
  | DT_IN => _block mp 4
  | DT_STUN => _block mp 5
  | DT_AP => 0
  end.

Definition getLoftID (mp : MapData) (layer : Z) : Z := _loftID mp layer.
Definition getLightSource (mp : MapData) : Z := _lightSource mp.
Definition isDoor (mp : MapData) : bool := _isDoor mp.
Definition isUFODoor (mp : MapData) : bool := _isUfoDoor mp.

(** ** Tiles, units and the saved game *)

(** What the engine reads of a tile.  [t_ufoDoorOpen], [t_shade],
    [t_terrainLevel] and [t_flammability] hold the values that
    [isUfoDoorOpen(part)], [getShade()], [getTerrainLevel()] and
    [getFlammability()] return. *)
Record Tile := mkTile {
  t_position : Position;
  t_objects : TilePart -> option MapData;
  t_ufoDoorOpen : TilePart -> bool;
  t_light : Z -> Z;
  t_fire : Z;
  t_smoke : Z;
  t_explosive : Z;
  t_unit : option nat;
  t_discovered : bool;
  t_checked : bool;
  t_shade : Z;
  t_terrainLevel : Z;
  t_flammability : Z
}.

Definition getMapData (t : Tile) (part : TilePart) : option MapData := t_objects t part.

Record BattleUnit := mkBattleUnit {
  u_position : Position;
  u_direction : Z;
  u_faction : UnitFaction;
  u_kneeled : bool;
  u_out : bool;
  u_standHeight : Z;
  u_kneelHeight : Z;
  u_loftemps : Z;
  u_visibleUnits : list nat
}.

Record SavedBattleGame := mkSave {
  sv_width : Z;
  sv_length : Z;
  sv_height : Z;
  sv_tiles : list Tile;
  sv_units : list BattleUnit;
  sv_globalShade : Z;
  sv_side : UnitFaction
}.

Definition inBounds (s : SavedBattleGame) (p : Position) : bool :=
  (0 <=? px p) && (0 <=? py p) && (0 <=? pz p)
  && (px p <? sv_width s) && (py p <? sv_length s) && (pz p <? sv_height s).

Definition getTileIndex (s : SavedBattleGame) (p : Position) : Z :=
  (pz p * sv_length s + py p) * sv_width s + px p.

(** Modelled from the spec: [SavedBattleGame::getTile] (SavedBattleGame.cpp is
    not among the sources).  "Any grid lookup outside map bounds yields a
    null/absent result"; the grid is "a dense 3D array addressed by flattened
    index [(z*length + y)*width + x], with bounds-checked accessors". *)
Definition getTile (s : SavedBattleGame) (p : Position) : option nat :=
  if inBounds s p then
    let i := Z.to_nat (getTileIndex s p) in
    if bool_decide (i < length (sv_tiles s))%nat then Some i else None
  else None.

(** Dereferencing a tile pointer for reading. *)
Definition tileAt (s : SavedBattleGame) (ptr : option nat) : option Tile :=
  match ptr with
  | Some i => sv_tiles s !! i
  | None => None
  end.

(** The number of tiles the whole-map loops run over,
    [getWidth() * getLength() * getHeight()]. *)
Definition tileCount (s : SavedBattleGame) : nat :=
  Z.to_nat (sv_width s * sv_length s * sv_height s).

(** ** Geometry kernel: [vectorToDirection] *)

Definition dirX : list Z := [0; 1; 1; 1; 0; -1; -1; -1].
Definition dirY : list Z := [1; 1; 0; -1; -1; -1; 0; 1].

Section PastTheEnd.
(** The loop of [vectorToDirection] runs [i] from 0 to 8 over two arrays of
    8 entries.  [x8] and [y8] stand for whatever the reads [x[8]] and
    [y[8]] find behind the arrays.  In C++ the two reads are undefined
    behaviour: a value read is the mildest outcome, and the only one the
    embedding follows.  The ninth read itself apart, a definite direction
    is stated only for the octant vectors, where the loop ends before the
    ninth iteration; everything else holds for every [x8] and [y8]. *)
Variables x8 y8 : Z.

Definition readX (i : nat) : Z := nth i dirX x8.
Definition readY (i : nat) : Z := nth i dirY y8.

(** [for (int i=0;i<9;i++) if (x[i] == vector.x && y[i] == vector.y) return i;]
    started at [i] with [n] iterations to go. *)
Fixpoint vectorToDirection_from (n : nat) (i : nat) (v : Position) : Z :=
  match n with
  | O => -1
  | S n' =>
      if (readX i =? px v) && (readY i =? py v) then Z.of_nat i
      else vectorToDirection_from n' (S i) v
  end.

Definition vectorToDirection (v : Position) : Z := vectorToDirection_from 9 0 v.

(** The table indices the loop reads for [v], in order. *)
Fixpoint vectorToDirection_reads_from (n : nat) (i : nat) (v : Position) : list nat :=
  match n with
  | O => []
  | S n' =>
      i :: (if (readX i =? px v) && (readY i =? py v) then []
            else vectorToDirection_reads_from n' (S i) v)
  end.

Definition vectorToDirection_reads (v : Position) : list nat :=
  vectorToDirection_reads_from 9 0 v.

(** ** Blockage evaluator *)

(** [TerrainModifier::blockage]. *)
Definition blockage (tile : option Tile) (part : TilePart) (type : ItemDamageType) : Z :=
  match tile with
  | None => 0
  | Some t =>
      if partEqb part O_FLOOR && bool_decide (is_Some (getMapData t O_FLOOR)) then
        match type with
        | DT_HE => 0 + 15
        | _ => 0 + 255
        end
      else
        let b := match getMapData t part with
                 | Some mp => 0 + getBlock mp type
                 | None => 0
                 end in
        if t_ufoDoorOpen t part then 0 else b
  end.

(** [TerrainModifier::verticalBlockage]: the sum of the floor blockage over
    the levels crossed. *)
Definition floorsDown (s : SavedBattleGame) (x y : Z) (zstart zend : Z)
           (type : ItemDamageType) : Z :=
  fold_left
    (fun block k =>
       block + blockage (tileAt s (getTile s (mkPosition x y (zstart - Z.of_nat k))))
                        O_FLOOR type)
    (seq 0 (Z.to_nat (zstart - zend))) 0.

Definition floorsUp (s : SavedBattleGame) (x y : Z) (zstart zend : Z)
           (type : ItemDamageType) : Z :=
  fold_left
    (fun block k =>
       block + blockage (tileAt s (getTile s (mkPosition x y (zstart + 1 + Z.of_nat k))))
                        O_FLOOR type)
    (seq 0 (Z.to_nat (zend - zstart))) 0.

Definition verticalBlockage (s : SavedBattleGame) (startTile endTile : option nat)
           (type : ItemDamageType) : Z :=
  match tileAt s startTile, tileAt s endTile with
  | Some st, Some en =>
      let direction := pz (t_position en) - pz (t_position st) in
      let x := px (t_position st) in
      let y := py (t_position st) in
      if direction <? 0 then
        floorsDown s x y (pz (t_position st)) (pz (t_position en)) type
      else if 0 <? direction then
        floorsUp s x y (pz (t_position st)) (pz (t_position en)) type
      else 0
  | _, _ => 0
  end.

(** The neighbour of [startTile] at offset [(dx,dy,0)], as [horizontalBlockage]
    looks it up. *)
Definition neighbour (s : SavedBattleGame) (st : Tile) (dx dy : Z) : option Tile :=
  tileAt s (getTile s (Position_add (t_position st) (mkPosition dx dy 0))).

(** [TerrainModifier::horizontalBlockage]. *)
Definition horizontalBlockage (s : SavedBattleGame) (startTile endTile : option nat)
           (type : ItemDamageType) : Z :=
  match tileAt s startTile, tileAt s endTile with
  | Some st, Some en =>
      let direction := vectorToDirection (Position_sub (t_position en) (t_position st)) in
      if direction =? -1 then 0
      else if direction =? 0 then blockage (Some st) O_NORTHWALL type
      else if direction =? 1 then
        Z.quot (blockage (Some st) O_NORTHWALL type + blockage (Some en) O_WESTWALL type) 2
        + Z.quot (blockage (neighbour s st 1 0) O_WESTWALL type
                  + blockage (neighbour s st 1 0) O_NORTHWALL type) 2
      else if direction =? 2 then blockage (Some en) O_WESTWALL type
      else if direction =? 3 then
        Z.quot (blockage (Some en) O_WESTWALL type + blockage (Some en) O_NORTHWALL type) 2
        + Z.quot (blockage (neighbour s st 1 0) O_WESTWALL type
                  + blockage (neighbour s st 0 (-1)) O_NORTHWALL type) 2
      else if direction =? 4 then blockage (Some en) O_NORTHWALL type
      else if direction =? 5 then
        Z.quot (blockage (Some en) O_NORTHWALL type + blockage (Some st) O_WESTWALL type) 2
        + Z.quot (blockage (neighbour s st 0 (-1)) O_WESTWALL type
                  + blockage (neighbour s st 0 (-1)) O_NORTHWALL type) 2
      else if direction =? 6 then blockage (Some st) O_WESTWALL type
      else if direction =? 7 then
        Z.quot (blockage (Some st) O_WESTWALL type + blockage (Some st) O_NORTHWALL type) 2
        + Z.quot (blockage (neighbour s st 0 1) O_WESTWALL type
                  + blockage (neighbour s st (-1) 0) O_NORTHWALL type) 2
      else 0
  | _, _ => 0
  end.

End PastTheEnd.

(** ** Tile mutators that are plain field updates *)

Definition Tile_setLightField (f : Z -> Z) (t : Tile) : Tile :=
  mkTile (t_position t) (t_objects t) (t_ufoDoorOpen t) f (t_fire t) (t_smoke t)
         (t_explosive t) (t_unit t) (t_discovered t) (t_checked t) (t_shade t)
         (t_terrainLevel t) (t_flammability t).

(** [Tile::addLight] (Tile.cpp is not among the sources), up to the way the
    tile combines the value of the layer with the amount it is passed:
    [accumulate old amount] is the new value of the layer. *)
Definition Tile_addLight_by (accumulate : Z -> Z -> Z) (light layer : Z) (t : Tile) : Tile :=
  Tile_setLightField
    (fun l => if l =? layer then accumulate (t_light t l) light else t_light t l) t.

(** Modelled from the spec: [Tile::addLight].  The tile exposes a "per-layer
    light accumulator (reset/add/commit-dirty)"; the amount is "added (not
    set) onto existing layer value". *)
Definition Tile_addLight (light layer : Z) (t : Tile) : Tile :=
  Tile_addLight_by Z.add light layer t.

(** Modelled from the spec: [Tile::resetLight], the "zero layer" step of a
    lighting pass. *)
Definition Tile_resetLight (layer : Z) (t : Tile) : Tile :=
  Tile_setLightField (fun l => if l =? layer then 0 else t_light t l) t.

(** [Tile::setDiscovered]. *)
Definition Tile_setDiscovered (b : bool) (t : Tile) : Tile :=
  mkTile (t_position t) (t_objects t) (t_ufoDoorOpen t) (t_light t) (t_fire t) (t_smoke t)
         (t_explosive t) (t_unit t) b (t_checked t) (t_shade t)
         (t_terrainLevel t) (t_flammability t).

(** [Tile::setChecked]. *)
Definition Tile_setChecked (b : bool) (t : Tile) : Tile :=
  mkTile (t_position t) (t_objects t) (t_ufoDoorOpen t) (t_light t) (t_fire t) (t_smoke t)
         (t_explosive t) (t_unit t) (t_discovered t) b (t_shade t)
         (t_terrainLevel t) (t_flammability t).

(** [Tile::setExplosive]: records the deferred structural damage. *)
Definition Tile_setExplosive (power : Z) (t : Tile) : Tile :=
  mkTile (t_position t) (t_objects t) (t_ufoDoorOpen t) (t_light t) (t_fire t) (t_smoke t)
         power (t_unit t) (t_discovered t) (t_checked t) (t_shade t)
         (t_terrainLevel t) (t_flammability t).

Definition setTiles (ts : list Tile) (s : SavedBattleGame) : SavedBattleGame :=
  mkSave (sv_width s) (sv_length s) (sv_height s) ts (sv_units s)
         (sv_globalShade s) (sv_side s).

Definition setUnits (us : list BattleUnit) (s : SavedBattleGame) : SavedBattleGame :=
  mkSave (sv_width s) (sv_length s) (sv_height s) (sv_tiles s) us
         (sv_globalShade s) (sv_side s).

(** [tile->f()] on the tile behind pointer [i]. *)
Definition onTile (i : nat) (f : Tile -> Tile) (s : SavedBattleGame) : SavedBattleGame :=
  setTiles (alter f i (sv_tiles s)) s.

(** [if (getTile(p)) getTile(p)->f()]. *)
Definition onTileAt (p : Position) (f : Tile -> Tile) (s : SavedBattleGame)
  : SavedBattleGame :=
  match getTile s p with
  | Some i => onTile i f s
  | None => s
  end.

(** The values [lo, lo+1, ..., hi] of a counting loop
    [for (int v = lo; v <= hi; v++)]. *)
Definition zrange (lo hi : Z) : list Z :=
  map (fun k => lo + Z.of_nat k) (seq 0 (Z.to_nat (hi + 1 - lo))).

(** ** Lighting engine *)

(** [int(floor(sqrt(float(x*x + y*y)) + 0.5))]: the square root rounded to the
    nearest integer.  The source computes it in floating point; the value
    below is the exact one, [k] with [(2k-1)^2 <= 4n < (2k+1)^2], which the
    floating-point expression yields for every [n] a light radius can
    produce ([4n] is never an odd square, so no tie arises). *)
Definition lightDistance (x y : Z) : Z :=
  (Z.sqrt (4 * (x * x + y * y)) + 1) / 2.

(** The body of the innermost loop of [TerrainModifier::addLight]: the four
    mirrored tiles of the quadrant cell [(x, y)] on level [z].  The first
    argument is the way [Tile::addLight] accumulates. *)
Definition addLight_cell_by (accumulate : Z -> Z -> Z) (center : Position)
           (power layer : Z) (x y z : Z) (s : SavedBattleGame) : SavedBattleGame :=
  let distance := lightDistance x y in
  let s := onTileAt (mkPosition (px center + x) (py center + y) z)
                    (Tile_addLight_by accumulate (power - distance) layer) s in
  let s := onTileAt (mkPosition (px center - x) (py center - y) z)
                    (Tile_addLight_by accumulate (power - distance) layer) s in
  let s := onTileAt (mkPosition (px center - x) (py center + y) z)
                    (Tile_addLight_by accumulate (power - distance) layer) s in
  onTileAt (mkPosition (px center + x) (py center - y) z)
           (Tile_addLight_by accumulate (power - distance) layer) s.

(** [TerrainModifier::addLight], for a given way of accumulating. *)
Definition addLight_by (accumulate : Z -> Z -> Z) (center : Position) (power layer : Z)
           (s : SavedBattleGame) : SavedBattleGame :=
  fold_left
    (fun s x =>
       fold_left
         (fun s y =>
            fold_left (fun s z => addLight_cell_by accumulate center power layer x y z s)
                      (zrange 0 (sv_height s - 1)) s)
         (zrange 0 power) s)
    (zrange 0 power) s.

(** [TerrainModifier::addLight] over the adding accumulator. *)
Definition addLight (center : Position) (power layer : Z) (s : SavedBattleGame)
  : SavedBattleGame :=
  addLight_by Z.add center power layer s.

(** The amount the one-tile [calculateSunShading] passes to [Tile::addLight]. *)
Definition sunPower (s : SavedBattleGame) (i : nat) : Z :=
  match sv_tiles s !! i with
  | None => 0
  | Some tile =>
      let power := 15 - sv_globalShade s in
      if sv_globalShade s <=? 5 then
        if negb (verticalBlockage s
                   (getTile s (mkPosition (px (t_position tile)) (py (t_position tile))
                                          (sv_height s - 1)))
                   (Some i) DT_NONE =? 0)
        then power - 2
        else power
      else power
  end.

(** [TerrainModifier::calculateSunShading] for one tile. *)
Definition calculateSunShading_tile (i : nat) (s : SavedBattleGame) : SavedBattleGame :=
  onTile i (Tile_addLight (sunPower s i) 0) s.

(** [TerrainModifier::calculateSunShading] for the whole terrain. *)
Definition calculateSunShading (s : SavedBattleGame) : SavedBattleGame :=
  fold_left (fun s i => calculateSunShading_tile i s) (seq 0 (tileCount s)) s.

(** [TerrainModifier::calculateSunShading] for one tile, for a given way of
    accumulating. *)
Definition calculateSunShading_tile_by (accumulate : Z -> Z -> Z) (i : nat)
           (s : SavedBattleGame) : SavedBattleGame :=
  onTile i (Tile_addLight_by accumulate (sunPower s i) 0) s.

(** [TerrainModifier::calculateSunShading] for the whole terrain, for a given
    way of accumulating. *)
Definition calculateSunShading_by (accumulate : Z -> Z -> Z) (s : SavedBattleGame)
  : SavedBattleGame :=
  fold_left (fun s i => calculateSunShading_tile_by accumulate i s) (seq 0 (tileCount s)) s.

(** ** Voxel intersection test *)

(** How a call can fail to return normally: through a null pointer
    ([NullPointer], also a [BattleUnit*] that points at no unit), through the
    [std::out_of_range] that [std::vector::at] throws ([OutOfRange]), or
    through an index outside a fixed table ([BadIndex]). *)
Inductive Fault := NullPointer | OutOfRange | BadIndex.

Inductive Outcome (A : Type) : Type :=
| Value (a : A)
| Raise (f : Fault).
Arguments Value {A} a.
Arguments Raise {A} f.

(** [_voxelData->at(idx)]: [idx] is an [int] converted to an unsigned size, so
    a negative index is out of range as well. *)
Definition voxelAt (voxelData : list Z) (idx : Z) : Outcome Z :=
  if idx <? 0 then Raise OutOfRange
  else match voxelData !! Z.to_nat idx with
       | Some w => Value w
       | None => Raise OutOfRange
       end.

(** [(w & (1 << x)) == (1 << x)]. *)
Definition voxelBit (w x : Z) : bool := Z.land w (Z.shiftl 1 x) =? Z.shiftl 1 x.

(** [unit->isKneeled() ? getKneelHeight() : getStandHeight()]. *)
Definition unitHeight (u : BattleUnit) : Z :=
  if u_kneeled u then u_kneelHeight u else u_standHeight u.

Definition optNatEqb (a b : option nat) : bool :=
  match a, b with
  | Some x, Some y => Nat.eqb x y
  | None, None => true
  | _, _ => false
  end.

(** The loop [for (int i=0; i< 4; i++)] of [voxelCheck] over the parts still
    to test. *)
Fixpoint voxelCheck_parts (voxelData : list Z) (tile : Tile) (voxel : Position)
         (parts : list TilePart) : Outcome Z :=
  match parts with
  | [] => Value (-1)
  | i :: rest =>
      match getMapData tile i with
      | Some mp =>
          let x := 15 - Z.rem (px voxel) 16 in
          let y := 15 - Z.rem (py voxel) 16 in
          let idx := getLoftID mp (Z.quot (Z.rem (pz voxel) 24) 2) * 16 + y in
          match voxelAt voxelData idx with
          | Raise f => Raise f
          | Value w =>
              if voxelBit w x then Value (partIndex i)
              else voxelCheck_parts voxelData tile voxel rest
          end
      | None => voxelCheck_parts voxelData tile voxel rest
      end
  end.

(** The tile [voxelCheck] looks at: [Position(voxel.x/16, voxel.y/16, voxel.z/24)]. *)
Definition voxelTile (voxel : Position) : Position :=
  mkPosition (Z.quot (px voxel) 16) (Z.quot (py voxel) 16) (Z.quot (pz voxel) 24).

(** The unit test of [voxelCheck]: does the voxel hit the unit standing on
    the tile? *)
Definition voxelCheck_unit (voxelData : list Z) (s : SavedBattleGame) (tile : Tile)
           (voxel : Position) (excludeUnit : option nat) : Outcome bool :=
  match t_unit tile with
  | None => Value false
  | Some k =>
      if optNatEqb (Some k) excludeUnit then Value false
      else match sv_units s !! k with
           | None => Raise NullPointer
           | Some unit =>
               if Z.rem (pz voxel) 24 <? unitHeight unit then
                 let x := 15 - Z.rem (px voxel) 16 in
                 let y := 15 - Z.rem (py voxel) 16 in
                 let idx := u_loftemps unit * 16 + y in
                 match voxelAt voxelData idx with
                 | Raise f => Raise f
                 | Value w => Value (voxelBit w x)
                 end
               else Value false
           end
  end.

(** [TerrainModifier::voxelCheck]: the part number (0-3), a unit (4), out of
    map (5) or -1 (hit nothing). *)
Definition voxelCheck (voxelData : list Z) (s : SavedBattleGame) (voxel : Position)
           (excludeUnit : option nat) : Outcome Z :=
  match tileAt s (getTile s (voxelTile voxel)) with
  | None => Value 5
  | Some tile =>
      match voxelCheck_unit voxelData s tile voxel excludeUnit with
      | Raise f => Raise f
      | Value true => Value 4
      | Value false =>
          voxelCheck_parts voxelData tile voxel [O_FLOOR; O_WESTWALL; O_NORTHWALL; O_OBJECT]
      end
  end.

(** ** Geometry kernel: [calculateLine] *)

(** The loop [for (x = x0; x != x1; x += step_x)] of [calculateLine], with
    [n] iterations to go ([n] starts as [|x1 - x0|]).  [trajectory] is the
    vector behind the [trajectory] pointer, [None] for a null pointer. *)
Fixpoint calculateLine_loop (voxelData : list Z) (s : SavedBattleGame)
         (swap_xy swap_xz storeTrajectory : bool) (excludeUnit : option nat)
         (delta_x delta_y delta_z step_x step_y step_z : Z)
         (n : nat) (x y z drift_xy drift_xz : Z) (trajectory : option (list Position))
  : Outcome (Z * option (list Position)) :=
  match n with
  | O => Value (-1, trajectory)
  | S n' =>
      let '(cx, cy, cz) := (x, y, z) in
      let '(cx, cz) := if swap_xz then (cz, cx) else (cx, cz) in
      let '(cx, cy) := if swap_xy then (cy, cx) else (cx, cy) in
      let c := mkPosition cx cy cz in
      let pushed :=
        if storeTrajectory then
          match trajectory with
          | Some tr => Value (Some (tr ++ [c]))
          | None => Raise NullPointer
          end
        else Value trajectory in
      match pushed with
      | Raise f => Raise f
      | Value trajectory =>
          match voxelCheck voxelData s c excludeUnit with
          | Raise f => Raise f
          | Value result =>
              if negb (result =? -1) then
                Value (result,
                       if negb storeTrajectory
                       then match trajectory with
                            | Some tr => Some (tr ++ [c])
                            | None => None
                            end
                       else trajectory)
              else
                let drift_xy := drift_xy - delta_y in
                let drift_xz := drift_xz - delta_z in
                let '(y, drift_xy) :=
                  if drift_xy <? 0 then (y + step_y, drift_xy + delta_x) else (y, drift_xy) in
                let '(z, drift_xz) :=
                  if drift_xz <? 0 then (z + step_z, drift_xz + delta_x) else (z, drift_xz) in
                calculateLine_loop voxelData s swap_xy swap_xz storeTrajectory excludeUnit
                                   delta_x delta_y delta_z step_x step_y step_z
                                   n' (x + step_x) y z drift_xy drift_xz trajectory
          end
      end
  end.

(** [TerrainModifier::calculateLine]: Bresenham in 3D. *)
Definition calculateLine (voxelData : list Z) (s : SavedBattleGame)
           (origin target : Position) (storeTrajectory : bool)
           (trajectory : option (list Position)) (excludeUnit : option nat)
  : Outcome (Z * option (list Position)) :=
  let '(x0, x1) := (px origin, px target) in
  let '(y0, y1) := (py origin, py target) in
  let '(z0, z1) := (pz origin, pz target) in
  let swap_xy := Z.abs (x1 - x0) <? Z.abs (y1 - y0) in
  let '(x0, y0, x1, y1) := if swap_xy then (y0, x0, y1, x1) else (x0, y0, x1, y1) in
  let swap_xz := Z.abs (x1 - x0) <? Z.abs (z1 - z0) in
  let '(x0, z0, x1, z1) := if swap_xz then (z0, x0, z1, x1) else (x0, z0, x1, z1) in
  let delta_x := Z.abs (x1 - x0) in
  let delta_y := Z.abs (y1 - y0) in
  let delta_z := Z.abs (z1 - z0) in
  let drift_xy := Z.quot delta_x 2 in
  let drift_xz := Z.quot delta_x 2 in
  let step_x := if x1 <? x0 then -1 else 1 in
  let step_y := if y1 <? y0 then -1 else 1 in
  let step_z := if z1 <? z0 then -1 else 1 in
  calculateLine_loop voxelData s swap_xy swap_xz storeTrajectory excludeUnit
                     delta_x delta_y delta_z step_x step_y step_z
                     (Z.to_nat delta_x) x0 y0 z0 drift_xy drift_xz trajectory.

(** ** Collaborators outside the sources *)

(** A ghost record of the calls the engine makes on [Tile] and [BattleUnit]
    methods whose bodies are outside the sources, in the order it makes
    them. *)
Inductive Event :=
| EvSetExplosive (tile : nat) (power : Z)
| EvDetonate (tile : nat)
| EvUnitDamage (unit : nat) (relative : Position) (power : Z)
| EvTileDamage (tile : nat) (part : Z) (power : Z)
| EvAddSmoke (tile : nat) (turns : Z)
| EvIgnite (tile : nat)
| EvPrepareNewTurn (tile : nat)
| EvOpenDoor (tile : nat) (part : TilePart)
| EvAddItem (tile : nat) (item : nat).

Definition isDetonate (e : Event) : bool :=
  match e with EvDetonate _ => true | _ => false end.

(** Everything the engine calls but does not define.
    - [ext_x8], [ext_y8]: what lies behind the direction tables (see
      [vectorToDirection]).
    - [RNG] with [RNG::generate] on integers, [RNG::generate] on doubles and
      [RNG::boxMuller]; a double is a rational here.
    - [fovRayTile pos fi te l]: the tile
      [(floor(vx), floor(vy), floor(vz / 2))] that step [l] of the ray with
      angles [fi], [te] (in degrees) reaches from a unit at tile [pos];
      [blastRayTile center te l]: the same for the explosion ray from the
      voxel [center].  The source computes both with [cos] and [sin] in
      double precision.
    - the [Tile] and [BattleUnit] methods that are more than a field
      update. *)
Record Externals := mkExternals {
  ext_x8 : Z;
  ext_y8 : Z;
  RNG : Type;
  rng_generate : Z -> Z -> RNG -> Z * RNG;
  rng_generateReal : Q -> Q -> RNG -> Q * RNG;
  rng_boxMuller : Q -> Q -> RNG -> Q * RNG;
  fovRayTile : Position -> Z -> Z -> Z -> Position;
  blastRayTile : Position -> Z -> Z -> Position;
  tile_detonate : Tile -> Tile;
  tile_ignite : Tile -> Tile;
  tile_addSmoke : Z -> Tile -> Tile;
  tile_prepareNewTurn : Tile -> Tile;
  tile_damage : Z -> Z -> Tile -> Tile;
  tile_openDoor : TilePart -> Tile -> Z * Tile;
  tile_addItem : nat -> Tile -> Tile;
  tile_checkForChangedLight : Z -> Tile -> Tile;
  unit_damage : Position -> Z -> BattleUnit -> BattleUnit
}.

Section Engine.
Variable E : Externals.

(** ** State and the monad of the engine *)

(** The [TerrainModifier] object ([_save], [_voxelData]) together with the
    random source and the ghost call record. *)
Record State := mkState {
  _save : SavedBattleGame;
  _voxelData : list Z;
  st_rng : RNG E;
  st_log : list Event
}.

(** A call either returns ([Done]) or stops at a fault ([Crash]); both
    leave a state behind. *)
Inductive Res (A : Type) : Type :=
| Done (a : A) (st : State)
| Crash (f : Fault) (st : State).
Arguments Done {A} a st.
Arguments Crash {A} f st.

Definition M (A : Type) : Type := State -> Res A.

Definition ret {A} (a : A) : M A := fun st => Done a st.

Definition bind {A B} (m : M A) (k : A -> M B) : M B :=
  fun st =>
    match m st with
    | Done a st' => k a st'
    | Crash f st' => Crash f st'
    end.

Definition crash {A} (f : Fault) : M A := fun st => Crash f st.

Definition final {A} (r : Res A) : State :=
  match r with
  | Done _ st => st
  | Crash _ st => st
  end.

Definition returns {A} (r : Res A) : bool :=
  match r with
  | Done _ _ => true
  | Crash _ _ => false
  end.

Definition getSave : M SavedBattleGame := fun st => Done (_save st) st.

Definition getVoxelData : M (list Z) := fun st => Done (_voxelData st) st.

Definition modifySave (f : SavedBattleGame -> SavedBattleGame) : M unit :=
  fun st => Done tt (mkState (f (_save st)) (_voxelData st) (st_rng st) (st_log st)).

Definition emit (e : Event) : M unit :=
  fun st => Done tt (mkState (_save st) (_voxelData st) (st_rng st) (st_log st ++ [e])).

Definition draw {A} (f : RNG E -> A * RNG E) : M A :=
  fun st =>
    let '(a, g) := f (st_rng st) in
    Done a (mkState (_save st) (_voxelData st) g (st_log st)).

Definition liftOutcome {A} (o : Outcome A) : M A :=
  match o with
  | Value a => ret a
  | Raise f => crash f
  end.

(** Dereference a [Tile*]. *)
Definition derefTile (ptr : option nat) : M nat :=
  match ptr with
  | Some i => ret i
  | None => crash NullPointer
  end.

(** Read the tile behind a non-null pointer. *)
Definition readTile (i : nat) : M Tile :=
  fun st =>
    match sv_tiles (_save st) !! i with
    | Some t => Done t st
    | None => Crash NullPointer st
    end.

(** Read the unit behind a [BattleUnit*]. *)
Definition readUnit (k : nat) : M BattleUnit :=
  fun st =>
    match sv_units (_save st) !! k with
    | Some u => Done u st
    | None => Crash NullPointer st
    end.

(** A loop over a fixed list of values; a fault ends it. *)
Fixpoint forEach {X} (l : list X) (body : X -> M unit) : M unit :=
  match l with
  | [] => ret tt
  | x :: rest => bind (body x) (fun _ => forEach rest body)
  end.

End Engine.

Arguments Done {E A} a st.
Arguments Crash {E A} f st.
Arguments ret {E A} a.
Arguments bind {E A B} m k.
Arguments crash {E A} f.
Arguments final {E A} r.
Arguments returns {E A} r.
Arguments getSave {E}.
Arguments getVoxelData {E}.
Arguments modifySave {E} f.
Arguments emit {E} e.
Arguments draw {E A} f.
Arguments liftOutcome {E A} o.
Arguments derefTile {E} ptr.
Arguments readTile {E} i.
Arguments readUnit {E} k.
Arguments forEach {E X} l body.
Arguments _save {E} s.
Arguments _voxelData {E} s.
Arguments st_rng {E} s.
Arguments st_log {E} s.
Arguments mkState {E}.

Notation "'let*' x ':=' m 'in' k" := (bind m (fun x => k))
  (at level 10, x name, m at level 100, k at level 200, only parsing).
Notation "m ;;; k" := (bind m (fun _ => k))
  (at level 100, k at level 200, right associativity, only parsing).

Section Operations.
Variable E : Externals.

(** [horizontalBlockage] and [verticalBlockage] between two tile pointers, on
    the current grid. *)
Definition hBlock (s : SavedBattleGame) (a b : option nat) (type : ItemDamageType) : Z :=
  horizontalBlockage (ext_x8 E) (ext_y8 E) s a b type.

(** [tile->m()] for an outside method [m], with its record in the call log. *)
Definition callTile (i : nat) (f : Tile -> Tile) (e : Event) : M E unit :=
  modifySave (onTile i f) ;;; emit e.

(** ** Visibility engine *)

(** Modelled from the spec: [BattleUnit::addToVisibleUnits] (BattleUnit.cpp is
    not among the sources): "confirmed targets are added to the looking
    unit's visible set". *)
Definition addToVisibleUnits (bu : nat) (u : BattleUnit) : BattleUnit :=
  mkBattleUnit (u_position u) (u_direction u) (u_faction u) (u_kneeled u) (u_out u)
               (u_standHeight u) (u_kneelHeight u) (u_loftemps u)
               (if existsb (Nat.eqb bu) (u_visibleUnits u) then u_visibleUnits u
                else u_visibleUnits u ++ [bu]).

(** [BattleUnit::clearVisibleUnits]. *)
Definition clearVisibleUnits (u : BattleUnit) : BattleUnit :=
  mkBattleUnit (u_position u) (u_direction u) (u_faction u) (u_kneeled u) (u_out u)
               (u_standHeight u) (u_kneelHeight u) (u_loftemps u) [].

Definition onUnit (k : nat) (f : BattleUnit -> BattleUnit) (s : SavedBattleGame)
  : SavedBattleGame :=
  setUnits (alter f k (sv_units s)) s.

(** The eye voxel of a unit: tile centre, raised by the pose height and the
    terrain level of [tile]. *)
Definition eyeVoxel (u : BattleUnit) (tile : Tile) : Position :=
  mkPosition (px (u_position u) * 16 + 8) (py (u_position u) * 16 + 8)
             (pz (u_position u) * 24 + - t_terrainLevel tile + unitHeight u).

(** [TerrainModifier::checkForVisibleUnits]. *)
Definition checkForVisibleUnits (unitp : nat) (tile : nat) : M E bool :=
  let* t := readTile tile in
  match t_unit t with
  | None => ret false
  | Some buIdx =>
      let* bu := readUnit buIdx in
      if u_out bu then ret false
      else
        let* u := readUnit unitp in
        if factionEqb (u_faction u) FACTION_PLAYER
           && (factionEqb (u_faction bu) FACTION_PLAYER
               || factionEqb (u_faction bu) FACTION_NEUTRAL)
        then ret false
        else if factionEqb (u_faction u) FACTION_HOSTILE
                && factionEqb (u_faction bu) FACTION_HOSTILE
        then ret false
        else
          let originVoxel := eyeVoxel u t in
          let* s := getSave in
          let* buTile := derefTile (getTile s (u_position bu)) in
          let* bt := readTile buTile in
          let targetVoxel := eyeVoxel bu bt in
          let* vd := getVoxelData in
          let* test := liftOutcome (calculateLine vd s originVoxel targetVoxel false None None) in
          let hitPosition := voxelTile targetVoxel in
          if (fst test =? -1)
             || ((fst test =? 4) && Position_eqb (u_position bu) hitPosition)
          then modifySave (onUnit unitp (addToVisibleUnits buIdx)) ;;; ret true
          else ret false
  end.

Definition startAngle : list Z := [45; 0; -45; 270; 225; 180; 135; 90].
Definition endAngle : list Z := [135; 90; 45; 360; 315; 270; 225; 180].

(** The values [lo, lo+step, ...] up to [hi] of a loop
    [for (double a = lo; a <= hi; a += step)] over whole numbers of degrees. *)
Definition degrees (lo hi step : Z) : list Z :=
  map (fun k => lo + step * Z.of_nat k) (seq 0 (Z.to_nat ((hi - lo) / step + 1))).

(** [t && t->getMapData(part) && (isDoor() || isUFODoor())]. *)
Definition isDoorAt (s : SavedBattleGame) (ptr : option nat) (part : TilePart) : bool :=
  match tileAt s ptr with
  | Some t =>
      match getMapData t part with
      | Some mp => isDoor mp || isUFODoor mp
      | None => false
      end
  | None => false
  end.

(** What [calculateFOV] does to a tile its ray reaches with power left, in
    light, for the first time in the sweep. *)
Definition fovReveal (unitp : nat) (dest : nat) (tilePos : Position) : M E unit :=
  modifySave (onTile dest (Tile_setChecked true)) ;;;
  checkForVisibleUnits unitp dest ;;;
  let* u := readUnit unitp in
  (if factionEqb (u_faction u) FACTION_PLAYER
   then modifySave (onTile dest (Tile_setDiscovered true))
   else ret tt) ;;;
  let* u := readUnit unitp in
  if factionEqb (u_faction u) FACTION_PLAYER then
    let* s := getSave in
    let east := getTile s (mkPosition (px tilePos + 1) (py tilePos) (pz tilePos)) in
    (match east with
     | Some t => if isDoorAt s east O_WESTWALL
                 then modifySave (onTile t (Tile_setDiscovered true)) else ret tt
     | None => ret tt
     end) ;;;
    let* s := getSave in
    let south := getTile s (mkPosition (px tilePos) (py tilePos - 1) (pz tilePos)) in
    match south with
    | Some t => if isDoorAt s south O_NORTHWALL
                then modifySave (onTile t (Tile_setDiscovered true)) else ret tt
    | None => ret tt
    end
  else ret tt.

(** The loop [while (power_ > 0)] of one ray of [calculateFOV], with at most
    [n] iterations to go. *)
Fixpoint fovRay (n : nat) (unitp : nat) (unitPos : Position) (fi te : Z)
         (l power_ : Z) (origin : option nat) : M E unit :=
  match n with
  | O => ret tt
  | S n' =>
      if power_ <=? 0 then ret tt
      else
        let l := l + 1 in
        let tilePos := fovRayTile E unitPos fi te l in
        let power_ := power_ - 1 in
        let* s := getSave in
        match getTile s tilePos with
        | None => ret tt
        | Some dest =>
            let power_ := power_ - hBlock s origin (Some dest) DT_NONE in
            let power_ := power_ - verticalBlockage s origin (Some dest) DT_NONE in
            let* d := readTile dest in
            let objectFalloff :=
              match getMapData d O_OBJECT with
              | Some mp => getBlock mp DT_NONE
              | None => 0
              end in
            (if (0 <? power_) && (t_shade d <? 10) && negb (t_checked d)
             then fovReveal unitp dest tilePos
             else ret tt) ;;;
            fovRay n' unitp unitPos fi te l (power_ - objectFalloff) (Some dest)
        end
  end.

(** The part of [calculateFOV] before the rays: the unit's own tile, the
    visible-unit set and the [checked] flags. *)
Definition fovPrologue (unitp : nat) : M E unit :=
  let* u := readUnit unitp in
  (if factionEqb (u_faction u) FACTION_PLAYER then
     let* s := getSave in
     let* own := derefTile (getTile s (u_position u)) in
     modifySave (onTile own (Tile_setDiscovered true))
   else ret tt) ;;;
  modifySave (onUnit unitp clearVisibleUnits) ;;;
  let* s := getSave in
  forEach (seq 0 (tileCount s)) (fun i => modifySave (onTile i (Tile_setChecked false))).

(** The two nested angle loops of [calculateFOV]. *)
Definition fovSweep (unitp : nat) (unitPos : Position) : M E unit :=
  let startFi := if pz unitPos =? 0 then 0 else -90 in
  forEach (degrees startFi 60 6) (fun fi =>
    let* u := readUnit unitp in
    match startAngle !! Z.to_nat (u_direction u), endAngle !! Z.to_nat (u_direction u) with
    | Some lo, Some hi =>
        if u_direction u <? 0 then crash BadIndex
        else
          forEach (degrees lo hi 3) (fun te =>
            let* u := readUnit unitp in
            let* s := getSave in
            fovRay 20 unitp unitPos fi te 0 20 (getTile s (u_position u)))
    | _, _ => crash BadIndex
    end).

(** [TerrainModifier::calculateFOV] for one unit. *)
Definition calculateFOV (unitp : nat) : M E unit :=
  let* u := readUnit unitp in
  let unitPos := u_position u in
  fovPrologue unitp ;;;
  fovSweep unitp unitPos.

(** [TerrainModifier::calculateFOV] for a position: every unit of the side
    whose turn it is. *)
Definition calculateFOV_position (position : Position) : M E unit :=
  let* s := getSave in
  forEach (seq 0 (length (sv_units s))) (fun i =>
    let* u := readUnit i in
    let* s := getSave in
    if factionEqb (u_faction u) (sv_side s) then calculateFOV i else ret tt).

(** ** Lighting engine: the static pass *)

(** The light sources of tile [i]: floor, object, fire. *)
Definition terrainLights (i : nat) (s : SavedBattleGame) : SavedBattleGame :=
  match sv_tiles s !! i with
  | None => s
  | Some t =>
      let s :=
        match getMapData t O_FLOOR with
        | Some mp => if negb (getLightSource mp =? 0)
                     then addLight (t_position t) (getLightSource mp) 1 s else s
        | None => s
        end in
      let s :=
        match getMapData t O_OBJECT with
        | Some mp => if negb (getLightSource mp =? 0)
                     then addLight (t_position t) (getLightSource mp) 1 s else s
        | None => s
        end in
      if negb (t_fire t =? 0) then addLight (t_position t) 15 1 s else s
  end.

(** [TerrainModifier::calculateTerrainLighting]. *)
Definition calculateTerrainLighting_save (s : SavedBattleGame) : SavedBattleGame :=
  if sv_globalShade s <? 1 then s
  else
    let s := fold_left (fun s i => onTile i (Tile_resetLight 1) s) (seq 0 (tileCount s)) s in
    let s := fold_left (fun s i => terrainLights i s) (seq 0 (tileCount s)) s in
    fold_left (fun s i => onTile i (tile_checkForChangedLight E 1) s) (seq 0 (tileCount s)) s.

Definition calculateTerrainLighting : M E unit := modifySave calculateTerrainLighting_save.

(** ** Propagation engine: [explode] *)

(** The [(int)] conversion of a double: truncation toward zero. *)
Definition truncate (q : Q) : Z := Z.quot (Qnum q) (Zpos (Qden q)).

(** What a ray of [explode] does to the tile it reaches with power left. *)
Definition blastTile (type : ItemDamageType) (dest : nat) (power_ : Z) : M E unit :=
  (match type with
   | DT_HE =>
       callTile dest (Tile_setExplosive (Z.quot power_ 2))
                (EvSetExplosive dest (Z.quot power_ 2)) ;;;
       let* d := readTile dest in
       match t_unit d with
       | Some k =>
           let* _chk := readUnit k in
           let* r := draw (rng_generateReal E (inject_Z power_ / 2)%Q
                                              (inject_Z power_ * (3 # 2))%Q) in
           modifySave (onUnit k (unit_damage E (mkPosition 0 0 0) (truncate r))) ;;;
           emit (EvUnitDamage k (mkPosition 0 0 0) (truncate r))
       | None => ret tt
       end
   | _ => ret tt
   end) ;;;
  (match type with
   | DT_SMOKE =>
       let* d := readTile dest in
       if t_smoke d <? 10 then
         let* r := draw (rng_generate E 15 20) in
         callTile dest (tile_addSmoke E r) (EvAddSmoke dest r)
       else ret tt
   | _ => ret tt
   end) ;;;
  (match type with
   | DT_IN =>
       let* d := readTile dest in
       if t_fire d =? 0 then callTile dest (tile_ignite E) (EvIgnite dest) else ret tt
   | _ => ret tt
   end).

(** The loop [while (power_ > 0 && l <= maxRadius)] of one ray of [explode],
    with [n] iterations to go; [l] counts 0, 1, 2, ... so [n] starts as
    [maxRadius + 1 - l]. *)
Fixpoint blastRay (n : nat) (center : Position) (type : ItemDamageType) (maxRadius : Z)
         (te : Z) (l power_ : Z) (origin : option nat) : M E unit :=
  match n with
  | O => ret tt
  | S n' =>
      if (0 <? power_) && (l <=? maxRadius) then
        let tilePos := blastRayTile E center te l in
        let* s := getSave in
        match getTile s tilePos with
        | None => ret tt
        | Some dest =>
            let power_ := power_ - hBlock s origin (Some dest) type in
            (if 0 <? power_ then blastTile type dest power_ else ret tt) ;;;
            let power_ := power_ - 10 in
            let* d := readTile dest in
            let power_ :=
              match getMapData d O_OBJECT with
              | Some mp => power_ - getBlock mp type
              | None => power_
              end in
            blastRay n' center type maxRadius te (l + 1) power_ (Some dest)
        end
      else ret tt
  end.

(** The ray loop of [explode]: 121 rays, every 3 degrees. *)
Definition blastRays (center : Position) (power : Z) (type : ItemDamageType)
           (maxRadius : Z) : M E unit :=
  forEach (degrees 0 360 3) (fun te =>
    let* s := getSave in
    blastRay (Z.to_nat (maxRadius + 1)) center type maxRadius te 0 power (getTile s center)).

(** The pass [for (i...) getTiles()[i]->detonate()]. *)
Definition detonateAll : M E unit :=
  let* s := getSave in
  forEach (seq 0 (tileCount s)) (fun i => callTile i (tile_detonate E) (EvDetonate i)).

(** The armour-piercing branch of [explode]: a single voxel. *)
Definition explodeAP (center : Position) (power : Z) (unitp : option nat) : M E unit :=
  let* vd := getVoxelData in
  let* s := getSave in
  let* part := liftOutcome (voxelCheck vd s center unitp) in
  if (0 <=? part) && (part <=? 3) then
    let* tile := derefTile (getTile s (voxelTile center)) in
    let* r := draw (rng_generate E (Z.quot power 4) (Z.quot (power * 3) 4)) in
    callTile tile (tile_damage E part r) (EvTileDamage tile part r)
  else if part =? 4 then
    let* tile := derefTile (getTile s (voxelTile center)) in
    let* t := readTile tile in
    match t_unit t with
    | None => crash NullPointer
    | Some k =>
        let* _chk := readUnit k in
        let rel := mkPosition (Z.rem (px center) 16) (Z.rem (py center) 16)
                              (Z.rem (pz center) 24) in
        let* r := draw (rng_generate E 0 (power * 2)) in
        modifySave (onUnit k (unit_damage E rel r)) ;;;
        emit (EvUnitDamage k rel r)
    end
  else ret tt.

(** [TerrainModifier::explode]. *)
Definition explode (center : Position) (power : Z) (type : ItemDamageType)
           (maxRadius : Z) (unitp : option nat) : M E unit :=
  (match type with
   | DT_AP => explodeAP center power unitp
   | _ =>
       let power := match type with DT_IN => Z.quot power 2 | _ => power end in
       blastRays center power type maxRadius ;;;
       match type with
       | DT_HE => detonateAll
       | _ => ret tt
       end
   end) ;;;
  calculateFOV_position center ;;;
  calculateTerrainLighting.

(** ** Propagation engine: [prepareNewTurn] *)

(** [if (base < 0) base *= -1;] *)
Definition Qabs_double (q : Q) : Q := if Qle_bool 0 q then q else (q * -1)%Q.

(** [flam < base] for an [int] and a double: strictly less. *)
Definition intLtDouble (n : Z) (q : Q) : bool := negb (Qle_bool q (inject_Z n)).

(** The body of the two neighbour loops of [prepareNewTurn]: one attempt of
    the burning tile [i] to set the tile at [pos] on fire. *)
Definition igniteAttempt (i : nat) (pos : Position) : M E unit :=
  let* s := getSave in
  match getTile s pos with
  | None => ret tt
  | Some t =>
      let* tt_ := readTile t in
      if t_fire tt_ =? 0 then
        if hBlock s (Some i) (Some t) DT_IN =? 0 then
          let flam := t_flammability tt_ in
          if flam <? 255 then
            let* base := draw (rng_boxMuller E 0 126) in
            let base := Qabs_double base in
            if intLtDouble flam base then
              let* r := draw (rng_generate E 0 flam) in
              if r <? 2 then callTile t (tile_ignite E) (EvIgnite t) else ret tt
            else ret tt
          else ret tt
        else ret tt
      else ret tt
  end.

(** One burning tile of the fire loop of [prepareNewTurn].  No method of
    [Tile] writes its position, so the loop bounds are read once. *)
Definition spreadFire (i : nat) : M E unit :=
  let* ti := readTile i in
  let p := t_position ti in
  forEach (zrange (px p - 1) (px p + 1)) (fun x =>
    forEach (zrange (py p - 1) (py p + 1)) (fun y =>
      igniteAttempt i (mkPosition x y (pz p)))) ;;;
  callTile i (tile_prepareNewTurn E) (EvPrepareNewTurn i).

(** The indices, in array order, of the tiles that satisfy [p]. *)
Definition tilesWhere (p : Tile -> bool) (s : SavedBattleGame) : list nat :=
  List.filter (fun i => match sv_tiles s !! i with
                        | Some t => p t
                        | None => false
                        end) (seq 0 (tileCount s)).

(** [TerrainModifier::prepareNewTurn]. *)
Definition prepareNewTurn : M E unit :=
  let* s := getSave in
  let tilesOnFire := tilesWhere (fun t => 0 <? t_fire t) s in
  let tilesOnSmoke := tilesWhere (fun t => 0 <? t_smoke t) s in
  forEach tilesOnSmoke (fun i =>
    callTile i (tile_prepareNewTurn E) (EvPrepareNewTurn i)) ;;;
  forEach tilesOnFire spreadFire ;;;
  if bool_decide (0 < length tilesOnFire)%nat then calculateTerrainLighting else ret tt.

(** ** Doors and items *)

(** [tile->openDoor(part)]. *)
Definition openDoor (i : nat) (part : TilePart) : M E Z :=
  let* t := readTile i in
  modifySave (onTile i (fun t => snd (tile_openDoor E part t))) ;;;
  emit (EvOpenDoor i part) ;;;
  ret (fst (tile_openDoor E part t)).

(** [tile = getTile(p); if (tile) tile->openDoor(part);] *)
Definition openDoorIfAny (s : SavedBattleGame) (p : Position) (part : TilePart)
  : M E (option nat) :=
  match getTile s p with
  | Some i => openDoor i part ;;; ret (Some i)
  | None => ret None
  end.

(** The two neighbours checked after a door answered 1, at offsets [a] and
    [b] from the unit; the result is the value [tile] is left with. *)
Definition openAdjacent (upos : Position) (a b : Position) (part : TilePart)
  : M E (option nat) :=
  let* s := getSave in
  openDoorIfAny s (Position_add upos a) part ;;;
  let* s := getSave in
  openDoorIfAny s (Position_add upos b) part.

(** [TerrainModifier::unitOpensDoor]. *)
Definition unitOpensDoor (unitp : nat) : M E Z :=
  let* u := readUnit unitp in
  let* s := getSave in
  let tile := getTile s (u_position u) in
  let* doorTile :=
    (if u_direction u =? 0 then
       let* i := derefTile tile in
       let* door := openDoor i O_NORTHWALL in
       if door =? 1 then
         let* tile := openAdjacent (u_position u) (mkPosition 1 0 0) (mkPosition (-1) 0 0)
                                   O_NORTHWALL in
         ret (door, tile)
       else ret (door, tile)
     else if u_direction u =? 2 then
       let* i := derefTile tile in
       let* ti := readTile i in
       let tile := getTile s (Position_add (t_position ti) (mkPosition 1 0 0)) in
       let* door := match tile with
                    | Some j => openDoor j O_WESTWALL
                    | None => ret (-1)
                    end in
       if door =? 1 then
         let* tile := openAdjacent (u_position u) (mkPosition 1 (-1) 0) (mkPosition 1 1 0)
                                   O_WESTWALL in
         ret (door, tile)
       else ret (door, tile)
     else if u_direction u =? 4 then
       let* i := derefTile tile in
       let* ti := readTile i in
       let tile := getTile s (Position_add (t_position ti) (mkPosition 0 (-1) 0)) in
       let* door := match tile with
                    | Some j => openDoor j O_NORTHWALL
                    | None => ret (-1)
                    end in
       if door =? 1 then
         let* tile := openAdjacent (u_position u) (mkPosition 1 (-1) 0) (mkPosition (-1) (-1) 0)
                                   O_NORTHWALL in
         ret (door, tile)
       else ret (door, tile)
     else if u_direction u =? 6 then
       let* i := derefTile tile in
       let* door := openDoor i O_WESTWALL in
       if door =? 1 then
         let* tile := openAdjacent (u_position u) (mkPosition 0 (-1) 0) (mkPosition 0 1 0)
                                   O_WESTWALL in
         ret (door, tile)
       else ret (door, tile)
     else ret (-1, tile)) in
  let '(door, tile) := doorTile in
  (if (door =? 0) || (door =? 1) then
     let* i := derefTile tile in
     let* ti := readTile i in
     calculateFOV_position (t_position ti)
   else ret tt) ;;;
  ret door.

(** The loop [while (getTile(p)->getMapData(O_FLOOR) == 0 && p.z > 0) p.z--]
    of [spawnItem], with [n] iterations to go ([n] starts as [p.z]). *)
Fixpoint spawnItem_fall (n : nat) (p : Position) : M E Position :=
  let* s := getSave in
  let* i := derefTile (getTile s p) in
  let* t := readTile i in
  match getMapData t O_FLOOR with
  | Some _ => ret p
  | None =>
      if 0 <? pz p then
        match n with
        | O => ret p
        | S n' => spawnItem_fall n' (mkPosition (px p) (py p) (pz p - 1))
        end
      else ret p
  end.

(** [TerrainModifier::spawnItem]. *)
Definition spawnItem (position : Position) (item : nat) : M E unit :=
  let* p := spawnItem_fall (Z.to_nat (pz position)) position in
  let* s := getSave in
  let* i := derefTile (getTile s p) in
  callTile i (tile_addItem E item) (EvAddItem i item).

End Operations.

(** ** Doors: [closeUfoDoors] *)

Section UfoDoors.
Variable E : Externals.
(** [Tile::closeUfoDoor], which is outside the sources: its answer and the
    tile it leaves. *)
Variable tile_closeUfoDoor : Tile -> Z * Tile.

(** The loop of [closeUfoDoors] over the tiles still to visit. *)
Fixpoint closeUfoDoors_from (tiles : list nat) (doorsclosed : Z) : M E Z :=
  match tiles with
  | [] => ret doorsclosed
  | i :: rest =>
      let* t := readTile i in
      modifySave (onTile i (fun t => snd (tile_closeUfoDoor t))) ;;;
      closeUfoDoors_from rest (doorsclosed + fst (tile_closeUfoDoor t))
  end.

(** [TerrainModifier::closeUfoDoors]. *)
Definition closeUfoDoors : M E Z :=
  let* s := getSave in
  closeUfoDoors_from (seq 0 (tileCount s)) 0.

End UfoDoors.

(** * Vocabulary of the statements, and concrete battlescapes *)

(** ** Grids and positions *)

(** [(dx, dy)] is one of the eight unit octant vectors. *)
Definition isOctant (v : Position) : bool :=
  (Z.abs (px v) <=? 1) && (Z.abs (py v) <=? 1) && negb ((px v =? 0) && (py v =? 0)).

(** The tile a voxel lies in: component-wise floor division. *)
Definition floorTile (voxel : Position) : Position :=
  mkPosition (px voxel / 16) (py voxel / 16) (pz voxel / 24).

(** The tile array has one tile per grid position, and every tile knows its
    own position. *)
Definition gridOk (s : SavedBattleGame) : Prop :=
  length (sv_tiles s) = tileCount s
  /\ forall i t, sv_tiles s !! i = Some t -> getTile s (t_position t) = Some i.

(** Two saved games with the same dimensions and as many tiles. *)
Definition sameShape (s s' : SavedBattleGame) : Prop :=
  sv_width s' = sv_width s /\ sv_length s' = sv_length s /\ sv_height s' = sv_height s
  /\ length (sv_tiles s') = length (sv_tiles s).

(** Every unit pointer stored in a tile points at a unit. *)
Definition occupantsOk (s : SavedBattleGame) : Prop :=
  forall i t k, sv_tiles s !! i = Some t -> t_unit t = Some k ->
                (k < length (sv_units s))%nat.

(** Every part on the map blocks sight by a non-negative amount (as
    [setBlockValue] stores it: 0 or 255). *)
Definition visionOk (s : SavedBattleGame) : Prop :=
  forall i t part mp,
    sv_tiles s !! i = Some t -> getMapData t part = Some mp -> 0 <= getBlock mp DT_NONE.

(** The tile at [p] has a floor part. *)
Definition hasFloor (s : SavedBattleGame) (p : Position) : bool :=
  match tileAt s (getTile s p) with
  | Some t => bool_decide (is_Some (getMapData t O_FLOOR))
  | None => false
  end.

(** Some level above [p], in its column, has a floor. *)
Definition floorAbove (s : SavedBattleGame) (p : Position) : bool :=
  existsb (fun z => hasFloor s (mkPosition (px p) (py p) z))
          (zrange (pz p + 1) (sv_height s - 1)).

(** ** Reading tiles *)

(** The light of layer [layer] on the tile at [p]. *)
Definition lightAt (s : SavedBattleGame) (p : Position) (layer : Z) : option Z :=
  (fun t => t_light t layer) <$> tileAt s (getTile s p).

(** The light of layer [layer] on the tile behind pointer [j]. *)
Definition lightOn (layer : Z) (s : SavedBattleGame) (j : nat) : option Z :=
  (fun t => t_light t layer) <$> sv_tiles s !! j.

(** The lookup of position [p] yields the tile behind pointer [j]. *)
Definition hits (s : SavedBattleGame) (j : nat) (p : Position) : bool :=
  match getTile s p with
  | Some i => Nat.eqb i j
  | None => false
  end.

(** Tile [i] exists and its flag [f] is set. *)
Definition tileHas (f : Tile -> bool) (i : nat) (s : SavedBattleGame) : Prop :=
  f <$> sv_tiles s !! i = Some true.

(** The tile method [g] never lowers the flag [f]. *)
Definition raises (f : Tile -> bool) (g : Tile -> Tile) : Prop :=
  forall t, f t = true -> f (g t) = true.

(** ** Properties of calls of the engine *)

(** [m] keeps the property [P] of the saved game, whether it returns or
    stops at a fault. *)
Definition preserves {E A} (P : SavedBattleGame -> Prop) (m : M E A) : Prop :=
  forall st, P (_save st) -> P (_save (final (m st))).

(** [m] adds nothing to the call log. *)
Definition silent {E A} (m : M E A) : Prop :=
  forall st, st_log (final (m st)) = st_log st.

(** From a state that satisfies [P], [m] returns, with a value and a state
    that satisfy [Q]. *)
Definition total {E A} (P : State E -> Prop) (m : M E A) (Q : A -> State E -> Prop) : Prop :=
  forall st, P st -> exists a st', m st = Done a st' /\ Q a st'.

(** The saved game after the prologue of [calculateFOV] for unit [unitp],
    which is [u]. *)
Definition prologueSave (unitp : nat) (u : BattleUnit) (s : SavedBattleGame)
  : SavedBattleGame :=
  let s1 := if factionEqb (u_faction u) FACTION_PLAYER
            then onTileAt (u_position u) (Tile_setDiscovered true) s else s in
  let s2 := onUnit unitp clearVisibleUnits s1 in
  fold_left (fun s i => onTile i (Tile_setChecked false) s) (seq 0 (tileCount s2)) s2.

(** One ray of the sweep of [calculateFOV]: the body of its inner loop, for
    the elevation [fi] and the bearing [te]. *)
Definition fovCast (E : Externals) (unitp : nat) (unitPos : Position) (fi te : Z)
  : M E unit :=
  let* u := readUnit unitp in
  let* s := getSave in
  fovRay E 20 unitp unitPos fi te 0 20 (getTile s (u_position u)).

(** One elevation of the sweep of [calculateFOV]: the body of its outer
    loop, the rays of every bearing of the unit's cone. *)
Definition fovFan (E : Externals) (unitp : nat) (unitPos : Position) (fi : Z) : M E unit :=
  let* u := readUnit unitp in
  match startAngle !! Z.to_nat (u_direction u), endAngle !! Z.to_nat (u_direction u) with
  | Some lo, Some hi =>
      if u_direction u <? 0 then crash BadIndex
      else forEach (degrees lo hi 3) (fovCast E unitp unitPos fi)
  | _, _ => crash BadIndex
  end.

(** What the rays of a high-explosive [explode] maintain: the shape of the
    grid, valid unit pointers, and a call log that has grown, from [log0],
    by calls other than [detonate] only. *)
Definition rayInvariant (E : Externals) (log0 : list Event) (nTiles count : nat)
           (st : State E) : Prop :=
  length (sv_tiles (_save st)) = nTiles
  /\ tileCount (_save st) = count
  /\ occupantsOk (_save st)
  /\ exists evs, st_log st = log0 ++ evs /\ Forall (fun e => isDetonate e = false) evs.

(** [t'] is [t] up to the deferred damage that [setExplosive] records. *)
Definition sameButExplosive (t t' : Tile) : Prop :=
  t' = Tile_setExplosive (t_explosive t') t.

(** [s'] is [s] up to its units and the deferred damage recorded on its
    tiles. *)
Definition blastChange (s s' : SavedBattleGame) : Prop :=
  sv_width s' = sv_width s /\ sv_length s' = sv_length s /\ sv_height s' = sv_height s
  /\ sv_globalShade s' = sv_globalShade s /\ sv_side s' = sv_side s
  /\ Forall2 sameButExplosive (sv_tiles s) (sv_tiles s').

(** The event is an [ignite] call. *)
Definition isIgnite (e : Event) : bool :=
  match e with EvIgnite _ => true | _ => false end.

(** What the ignition attempts of one burning tile maintain: the number of
    tiles, and a call log that has grown, from [log0], by [ignite] calls
    only. *)
Definition fireInvariant (E : Externals) (log0 : list Event) (nTiles : nat)
           (st : State E) : Prop :=
  length (sv_tiles (_save st)) = nTiles
  /\ exists evs, st_log st = log0 ++ evs /\ Forall (fun e => isIgnite e = true) evs.

(** The gates of one ignition attempt of burning tile [i] on tile [t] (whose
    record is [tl]) from state [st]: not on fire, nothing in the way,
    flammability below 255, the folded normal draw above the flammability,
    and the uniform draw below 2.  The two draws are the next two of the
    random source. *)
Definition ignitionGates (E : Externals) (st : State E) (i t : nat) (tl : Tile) : bool :=
  let flam := t_flammability tl in
  let base := fst (rng_boxMuller E 0 126 (st_rng st)) in
  let r := fst (rng_generate E 0 flam (snd (rng_boxMuller E 0 126 (st_rng st)))) in
  (t_fire tl =? 0)
  && (hBlock E (_save st) (Some i) (Some t) DT_IN =? 0)
  && (flam <? 255)
  && intLtDouble flam (Qabs_double base)
  && (r <? 2).

(** The calls of the fire loop of [prepareNewTurn] over the burning tiles
    [burning]: for each tile its ignitions [segs], then its own
    [prepareNewTurn]. *)
Definition fireCalls (burning : list nat) (segs : list (list Event)) : list Event :=
  concat (zip_with (fun i evs => evs ++ [EvPrepareNewTurn i]) burning segs).

(** ** The fire pass of [prepareNewTurn], step by step *)

(** The 3 x 3 block of positions around [p] on the level of [p], in the
    order of the two neighbour loops of [prepareNewTurn]; [p] itself is the
    fifth. *)
Definition blockPositions (p : Position) : list Position :=
  flat_map (fun x => map (fun y => mkPosition x y (pz p)) (zrange (py p - 1) (py p + 1)))
           (zrange (px p - 1) (px p + 1)).

(** Specification of one ignition attempt of burning tile [i] on the tile
    [t], whose record is [tl]: the tile is ignited exactly when all the
    gates pass.  The normal draw is made when the tile is not on fire, not
    blocked and not fireproof, the uniform draw when the normal draw
    exceeds the flammability as well. *)
Definition attemptOutcome (E : Externals) (st : State E) (i t : nat) (tl : Tile) : State E :=
  let flam := t_flammability tl in
  let normal := rng_boxMuller E 0 126 (st_rng st) in
  let uniform := rng_generate E 0 flam (snd normal) in
  let tried := (t_fire tl =? 0) && (hBlock E (_save st) (Some i) (Some t) DT_IN =? 0)
               && (flam <? 255) in
  let passed := ignitionGates E st i t tl in
  mkState (if passed then onTile t (tile_ignite E) (_save st) else _save st)
          (_voxelData st)
          (if tried
           then if intLtDouble flam (Qabs_double (fst normal)) then snd uniform else snd normal
           else st_rng st)
          (st_log st ++ if passed then [EvIgnite t] else []).

(** One attempt on the position [pos]: nothing where there is no tile. *)
Definition attemptStep (E : Externals) (i : nat) (pos : Position) (st : State E) : State E :=
  match getTile (_save st) pos with
  | Some t =>
      match sv_tiles (_save st) !! t with
      | Some tl => attemptOutcome E st i t tl
      | None => st
      end
  | None => st
  end.

(** Specification of the turn of one burning tile [i]: the attempts on the
    block around it, then its own [Tile::prepareNewTurn]. *)
Definition fireStep (E : Externals) (i : nat) (st : State E) : State E :=
  match sv_tiles (_save st) !! i with
  | Some ti =>
      let st1 := fold_left (fun st pos => attemptStep E i pos st)
                           (blockPositions (t_position ti)) st in
      mkState (onTile i (tile_prepareNewTurn E) (_save st1)) (_voxelData st1) (st_rng st1)
              (st_log st1 ++ [EvPrepareNewTurn i])
  | None => st
  end.

(** Specification of a whole [prepareNewTurn], as the state it leaves: the
    smoking tiles advance, then each tile that was burning takes its
    [fireStep], in array order, and the terrain lighting is redone if any
    tile was burning. *)
Definition newTurnState (E : Externals) (st : State E) : State E :=
  let burning := tilesWhere (fun t => 0 <? t_fire t) (_save st) in
  let smoking := tilesWhere (fun t => 0 <? t_smoke t) (_save st) in
  let st1 := mkState (fold_left (fun s i => onTile i (tile_prepareNewTurn E) s) smoking
                                (_save st))
                     (_voxelData st) (st_rng st)
                     (st_log st ++ map EvPrepareNewTurn smoking) in
  let st2 := fold_left (fun st i => fireStep E i st) burning st1 in
  if bool_decide (0 < length burning)%nat
  then mkState (calculateTerrainLighting_save E (_save st2)) (_voxelData st2) (st_rng st2)
               (st_log st2)
  else st2.

(** ** The calls of [addLight] *)

(** The calls [addLight] makes on [Tile::addLight], as (position, amount)
    pairs in the order of the loop; a call on a position outside the map is
    skipped by the null test. *)
Definition lightTargets_cell (center : Position) (power : Z) (x y z : Z)
  : list (Position * Z) :=
  let a := power - lightDistance x y in
  [ (mkPosition (px center + x) (py center + y) z, a);
    (mkPosition (px center - x) (py center - y) z, a);
    (mkPosition (px center - x) (py center + y) z, a);
    (mkPosition (px center + x) (py center - y) z, a) ].

(** All calls of one [addLight] on a map of [height] levels. *)
Definition lightTargets (center : Position) (power height : Z) : list (Position * Z) :=
  flat_map (fun x =>
    flat_map (fun y =>
      flat_map (fun z => lightTargets_cell center power x y z) (zrange 0 (height - 1)))
      (zrange 0 power))
    (zrange 0 power).

(** One call: [Tile::addLight] on the tile at the position, if any. *)
Definition applyLight (layer : Z) (s : SavedBattleGame) (pa : Position * Z)
  : SavedBattleGame :=
  onTileAt (fst pa) (Tile_addLight (snd pa) layer) s.

(** How many of the four mirrored positions of a quadrant cell fall on the
    tile at offset [(dx, dy)]. *)
Definition overlap (dx dy : Z) : Z :=
  (if dx =? 0 then 2 else 1) * (if dy =? 0 then 2 else 1).

(** The sum of [f] over a list. *)
Definition zsum {X} (f : X -> Z) (l : list X) : Z :=
  fold_right (fun x acc => f x + acc) 0 l.

(** ** Frames, call counts and lines *)

(** The blockage of a floor: 15 against explosives, 255 against everything
    else. *)
Definition floorBlock (type : ItemDamageType) : Z :=
  match type with DT_HE => 15 | _ => 255 end.

(** The number of levels from [lo] to [hi] on which column [(x, y)] has a
    floor. *)
Definition floorsBetween (s : SavedBattleGame) (x y lo hi : Z) : Z :=
  zsum (fun z => if hasFloor s (mkPosition x y z) then 1 else 0) (zrange lo hi).

(** [t'] is [t] with another light field, in which only layer [layer] may
    differ. *)
Definition sameButLight (layer : Z) (t t' : Tile) : Prop :=
  t' = Tile_setLightField (t_light t') t /\ forall l, l <> layer -> t_light t' l = t_light t l.

(** [s'] is [s] up to the light of layer [layer] of its tiles. *)
Definition lightOnlyChange (layer : Z) (s s' : SavedBattleGame) : Prop :=
  s' = setTiles (sv_tiles s') s /\ Forall2 (sameButLight layer) (sv_tiles s) (sv_tiles s').

(** One call of [Tile::addLight], over the accumulator [accumulate], on the
    tile at the position, if any. *)
Definition applyLight_by (accumulate : Z -> Z -> Z) (layer : Z) (s : SavedBattleGame)
           (pa : Position * Z) : SavedBattleGame :=
  onTileAt (fst pa) (Tile_addLight_by accumulate (snd pa) layer) s.

(** The value of a layer that held [old] after [Tile::addLight] was called
    with each of [amounts], in order. *)
Definition accumulated (accumulate : Z -> Z -> Z) (amounts : list Z) (old : Z) : Z :=
  fold_left accumulate amounts old.

(** The calls of one [addLight] that reach the tile at offset [(dx, dy)]
    from the centre: [overlap dx dy] calls with the falloff value, within
    the square of half-width [power]; none outside it. *)
Definition lightCalls (power dx dy : Z) : list Z :=
  if (Z.abs dx <=? power) && (Z.abs dy <=? power)
  then repeat (power - lightDistance (Z.abs dx) (Z.abs dy)) (Z.to_nat (overlap dx dy))
  else [].

(** Unit [k] stands on tile [c]. *)
Definition standsOn (k c : nat) (s : SavedBattleGame) : Prop :=
  t_unit <$> sv_tiles s !! c = Some (Some k).

(** The number of voxels on the line from [origin] to [target], the target
    left out: the largest of the three coordinate differences. *)
Definition lineLength (origin target : Position) : Z :=
  Z.max (Z.max (Z.abs (px target - px origin)) (Z.abs (py target - py origin)))
        (Z.abs (pz target - pz origin)).

(** [c] lies in the box spanned by [a] and [b]. *)
Definition inBox (a b c : Position) : Prop :=
  Z.min (px a) (px b) <= px c <= Z.max (px a) (px b)
  /\ Z.min (py a) (py b) <= py c <= Z.max (py a) (py b)
  /\ Z.min (pz a) (pz b) <= pz c <= Z.max (pz a) (pz b).

(** The voxel that [calculateLine] tests for the loop variables [x], [y], [z]:
    the copy with the two swaps undone, in reverse. *)
Definition lineVoxel (swap_xy swap_xz : bool) (x y z : Z) : Position :=
  let '(cx, cy, cz) := (x, y, z) in
  let '(cx, cz) := if swap_xz then (cz, cx) else (cx, cz) in
  let '(cx, cy) := if swap_xy then (cy, cx) else (cx, cy) in
  mkPosition cx cy cz.

(** [t'] is [t] up to its [discovered] and [checked] flags. *)
Definition sameButFlags (t t' : Tile) : Prop :=
  t' = Tile_setDiscovered (t_discovered t') (Tile_setChecked (t_checked t') t).

(** [u'] is [u] up to its set of visible units. *)
Definition sameButVisible (u u' : BattleUnit) : Prop :=
  u' = mkBattleUnit (u_position u) (u_direction u) (u_faction u) (u_kneeled u) (u_out u)
                    (u_standHeight u) (u_kneelHeight u) (u_loftemps u) (u_visibleUnits u').

(** [s'] is [s] up to the [discovered] and [checked] flags of its tiles and
    the visible sets of its units. *)
Definition fovChange (s s' : SavedBattleGame) : Prop :=
  sv_width s' = sv_width s /\ sv_length s' = sv_length s /\ sv_height s' = sv_height s
  /\ sv_globalShade s' = sv_globalShade s /\ sv_side s' = sv_side s
  /\ Forall2 sameButFlags (sv_tiles s) (sv_tiles s')
  /\ Forall2 sameButVisible (sv_units s) (sv_units s').

(** The unit behind [unitp], if there is one, is of the player faction
    exactly when [b] says so. *)
Definition playerIs (b : bool) (unitp : nat) (s : SavedBattleGame) : Prop :=
  forall u, sv_units s !! unitp = Some u -> factionEqb (u_faction u) FACTION_PLAYER = b.

(** A unit of faction [f] takes a unit of faction [fb] for a target: neither
    of the two faction tests of [checkForVisibleUnits] turns it away. *)
Definition targets (f fb : UnitFaction) : bool :=
  negb (factionEqb f FACTION_PLAYER
        && (factionEqb fb FACTION_PLAYER || factionEqb fb FACTION_NEUTRAL))
  && negb (factionEqb f FACTION_HOSTILE && factionEqb fb FACTION_HOSTILE).

(** Every unit in the visible set of the unit behind [unitp] is a unit of
    [s0] that is not out and that a unit of faction [f] takes for a target. *)
Definition seesTargets (s0 : SavedBattleGame) (f : UnitFaction) (unitp : nat)
           (s : SavedBattleGame) : Prop :=
  forall u, sv_units s !! unitp = Some u ->
            Forall (fun bu => exists b, sv_units s0 !! bu = Some b /\ u_out b = false
                                        /\ targets f (u_faction b) = true)
                   (u_visibleUnits u).

(** The number of [prepareNewTurn] calls on tile [i] in a call log. *)
Definition turnCalls (i : nat) (evs : list Event) : nat :=
  length (List.filter (fun e => match e with
                                | EvPrepareNewTurn j => Nat.eqb j i
                                | _ => false
                                end) evs).

(** The event is an [addSmoke] call. *)
Definition isAddSmoke (e : Event) : bool :=
  match e with EvAddSmoke _ _ => true | _ => false end.

(** Every call that [m] adds to the call log satisfies [ok]. *)
Definition logsOnly {E A} (ok : Event -> bool) (m : M E A) : Prop :=
  forall st, exists evs,
      st_log (final (m st)) = st_log st ++ evs /\ Forall (fun e => ok e = true) evs.

(** The number of [damage] calls on unit [k] in a call log. *)
Definition damageCalls (k : nat) (evs : list Event) : nat :=
  length (List.filter (fun e => match e with
                                | EvUnitDamage j _ _ => Nat.eqb j k
                                | _ => false
                                end) evs).

(** ** Concrete tiles, units and collaborators *)

(** A tile with nothing on it, fully lit. *)
Definition bareTile (p : Position) : Tile :=
  mkTile p (fun _ => None) (fun _ => false) (fun _ => 0) 0 0 0 None false false 0 0 0.

(** A piece of terrain that blocks sight and fills its whole voxel column
    with loft shape [loft]. *)
Definition solidPart (loft : Z) : MapData :=
  mkMapData (setBlockValue 0 1 0 0 0 0) false false 0 0 (fun _ => loft).

(** A mechanical door as a north wall. *)
Definition ufoDoor : MapData :=
  mkMapData (setBlockValue 0 1 0 0 0 0) true false 0 0 (fun _ => 0).

(** [t] with [mp] as its part [part]. *)
Definition withPart (part : TilePart) (mp : MapData) (t : Tile) : Tile :=
  mkTile (t_position t)
         (fun q => if partEqb q part then Some mp else t_objects t q)
         (t_ufoDoorOpen t) (t_light t) (t_fire t) (t_smoke t) (t_explosive t)
         (t_unit t) (t_discovered t) (t_checked t) (t_shade t) (t_terrainLevel t)
         (t_flammability t).

(** [t] with unit [k] standing on it. *)
Definition withUnit (k : nat) (t : Tile) : Tile :=
  mkTile (t_position t) (t_objects t) (t_ufoDoorOpen t) (t_light t) (t_fire t) (t_smoke t)
         (t_explosive t) (Some k) (t_discovered t) (t_checked t) (t_shade t)
         (t_terrainLevel t) (t_flammability t).

(** [t] burning for [n] more turns. *)
Definition withFire (n : Z) (t : Tile) : Tile :=
  mkTile (t_position t) (t_objects t) (t_ufoDoorOpen t) (t_light t) n (t_smoke t)
         (t_explosive t) (t_unit t) (t_discovered t) (t_checked t) (t_shade t)
         (t_terrainLevel t) (t_flammability t).

(** [t] smoking for [n] more turns. *)
Definition withSmoke (n : Z) (t : Tile) : Tile :=
  mkTile (t_position t) (t_objects t) (t_ufoDoorOpen t) (t_light t) (t_fire t) n
         (t_explosive t) (t_unit t) (t_discovered t) (t_checked t) (t_shade t)
         (t_terrainLevel t) (t_flammability t).

(** [t] with flammability [n]. *)
Definition withFlammability (n : Z) (t : Tile) : Tile :=
  mkTile (t_position t) (t_objects t) (t_ufoDoorOpen t) (t_light t) (t_fire t) (t_smoke t)
         (t_explosive t) (t_unit t) (t_discovered t) (t_checked t) (t_shade t)
         (t_terrainLevel t) n.

(** A standing player unit at [p], facing [direction]. *)
Definition soldier (p : Position) (direction : Z) : BattleUnit :=
  mkBattleUnit p direction FACTION_PLAYER false false 22 14 0 [].

(** The positions of a [w] x [l] x [h] grid in array order. *)
Definition gridPositions (w l h : Z) : list Position :=
  flat_map (fun z => flat_map (fun y => map (fun x => mkPosition x y z) (zrange 0 (w - 1)))
                              (zrange 0 (l - 1)))
           (zrange 0 (h - 1)).

(** An empty battlescape of the given size, at global shade [shade]. *)
Definition bareSave (w l h shade : Z) : SavedBattleGame :=
  mkSave w l h (map bareTile (gridPositions w l h)) [] shade FACTION_PLAYER.

(** The empty battlescape with the value [light] on every layer of every
    tile. *)
Definition litSave (w l h light : Z) : SavedBattleGame :=
  mkSave w l h (map (fun p => Tile_setLightField (fun _ => light) (bareTile p))
                    (gridPositions w l h))
         [] 0 FACTION_PLAYER.

(** A position outside every map. *)
Definition offMap : Position := mkPosition (-1) (-1) (-1).

(** A ray table that is exact on the horizontal axis rays, where the cosine
    and sine are 0, 1 or -1 up to a rounding far below half a tile, and
    sends every other ray off the map at once. *)
Definition axisStep (p : Position) (te l : Z) : Position :=
  if te mod 360 =? 0 then mkPosition (px p + l) (py p) (pz p)
  else if te mod 360 =? 90 then mkPosition (px p) (py p + l) (pz p)
  else if te mod 360 =? 180 then mkPosition (px p - l) (py p) (pz p)
  else if te mod 360 =? 270 then mkPosition (px p) (py p - l) (pz p)
  else offMap.

(** The axis ray table for [calculateFOV]: level rays only. *)
Definition axisFovRay (pos : Position) (fi te l : Z) : Position :=
  if fi =? 0 then axisStep pos te l else offMap.

(** The axis ray table for [explode], from the tile of the centre voxel. *)
Definition axisBlastRay (center : Position) (te l : Z) : Position :=
  axisStep (voxelTile center) te l.

(** A door that follows the four answers of the specification: no door
    (-1), normal door opened (0), mechanical door starting to open (1),
    mechanical door still opening (3). *)
Definition plainDoor (part : TilePart) (t : Tile) : Z * Tile :=
  match getMapData t part with
  | None => (-1, t)
  | Some mp =>
      if isUFODoor mp then
        if t_ufoDoorOpen t part then (3, t)
        else (1, mkTile (t_position t) (t_objects t)
                        (fun q => if partEqb q part then true else t_ufoDoorOpen t q)
                        (t_light t) (t_fire t) (t_smoke t) (t_explosive t) (t_unit t)
                        (t_discovered t) (t_checked t) (t_shade t) (t_terrainLevel t)
                        (t_flammability t))
      else if isDoor mp then (0, t)
      else (-1, t)
  end.

(** Collaborators for the closed examples: a random source that always
    draws the lower bound (and [sample] for the normal draw), the axis ray
    table, and tile and unit methods that leave their object as it is. *)
Definition plainExternals (sample : Q) : Externals :=
  mkExternals 0 0 unit
              (fun lo _ g => (lo, g)) (fun lo _ g => (lo, g)) (fun _ _ g => (sample, g))
              axisFovRay axisBlastRay
              (fun t => t) (fun t => t) (fun _ t => t) (fun t => t) (fun _ _ t => t)
              plainDoor (fun _ t => t) (fun _ t => t) (fun _ _ u => u).

(** The engine on saved game [s]: no voxel data, an empty call log. *)
Definition startState (E : Externals) (g : RNG E) (s : SavedBattleGame) : State E :=
  mkState s [] g [].

(** ** Concrete battlescapes *)

(** A 1 x 2 x 3 grid whose tile (0,0,0) carries a sight-blocking north wall. *)
Definition wallSave : SavedBattleGame :=
  onTile 0 (withPart O_NORTHWALL (solidPart 0)) (bareSave 1 2 3 0).

(** A 1 x 1 x 2 grid in full daylight whose upper tile has a floor. *)
Definition roofedSave : SavedBattleGame :=
  onTile 1 (withPart O_FLOOR (solidPart 0)) (bareSave 1 1 2 0).

(** A soldier at (0,0,0) of a 2 x 1 x 1 corridor, facing north-east (his
    cone runs from the x axis to the y axis). *)
Definition corridor : SavedBattleGame :=
  setUnits [soldier (mkPosition 0 0 0) 1] (onTile 0 (withUnit 0) (bareSave 2 1 1 0)).

(** The engine on the corridor. *)
Definition corridorState : State (plainExternals 0) := startState (plainExternals 0) tt corridor.

(** A 2 x 1 x 1 grid: tile (0,0,0) burns (and does not smoke), tile (1,0,0)
    is as flammable as can be (0). *)
Definition fireSave : SavedBattleGame := onTile 0 (withFire 1) (bareSave 2 1 1 0).

(** The same with a fireproof neighbour (flammability 255). *)
Definition fireproofSave : SavedBattleGame := onTile 1 (withFlammability 255) fireSave.

(** [fireSave] with smoke on the burning tile as well. *)
Definition smokyFireSave : SavedBattleGame := onTile 0 (withSmoke 1) fireSave.

(** A 1 x 1 x 1 map: a soldier facing north, in front of a closed mechanical
    door. *)
Definition doorSave : SavedBattleGame :=
  setUnits [soldier (mkPosition 0 0 0) 0]
           (onTile 0 (fun t => withUnit 0 (withPart O_NORTHWALL ufoDoor t)) (bareSave 1 1 1 0)).

(** A standing hostile unit at [p], facing [direction]. *)
Definition alien (p : Position) (direction : Z) : BattleUnit :=
  mkBattleUnit p direction FACTION_HOSTILE false false 20 12 0 [].

(** The corridor with an alien in the soldier's place. *)
Definition alienSave : SavedBattleGame :=
  setUnits [alien (mkPosition 0 0 0) 1] (onTile 0 (withUnit 0) (bareSave 2 1 1 0)).

(** A soldier on the only tile of a 1 x 1 x 1 map, facing east. *)
Definition edgeSave : SavedBattleGame :=
  setUnits [soldier (mkPosition 0 0 0) 2] (onTile 0 (withUnit 0) (bareSave 1 1 1 0)).

(** A ray table for [explode] that is exact where every ray starts, at
    [l = 0], and on the axis rays. *)
Definition centredBlastRay (center : Position) (te l : Z) : Position :=
  if l =? 0 then voxelTile center else axisStep (voxelTile center) te l.

(** The plain collaborators with that ray table. *)
Definition centredExternals : Externals :=
  mkExternals 0 0 unit
              (fun lo _ g => (lo, g)) (fun lo _ g => (lo, g)) (fun _ _ g => (0%Q, g))
              axisFovRay centredBlastRay
              (fun t => t) (fun t => t) (fun _ t => t) (fun t => t) (fun _ _ t => t)
              plainDoor (fun _ t => t) (fun _ t => t) (fun _ _ u => u).

(** A soldier at (0,0,0) who still holds himself in his visible set. *)
Definition sentry : BattleUnit := addToVisibleUnits 0 (soldier (mkPosition 0 0 0) 1).

(** The corridor with the sentry on its first tile and an alien on the
    second. *)
Definition watchSave : SavedBattleGame :=
  setUnits [sentry; alien (mkPosition 1 0 0) 5]
           (onTile 1 (withUnit 1) (onTile 0 (withUnit 0) (bareSave 2 1 1 0))).

(** The engine on [watchSave], with one empty loft shape as voxel data. *)
Definition watchState : State (plainExternals 0) :=
  @mkState (plainExternals 0) watchSave (repeat 0 16) tt [].

(** The engine on the corridor, with one full loft shape as voxel data. *)
Definition solidState : State (plainExternals 0) :=
  @mkState (plainExternals 0) corridor (repeat 65535 16) tt [].

(** A 2 x 1 x 1 grid with smoke on its second tile and no fire. *)
Definition smokeSave : SavedBattleGame := onTile 1 (withSmoke 1) (bareSave 2 1 1 0).

(** * Properties *)

(** ** The grid *)

Lemma inBounds_spec s p :
  inBounds s p = true <->
  0 <= px p < sv_width s /\ 0 <= py p < sv_length s /\ 0 <= pz p < sv_height s.
Proof.
  unfold inBounds. rewrite !andb_true_iff, !Z.leb_le, !Z.ltb_lt. tauto.
Qed.

Lemma getTile_Some s p i :
  getTile s p = Some i ->
  inBounds s p = true /\ i = Z.to_nat (getTileIndex s p) /\ (i < length (sv_tiles s))%nat.
Proof.
  unfold getTile. destruct (inBounds s p); [| discriminate].
  case_bool_decide; [| discriminate]. intros [= <-]. auto.
Qed.

Lemma getTileIndex_nonneg s p : inBounds s p = true -> 0 <= getTileIndex s p.
Proof.
  rewrite inBounds_spec. unfold getTileIndex. intros (Hx & Hy & Hz).
  assert (0 <= pz p * sv_length s) by (apply Z.mul_nonneg_nonneg; lia).
  assert (0 <= (pz p * sv_length s + py p) * sv_width s) by (apply Z.mul_nonneg_nonneg; lia).
  lia.
Qed.

Lemma getTileIndex_inj s p q :
  inBounds s p = true -> inBounds s q = true ->
  getTileIndex s p = getTileIndex s q -> p = q.
Proof.
  rewrite !inBounds_spec. unfold getTileIndex.
  destruct p as [x y z], q as [x' y' z']; simpl.
  set (W := sv_width s). set (L := sv_length s).
  intros (Hx & Hy & Hz) (Hx' & Hy' & Hz') Heq.
  assert (x = ((z * L + y) * W + x) mod W) as Hx1
    by (apply Z.mod_unique_pos with (q := z * L + y); lia).
  assert (x' = ((z' * L + y') * W + x') mod W) as Hx2
    by (apply Z.mod_unique_pos with (q := z' * L + y'); lia).
  assert (z * L + y = ((z * L + y) * W + x) / W) as Hr1
    by (apply Z.div_unique_pos with (r := x); lia).
  assert (z' * L + y' = ((z' * L + y') * W + x') / W) as Hr2
    by (apply Z.div_unique_pos with (r := x'); lia).
  rewrite Heq in Hx1, Hr1.
  assert (x = x') as -> by congruence.
  assert (z * L + y = z' * L + y') as Hrow by congruence.
  assert (y = (z * L + y) mod L) as Hy1
    by (apply Z.mod_unique_pos with (q := z); lia).
  assert (y' = (z' * L + y') mod L) as Hy2
    by (apply Z.mod_unique_pos with (q := z'); lia).
  assert (z = (z * L + y) / L) as Hz1
    by (apply Z.div_unique_pos with (r := y); lia).
  assert (z' = (z' * L + y') / L) as Hz2
    by (apply Z.div_unique_pos with (r := y'); lia).
  rewrite Hrow in Hy1, Hz1.
  assert (y = y') as -> by congruence.
  assert (z = z') as -> by congruence.
  reflexivity.
Qed.

Lemma getTile_inj s p q i : getTile s p = Some i -> getTile s q = Some i -> p = q.
Proof.
  intros Hp Hq. apply getTile_Some in Hp as (Bp & Hip & _), Hq as (Bq & Hiq & _).
  apply (getTileIndex_inj s); [assumption .. |].
  apply Z2Nat.inj; [apply getTileIndex_nonneg; assumption .. | congruence].
Qed.

Lemma getTile_in_grid s p :
  length (sv_tiles s) = tileCount s -> inBounds s p = true -> is_Some (getTile s p).
Proof.
  intros Hlen Hb. unfold getTile. rewrite Hb.
  case_bool_decide as Hlt; [eauto |]. exfalso. apply Hlt.
  rewrite Hlen. unfold tileCount.
  pose proof (getTileIndex_nonneg s p Hb).
  apply inBounds_spec in Hb as (Hx & Hy & Hz). unfold getTileIndex in *.
  set (W := sv_width s) in *. set (L := sv_length s) in *. set (Ht := sv_height s) in *.
  assert (pz p * L + py p + 1 <= Ht * L) as Hrow.
  { assert ((pz p + 1) * L <= Ht * L) by (apply Z.mul_le_mono_nonneg_r; lia). lia. }
  assert ((pz p * L + py p + 1) * W <= Ht * L * W) as Hall
    by (apply Z.mul_le_mono_nonneg_r; lia).
  apply Z2Nat.inj_lt; [lia | | lia].
  - assert (0 <= Ht * L) by (apply Z.mul_nonneg_nonneg; lia).
    assert (0 <= Ht * L * W) by (apply Z.mul_nonneg_nonneg; lia). lia.
Qed.

Lemma gridOk_position s p i t :
  gridOk s -> getTile s p = Some i -> sv_tiles s !! i = Some t -> t_position t = p.
Proof.
  intros [_ Hown] Hp Ht. apply (getTile_inj s _ _ i); [apply Hown |]; assumption.
Qed.

Lemma getTile_shape s s' p : sameShape s s' -> getTile s' p = getTile s p.
Proof.
  intros (Hw & Hl & Hh & Hn). unfold getTile, inBounds, getTileIndex.
  rewrite Hw, Hl, Hh, Hn. reflexivity.
Qed.

Lemma sameShape_onTile s s' i g : sameShape s s' -> sameShape s (onTile i g s').
Proof.
  intros (Hw & Hl & Hh & Hn). unfold sameShape, onTile. simpl. rewrite length_alter. auto.
Qed.

Lemma sameShape_refl s : sameShape s s.
Proof. repeat split. Qed.

Lemma Position_eqb_eq a b : Position_eqb a b = true <-> a = b.
Proof.
  destruct a as [ax ay az], b as [bx by_ bz]; unfold Position_eqb; simpl.
  rewrite !andb_true_iff, !Z.eqb_eq. split.
  - intros [[-> ->] ->]. reflexivity.
  - intros H. injection H as -> -> ->. auto.
Qed.

(** ** Reasoning about the engine monad *)

Section MonadFacts.
Variable E : Externals.
Variable P : SavedBattleGame -> Prop.

Lemma preserves_ret {A} (a : A) : preserves (E := E) P (ret a).
Proof. intros st H. exact H. Qed.

Lemma preserves_crash {A} f : preserves (E := E) P (crash (A := A) f).
Proof. intros st H. exact H. Qed.

Lemma preserves_bind {A B} (m : M E A) (k : A -> M E B) :
  preserves (E := E) P m -> (forall a, preserves (E := E) P (k a)) -> preserves (E := E) P (bind m k).
Proof.
  intros Hm Hk st H. unfold bind. specialize (Hm st H).
  destruct (m st) as [a st' | f st']; simpl in *; [apply Hk |]; assumption.
Qed.

Lemma preserves_forEach {X} (l : list X) (body : X -> M E unit) :
  (forall x, preserves (E := E) P (body x)) -> preserves (E := E) P (forEach l body).
Proof.
  intros Hb. induction l as [| x l IH]; simpl.
  - apply preserves_ret.
  - apply preserves_bind; [apply Hb | intros _; exact IH].
Qed.

Lemma preserves_getSave : preserves (E := E) P getSave.
Proof. intros st H. exact H. Qed.

Lemma preserves_getVoxelData : preserves (E := E) P getVoxelData.
Proof. intros st H. exact H. Qed.

Lemma preserves_readTile i : preserves (E := E) P (readTile i).
Proof. intros st H. unfold readTile. destruct (_ !! _); exact H. Qed.

Lemma preserves_readUnit k : preserves (E := E) P (readUnit k).
Proof. intros st H. unfold readUnit. destruct (_ !! _); exact H. Qed.

Lemma preserves_derefTile ptr : preserves (E := E) P (derefTile ptr).
Proof. intros st H. destruct ptr; exact H. Qed.

Lemma preserves_liftOutcome {A} (o : Outcome A) : preserves (E := E) P (liftOutcome o).
Proof. intros st H. destruct o; exact H. Qed.

Lemma preserves_emit e : preserves (E := E) P (emit e).
Proof. intros st H. exact H. Qed.

Lemma preserves_draw {A} (f : RNG E -> A * RNG E) : preserves (E := E) P (draw f).
Proof. intros st H. unfold draw. destruct (f (st_rng st)). exact H. Qed.

Lemma preserves_modifySave g : (forall s, P s -> P (g s)) -> preserves (E := E) P (modifySave g).
Proof. intros Hg st H. apply Hg. exact H. Qed.

Lemma bind_ext {A B} (m : M E A) (k1 k2 : A -> M E B) (st : State E) :
  (forall a st', m st = Done a st' -> k1 a st' = k2 a st') ->
  bind m k1 st = bind m k2 st.
Proof.
  intros H. unfold bind. destruct (m st) as [a st' | f st']; [apply H |]; reflexivity.
Qed.

Lemma final_bind_preserves {A B} (m : M E A) (k : A -> M E B) st :
  P (_save (final (m st))) -> (forall a, preserves P (k a)) ->
  P (_save (final (bind m k st))).
Proof.
  intros Hm Hk. unfold bind.
  destruct (m st) as [a st' | f st']; simpl in *; [apply Hk |]; exact Hm.
Qed.

End MonadFacts.

Ltac preserves_step :=
  lazymatch goal with
  | |- preserves _ (bind _ _) => apply preserves_bind; [| intros ?]
  | |- preserves _ (ret _) => apply preserves_ret
  | |- preserves _ (crash _) => apply preserves_crash
  | |- preserves _ getSave => apply preserves_getSave
  | |- preserves _ getVoxelData => apply preserves_getVoxelData
  | |- preserves _ (readTile _) => apply preserves_readTile
  | |- preserves _ (readUnit _) => apply preserves_readUnit
  | |- preserves _ (derefTile _) => apply preserves_derefTile
  | |- preserves _ (liftOutcome _) => apply preserves_liftOutcome
  | |- preserves _ (emit _) => apply preserves_emit
  | |- preserves _ (draw _) => apply preserves_draw
  | |- preserves _ (forEach _ _) => apply preserves_forEach; intros ?
  | |- preserves _ (if ?b then _ else _) => destruct b
  | |- preserves _ (match ?x with _ => _ end) => destruct x
  end.

Lemma tileHas_onTile f g i j s : raises f g -> tileHas f i s -> tileHas f i (onTile j g s).
Proof.
  unfold tileHas, onTile. simpl. intros Hg. rewrite list_lookup_alter.
  case_decide as Hij; [subst j | tauto].
  destruct (sv_tiles s !! i) as [t |]; simpl; [| discriminate].
  intros [= Hf]. rewrite (Hg t Hf). reflexivity.
Qed.

Lemma tileHas_onUnit f h i k s : tileHas f i s -> tileHas f i (onUnit k h s).
Proof. exact (fun H => H). Qed.

(** ** The call log *)

Section LogFacts.
Variable E : Externals.

Lemma silent_ret {A} (a : A) : silent (E := E) (ret a).
Proof. intros st. reflexivity. Qed.

Lemma silent_crash {A} f : silent (E := E) (crash (A := A) f).
Proof. intros st. reflexivity. Qed.

Lemma silent_bind {A B} (m : M E A) (k : A -> M E B) :
  silent m -> (forall a, silent (k a)) -> silent (bind m k).
Proof.
  intros Hm Hk st. unfold bind. specialize (Hm st).
  destruct (m st) as [a st' | f st']; simpl in *; [rewrite Hk |]; assumption.
Qed.

Lemma silent_forEach {X} (l : list X) (body : X -> M E unit) :
  (forall x, silent (body x)) -> silent (forEach l body).
Proof.
  intros Hb. induction l as [| x l IH]; simpl.
  - apply silent_ret.
  - apply silent_bind; [apply Hb | intros _; exact IH].
Qed.

Lemma silent_getSave : silent (E := E) getSave.
Proof. intros st. reflexivity. Qed.

Lemma silent_getVoxelData : silent (E := E) getVoxelData.
Proof. intros st. reflexivity. Qed.

Lemma silent_readTile i : silent (E := E) (readTile i).
Proof. intros st. unfold readTile. destruct (_ !! _); reflexivity. Qed.

Lemma silent_readUnit k : silent (E := E) (readUnit k).
Proof. intros st. unfold readUnit. destruct (_ !! _); reflexivity. Qed.

Lemma silent_derefTile ptr : silent (E := E) (derefTile ptr).
Proof. intros st. destruct ptr; reflexivity. Qed.

Lemma silent_liftOutcome {A} (o : Outcome A) : silent (E := E) (liftOutcome o).
Proof. intros st. destruct o; reflexivity. Qed.

Lemma silent_draw {A} (f : RNG E -> A * RNG E) : silent (draw f).
Proof. intros st. unfold draw. destruct (f (st_rng st)). reflexivity. Qed.

Lemma silent_modifySave g : silent (E := E) (modifySave g).
Proof. intros st. reflexivity. Qed.

End LogFacts.

Ltac silent_step :=
  lazymatch goal with
  | |- silent (bind _ _) => apply silent_bind; [| intros ?]
  | |- silent (ret _) => apply silent_ret
  | |- silent (crash _) => apply silent_crash
  | |- silent getSave => apply silent_getSave
  | |- silent getVoxelData => apply silent_getVoxelData
  | |- silent (readTile _) => apply silent_readTile
  | |- silent (readUnit _) => apply silent_readUnit
  | |- silent (derefTile _) => apply silent_derefTile
  | |- silent (liftOutcome _) => apply silent_liftOutcome
  | |- silent (draw _) => apply silent_draw
  | |- silent (modifySave _) => apply silent_modifySave
  | |- silent (forEach _ _) => apply silent_forEach; intros ?
  | |- silent (if ?b then _ else _) => destruct b
  | |- silent (match ?x with _ => _ end) => destruct x
  end.

Section SilentOperations.
Variable E : Externals.

Lemma checkForVisibleUnits_silent unitp tile : silent (checkForVisibleUnits E unitp tile).
Proof. unfold checkForVisibleUnits. repeat silent_step. Qed.

Lemma fovReveal_silent unitp dest tilePos : silent (fovReveal E unitp dest tilePos).
Proof.
  unfold fovReveal. repeat first [ apply checkForVisibleUnits_silent | silent_step ].
Qed.

Lemma fovRay_silent n unitp unitPos fi te l power_ origin :
  silent (fovRay E n unitp unitPos fi te l power_ origin).
Proof.
  revert l power_ origin. induction n as [| n IH]; intros l power_ origin; simpl.
  - apply silent_ret.
  - repeat first [ apply IH | apply fovReveal_silent | silent_step ].
Qed.

Lemma calculateFOV_silent unitp : silent (calculateFOV E unitp).
Proof.
  unfold calculateFOV, fovPrologue, fovSweep.
  repeat first [ apply fovRay_silent | silent_step ].
Qed.

Lemma calculateFOV_position_silent position : silent (calculateFOV_position E position).
Proof.
  unfold calculateFOV_position. repeat first [ apply calculateFOV_silent | silent_step ].
Qed.

Lemma calculateTerrainLighting_silent : silent (calculateTerrainLighting E).
Proof. apply silent_modifySave. Qed.

End SilentOperations.

(** A loop of outside tile calls runs to its end and logs one event per
    index, in order. *)
Lemma forEach_callTile {E} (l : list nat) (g : Tile -> Tile) (ev : nat -> Event)
      (st : State E) :
  forEach l (fun i => callTile E i g (ev i)) st =
  Done tt (mkState (fold_left (fun s i => onTile i g s) l (_save st))
                   (_voxelData st) (st_rng st) (st_log st ++ map ev l)).
Proof.
  revert st. induction l as [| i l IH]; intros st; simpl.
  - rewrite app_nil_r. destruct st; reflexivity.
  - unfold bind at 1. unfold callTile at 1, bind, modifySave, emit. rewrite IH. simpl.
    rewrite <- app_assoc. reflexivity.
Qed.

(** ** Calls that return *)

Section TotalFacts.
Variable E : Externals.

Lemma total_ret {A} (P : State E -> Prop) (a : A) (Q : A -> State E -> Prop) :
  (forall st, P st -> Q a st) -> total P (ret a) Q.
Proof. intros H st HP. exists a, st. split; [reflexivity | auto]. Qed.

Lemma total_bind {A B} (P : State E -> Prop) (R : A -> State E -> Prop)
      (Q : B -> State E -> Prop) (m : M E A) (k : A -> M E B) :
  total P m R -> (forall a, total (R a) (k a) Q) -> total P (bind m k) Q.
Proof.
  intros Hm Hk st HP. destruct (Hm st HP) as (a & st' & Hrun & HR).
  destruct (Hk a st' HR) as (b & st'' & Hrun' & HQ).
  exists b, st''. unfold bind. rewrite Hrun. auto.
Qed.

Lemma total_weaken {A} (P P' : State E -> Prop) (Q Q' : A -> State E -> Prop) (m : M E A) :
  total P' m Q' -> (forall st, P st -> P' st) -> (forall a st, Q' a st -> Q a st) ->
  total P m Q.
Proof.
  intros Hm HP HQ st H. destruct (Hm st (HP st H)) as (a & st' & Hrun & HQ').
  exists a, st'. auto.
Qed.

Lemma total_getSave (P : State E -> Prop) :
  total P getSave (fun s st => P st /\ s = _save st).
Proof. intros st HP. exists (_save st), st. auto. Qed.

Lemma total_readTile (P : State E -> Prop) i :
  (forall st, P st -> (i < length (sv_tiles (_save st)))%nat) ->
  total P (readTile i) (fun t st => P st /\ sv_tiles (_save st) !! i = Some t).
Proof.
  intros Hi st HP. destruct (lookup_lt_is_Some_2 _ _ (Hi st HP)) as [t Ht].
  exists t, st. unfold readTile. rewrite Ht. auto.
Qed.

Lemma total_readUnit (P : State E -> Prop) k :
  (forall st, P st -> (k < length (sv_units (_save st)))%nat) ->
  total P (readUnit k) (fun u st => P st /\ sv_units (_save st) !! k = Some u).
Proof.
  intros Hk st HP. destruct (lookup_lt_is_Some_2 _ _ (Hk st HP)) as [u Hu].
  exists u, st. unfold readUnit. rewrite Hu. auto.
Qed.

Lemma total_modifySave (P : State E -> Prop) (Q : unit -> State E -> Prop) g :
  (forall st, P st ->
              Q tt (mkState (g (_save st)) (_voxelData st) (st_rng st) (st_log st))) ->
  total P (modifySave g) Q.
Proof. intros H st HP. exists tt. eexists. split; [reflexivity | auto]. Qed.

Lemma total_emit (P : State E -> Prop) (Q : unit -> State E -> Prop) e :
  (forall st, P st ->
              Q tt (mkState (_save st) (_voxelData st) (st_rng st) (st_log st ++ [e]))) ->
  total P (emit e) Q.
Proof. intros H st HP. exists tt. eexists. split; [reflexivity | auto]. Qed.

Lemma total_draw {A} (P : State E -> Prop) (Q : A -> State E -> Prop)
      (f : RNG E -> A * RNG E) :
  (forall st, P st ->
              Q (fst (f (st_rng st)))
                (mkState (_save st) (_voxelData st) (snd (f (st_rng st))) (st_log st))) ->
  total P (draw f) Q.
Proof.
  intros H st HP. specialize (H st HP). unfold draw.
  destruct (f (st_rng st)) as [a g]. exists a. eexists. split; [reflexivity | exact H].
Qed.

Lemma total_forEach {X} (I : State E -> Prop) (l : list X) (body : X -> M E unit) :
  (forall x, In x l -> total I (body x) (fun _ => I)) ->
  total I (forEach l body) (fun _ => I).
Proof.
  induction l as [| x l IH]; intros Hb; simpl.
  - apply total_ret. auto.
  - apply total_bind with (R := fun _ => I).
    + apply Hb. left. reflexivity.
    + intros _. apply IH. intros y Hy. apply Hb. right. exact Hy.
Qed.

End TotalFacts.

Lemma occupantsOk_onTile s j g :
  (forall t, t_unit (g t) = t_unit t) -> occupantsOk s -> occupantsOk (onTile j g s).
Proof.
  intros Hg Hok i t k. unfold onTile. simpl. rewrite list_lookup_alter.
  case_decide as Hij.
  - subst j. destruct (sv_tiles s !! i) as [t0 |] eqn:Ht0; simpl; [| discriminate].
    intros [= <-]. rewrite Hg. apply (Hok i t0 k Ht0).
  - apply Hok.
Qed.

Lemma occupantsOk_onUnit s k h : occupantsOk s -> occupantsOk (onUnit k h s).
Proof.
  intros Hok i t k'. unfold onUnit. simpl. rewrite length_alter. apply Hok.
Qed.

(** ** C8: [vectorToDirection] *)

Section DirectionFacts.
Variables x8 y8 : Z.

Lemma vectorToDirection_chain v :
  vectorToDirection x8 y8 v =
  if (0 =? px v) && (1 =? py v) then 0
  else if (1 =? px v) && (1 =? py v) then 1
  else if (1 =? px v) && (0 =? py v) then 2
  else if (1 =? px v) && (-1 =? py v) then 3
  else if (0 =? px v) && (-1 =? py v) then 4
  else if (-1 =? px v) && (-1 =? py v) then 5
  else if (-1 =? px v) && (0 =? py v) then 6
  else if (-1 =? px v) && (1 =? py v) then 7
  else if (x8 =? px v) && (y8 =? py v) then 8
  else -1.
Proof. reflexivity. Qed.

Ltac split_eqbs :=
  repeat match goal with
         | |- context [?a =? ?b] => destruct (Z.eqb_spec a b); cbn [andb]
         end.

(** On the eight octant vectors the result is the octant, 0..7. *)
Lemma vectorToDirection_octant v :
  isOctant v = true -> 0 <= vectorToDirection x8 y8 v <= 7.
Proof.
  unfold isOctant. rewrite !andb_true_iff, negb_true_iff, andb_false_iff.
  rewrite !Z.leb_le, !Z.eqb_neq. intros [[Hx Hy] Hz].
  rewrite vectorToDirection_chain.
  assert (px v = -1 \/ px v = 0 \/ px v = 1) as Hpx by lia.
  assert (py v = -1 \/ py v = 0 \/ py v = 1) as Hpy by lia.
  destruct Hpx as [Ex | [Ex | Ex]], Hpy as [Ey | [Ey | Ey]]; rewrite Ex, Ey; simpl;
    lia.
Qed.

(** On every other vector the loop runs into its ninth iteration, and the
    result is 8 or -1 according to what it reads there. *)
Lemma vectorToDirection_other v :
  isOctant v = false ->
  vectorToDirection x8 y8 v = (if (x8 =? px v) && (y8 =? py v) then 8 else -1)
  /\ vectorToDirection_reads x8 y8 v = [0; 1; 2; 3; 4; 5; 6; 7; 8]%nat.
Proof.
  unfold isOctant. intros H.
  assert (~ (Z.abs (px v) <= 1 /\ Z.abs (py v) <= 1 /\ ~ (px v = 0 /\ py v = 0))) as Hn.
  { intros (Hx & Hy & Hz).
    apply not_true_iff_false in H. apply H.
    rewrite !andb_true_iff, negb_true_iff, andb_false_iff, !Z.leb_le, !Z.eqb_neq.
    split; [split; assumption |].
    destruct (Z.eq_dec (px v) 0); [right | left]; tauto. }
  split.
  - rewrite vectorToDirection_chain. split_eqbs; try reflexivity; exfalso; apply Hn; lia.
  - unfold vectorToDirection_reads, vectorToDirection_reads_from, readX, readY, dirX, dirY.
    simpl nth. split_eqbs; try reflexivity; exfalso; apply Hn; lia.
Qed.

End DirectionFacts.

(** C8 (the code departs from the claim).  For the zero vector the loop of
    [vectorToDirection] reads the table indices 0 to 8, although both tables
    have 8 entries, and it answers 8 rather than -1 when the two values it
    finds there are both zero. *)
Theorem vectorToDirection_reads_ninth_entry :
  forall x8 y8 : Z,
    vectorToDirection_reads x8 y8 (mkPosition 0 0 0) = [0; 1; 2; 3; 4; 5; 6; 7; 8]%nat
    /\ length dirX = 8%nat /\ length dirY = 8%nat
    /\ vectorToDirection x8 y8 (mkPosition 0 0 0) = (if (x8 =? 0) && (y8 =? 0) then 8 else -1).
Proof.
  intros x8 y8.
  destruct (vectorToDirection_other x8 y8 (mkPosition 0 0 0) eq_refl) as [Hv Hr].
  split; [exact Hr |]. split; [reflexivity |]. split; [reflexivity | exact Hv].
Qed.

(** X1.  On the eight octant vectors every table read of [vectorToDirection] is
    within the 8 entries, and the result is one of 0 to 7, the index of
    the vector in the two tables. *)
Lemma vectorToDirection_octant_reads x8 y8 v :
  isOctant v = true ->
  Forall (fun i => (i < 8)%nat) (vectorToDirection_reads x8 y8 v)
  /\ 0 <= vectorToDirection x8 y8 v <= 7
  /\ dirX !! Z.to_nat (vectorToDirection x8 y8 v) = Some (px v)
  /\ dirY !! Z.to_nat (vectorToDirection x8 y8 v) = Some (py v).
Proof.
  unfold isOctant. rewrite !andb_true_iff, negb_true_iff, andb_false_iff.
  rewrite !Z.leb_le, !Z.eqb_neq. intros [[Hx Hy] Hz].
  assert (px v = -1 \/ px v = 0 \/ px v = 1) as Hpx by lia.
  assert (py v = -1 \/ py v = 0 \/ py v = 1) as Hpy by lia.
  unfold vectorToDirection_reads, vectorToDirection.
  destruct Hpx as [Ex | [Ex | Ex]], Hpy as [Ey | [Ey | Ey]];
    try (exfalso; lia);
    cbn [vectorToDirection_reads_from vectorToDirection_from];
    unfold readX, readY; rewrite Ex, Ey; simpl;
    (split; [repeat constructor; lia | split; [lia | split; reflexivity]]).
Qed.

(** ** C5: [horizontalBlockage] *)

Section BlockageFacts.
Variables x8 y8 : Z.

Lemma horizontalBlockage_direction s i j st en type :
  sv_tiles s !! i = Some st -> sv_tiles s !! j = Some en ->
  forall d, vectorToDirection x8 y8 (Position_sub (t_position en) (t_position st)) = d ->
  horizontalBlockage x8 y8 s (Some i) (Some j) type =
  if d =? -1 then 0
  else if d =? 0 then blockage (Some st) O_NORTHWALL type
  else if d =? 1 then
    Z.quot (blockage (Some st) O_NORTHWALL type + blockage (Some en) O_WESTWALL type) 2
    + Z.quot (blockage (neighbour s st 1 0) O_WESTWALL type
              + blockage (neighbour s st 1 0) O_NORTHWALL type) 2
  else if d =? 2 then blockage (Some en) O_WESTWALL type
  else if d =? 3 then
    Z.quot (blockage (Some en) O_WESTWALL type + blockage (Some en) O_NORTHWALL type) 2
    + Z.quot (blockage (neighbour s st 1 0) O_WESTWALL type
              + blockage (neighbour s st 0 (-1)) O_NORTHWALL type) 2
  else if d =? 4 then blockage (Some en) O_NORTHWALL type
  else if d =? 5 then
    Z.quot (blockage (Some en) O_NORTHWALL type + blockage (Some st) O_WESTWALL type) 2
    + Z.quot (blockage (neighbour s st 0 (-1)) O_WESTWALL type
              + blockage (neighbour s st 0 (-1)) O_NORTHWALL type) 2
  else if d =? 6 then blockage (Some st) O_WESTWALL type
  else if d =? 7 then
    Z.quot (blockage (Some st) O_WESTWALL type + blockage (Some st) O_NORTHWALL type) 2
    + Z.quot (blockage (neighbour s st 0 1) O_WESTWALL type
              + blockage (neighbour s st (-1) 0) O_NORTHWALL type) 2
  else 0.
Proof.
  intros Hi Hj d Hd. unfold horizontalBlockage, tileAt. rewrite Hi, Hj, Hd. reflexivity.
Qed.

Lemma horizontalBlockage_null_start s b type :
  horizontalBlockage x8 y8 s None b type = 0.
Proof. reflexivity. Qed.

Lemma horizontalBlockage_null_end s a type :
  horizontalBlockage x8 y8 s a None type = 0.
Proof. unfold horizontalBlockage. simpl. destruct (tileAt s a); reflexivity. Qed.

End BlockageFacts.

(** C5 (amended).  [horizontalBlockage] decides by the horizontal offset
    [(dx, dy)] of the two tiles alone, whatever their levels: for the four
    cardinal offsets it is the blockage of the one wall crossed (the start
    tile's north wall for (0,1), the end tile's west wall for (1,0), the
    end tile's north wall for (0,-1), the start tile's west wall for
    (-1,0)), also between tiles of different levels. *)
Theorem horizontalBlockage_by_offset :
  forall (x8 y8 : Z) (s : SavedBattleGame) (i j : nat) (st en : Tile) (type : ItemDamageType),
    sv_tiles s !! i = Some st ->
    sv_tiles s !! j = Some en ->
    let v := Position_sub (t_position en) (t_position st) in
    let hb := horizontalBlockage x8 y8 s (Some i) (Some j) type in
    (px v = 0 -> py v = 1 -> hb = blockage (Some st) O_NORTHWALL type)
    /\ (px v = 1 -> py v = 0 -> hb = blockage (Some en) O_WESTWALL type)
    /\ (px v = 0 -> py v = -1 -> hb = blockage (Some en) O_NORTHWALL type)
    /\ (px v = -1 -> py v = 0 -> hb = blockage (Some st) O_WESTWALL type).
Proof.
  intros x8 y8 s i j st en type Hi Hj v hb.
  pose proof (horizontalBlockage_direction x8 y8 s i j st en type Hi Hj _ eq_refl) as Hhb.
  fold v in Hhb. fold hb in Hhb.
  repeat split.
  - intros Hx Hy. rewrite Hhb, vectorToDirection_chain, Hx, Hy. reflexivity.
  - intros Hx Hy. rewrite Hhb, vectorToDirection_chain, Hx, Hy. reflexivity.
  - intros Hx Hy. rewrite Hhb, vectorToDirection_chain, Hx, Hy. reflexivity.
  - intros Hx Hy. rewrite Hhb, vectorToDirection_chain, Hx, Hy. reflexivity.
Qed.

Lemma horizontalBlockage_by_offset_witness :
  horizontalBlockage 0 0 wallSave (Some 0%nat) (Some 5%nat) DT_NONE = 255.
Proof.
  pose proof (horizontalBlockage_by_offset 0 0 wallSave 0 5 _ _ DT_NONE eq_refl eq_refl)
    as (Hnorth & _).
  exact (Hnorth eq_refl eq_refl).
Defined.

(** C5 (counterexample).  The tiles (0,0,0) and (0,1,2) are two levels apart
    and not adjacent, yet [horizontalBlockage] between them is the 255 of the
    north wall of the first. *)
Lemma horizontalBlockage_across_levels :
  (t_position <$> sv_tiles wallSave !! 0%nat) = Some (mkPosition 0 0 0)
  /\ (t_position <$> sv_tiles wallSave !! 5%nat) = Some (mkPosition 0 1 2)
  /\ horizontalBlockage 0 0 wallSave (Some 0%nat) (Some 5%nat) DT_NONE = 255.
Proof. repeat split. Qed.

(** ** C3: ambient light *)

Lemma floor_blockage s p :
  blockage (tileAt s (getTile s p)) O_FLOOR DT_NONE = if hasFloor s p then 255 else 0.
Proof.
  unfold blockage, hasFloor. destruct (tileAt s (getTile s p)) as [t |]; [| reflexivity].
  change (partEqb O_FLOOR O_FLOOR) with true. cbn [andb].
  case_bool_decide as Hf; [reflexivity |].
  destruct (getMapData t O_FLOOR) as [mp |].
  - exfalso. apply Hf. eauto.
  - destruct (t_ufoDoorOpen t O_FLOOR); reflexivity.
Qed.

Lemma fold_sum_zero {X} (f : X -> Z) (l : list X) (a : Z) :
  (forall k, 0 <= f k) -> 0 <= a ->
  (fold_left (fun b k => b + f k) l a = 0 <-> a = 0 /\ forall k, In k l -> f k = 0).
Proof.
  intros Hf. revert a. induction l as [| k l IH]; intros a Ha; simpl.
  - split; [intros ->; split; [reflexivity | tauto] | tauto].
  - specialize (Hf k) as Hk. rewrite IH by lia. split.
    + intros [Hs Hall]. split; [lia |]. intros k' [<- | Hin]; [lia | auto].
    + intros [-> Hall]. split; [rewrite (Hall k); auto | auto].
Qed.

Lemma floorsDown_zero s x y ztop z :
  z <= ztop -> sv_height s = ztop + 1 ->
  (floorsDown s x y ztop z DT_NONE =? 0) = negb (floorAbove s (mkPosition x y z)).
Proof.
  intros Hle Hh. unfold floorsDown, floorAbove. simpl px; simpl py; simpl pz.
  apply eq_true_iff_eq. rewrite Z.eqb_eq, negb_true_iff.
  rewrite fold_sum_zero;
    [| intros k; rewrite floor_blockage; destruct (hasFloor _ _); lia | lia].
  rewrite <- not_true_iff_false, existsb_exists. split.
  - intros [_ Hall] (z' & Hin & Hfl). unfold zrange in Hin.
    apply in_map_iff in Hin as (k & <- & Hk). apply in_seq in Hk.
    specialize (Hall (Z.to_nat (ztop - (z + 1 + Z.of_nat k)))).
    rewrite floor_blockage in Hall.
    replace (ztop - Z.of_nat (Z.to_nat (ztop - (z + 1 + Z.of_nat k))))
      with (z + 1 + Z.of_nat k) in Hall by lia.
    rewrite Hfl in Hall. enough (255 = 0) by lia. apply Hall. apply in_seq. lia.
  - intros Hno. split; [reflexivity |]. intros k Hk. apply in_seq in Hk.
    rewrite floor_blockage.
    destruct (hasFloor s (mkPosition x y (ztop - Z.of_nat k))) eqn:Hfl; [| reflexivity].
    exfalso. apply Hno. exists (ztop - Z.of_nat k). split; [| exact Hfl].
    unfold zrange. apply in_map_iff. exists (Z.to_nat (ztop - Z.of_nat k - (z + 1))).
    split; [lia |]. apply in_seq. lia.
Qed.

(** C3 (amended).  At global shade 0 the one-tile [calculateSunShading] adds
    15 to the ambient layer of a tile that has no floor above it in its
    column, and 13 to the ambient layer of a tile that has one. *)
Theorem calculateSunShading_daylight :
  forall (s : SavedBattleGame) (i : nat) (t : Tile),
    gridOk s ->
    sv_globalShade s = 0 ->
    sv_tiles s !! i = Some t ->
    sunPower s i = (if floorAbove s (t_position t) then 13 else 15)
    /\ exists t', sv_tiles (calculateSunShading_tile i s) !! i = Some t'
                  /\ t_light t' 0 = t_light t 0 + sunPower s i.
Proof.
  intros s i t Hgrid Hshade Ht. split.
  - unfold sunPower. rewrite Ht, Hshade. change (0 <=? 5) with true. cbv iota.
    destruct Hgrid as [Hlen Hown]. pose proof (Hown i t Ht) as Hi.
    pose proof (getTile_Some s _ i Hi) as (Hb & _ & _).
    pose proof Hb as Hb'. apply inBounds_spec in Hb' as (Hx & Hy & Hz).
    set (top := mkPosition (px (t_position t)) (py (t_position t)) (sv_height s - 1)).
    destruct (getTile_in_grid s top Hlen) as [j Hj].
    { apply inBounds_spec. simpl. lia. }
    pose proof (getTile_Some s _ j Hj) as (_ & _ & Hjlt).
    destruct (lookup_lt_is_Some_2 _ _ Hjlt) as [tt Htt].
    pose proof (gridOk_position s top j tt (conj Hlen Hown) Hj Htt) as Hpos.
    rewrite Hj. unfold verticalBlockage, tileAt. rewrite Htt, Ht, Hpos. simpl px; simpl py; simpl pz.
    destruct (Z.ltb_spec (pz (t_position t) - (sv_height s - 1)) 0) as [Hlt | Hge].
    + rewrite (floorsDown_zero s _ _ (sv_height s - 1) (pz (t_position t))) by lia.
      rewrite negb_involutive. destruct (t_position t) as [x y z]. simpl.
      destruct (floorAbove s (mkPosition x y z)); reflexivity.
    + destruct (Z.ltb_spec 0 (pz (t_position t) - (sv_height s - 1))); [lia |].
      unfold floorAbove. unfold zrange.
      replace (Z.to_nat (sv_height s - 1 + 1 - (pz (t_position t) + 1))) with 0%nat by lia.
      reflexivity.
  - unfold calculateSunShading_tile, onTile. simpl.
    exists (Tile_addLight (sunPower s i) 0 t). split.
    + rewrite list_lookup_alter, decide_True by reflexivity. rewrite Ht. reflexivity.
    + reflexivity.
Qed.

Lemma roofedSave_gridOk : gridOk roofedSave.
Proof.
  split; [reflexivity |].
  intros [| [| i]] t Ht; simpl in Ht; [| | discriminate]; injection Ht as <-; reflexivity.
Qed.

Lemma calculateSunShading_daylight_witness :
  sunPower roofedSave 0 = 13
  /\ exists t', sv_tiles (calculateSunShading_tile 0 roofedSave) !! 0%nat = Some t'
                /\ t_light t' 0 = 0 + sunPower roofedSave 0.
Proof.
  exact (calculateSunShading_daylight roofedSave 0 (bareTile (mkPosition 0 0 0))
           roofedSave_gridOk eq_refl eq_refl).
Defined.

(** C3 (counterexample).  Global shade is 0, and the ground tile under a
    floor gets 13, not 15. *)
Lemma calculateSunShading_under_floor :
  sv_globalShade roofedSave = 0
  /\ sunPower roofedSave 0 = 13
  /\ ((fun t => t_light t 0) <$> sv_tiles (calculateSunShading_tile 0 roofedSave) !! 0%nat)
     = Some 13.
Proof. repeat split. Qed.

(** ** Lighting: what [addLight] adds to each tile when [Tile::addLight] sums *)

Lemma zsum_app {X} (f : X -> Z) l1 l2 : zsum f (l1 ++ l2) = zsum f l1 + zsum f l2.
Proof. induction l1 as [| x l1 IH]; simpl; [reflexivity | rewrite IH; lia]. Qed.

Lemma zsum_flat_map {X Y} (f : Y -> Z) (g : X -> list Y) l :
  zsum f (flat_map g l) = zsum (fun x => zsum f (g x)) l.
Proof.
  induction l as [| x l IH]; simpl; [reflexivity |]. rewrite zsum_app, IH. reflexivity.
Qed.

Lemma zsum_ext {X} (f g : X -> Z) l :
  (forall x, In x l -> f x = g x) -> zsum f l = zsum g l.
Proof.
  induction l as [| x l IH]; intros H; simpl; [reflexivity |].
  rewrite (H x) by (left; reflexivity). rewrite IH; [reflexivity |].
  intros y Hy. apply H. right. exact Hy.
Qed.

Lemma zsum_zero {X} (f : X -> Z) l : (forall x, In x l -> f x = 0) -> zsum f l = 0.
Proof.
  induction l as [| x l IH]; intros H; simpl; [reflexivity |].
  rewrite (H x) by (left; reflexivity). rewrite IH; [reflexivity |].
  intros y Hy. apply H. right. exact Hy.
Qed.

Lemma zrange_In lo hi v : In v (zrange lo hi) <-> lo <= v <= hi.
Proof.
  unfold zrange. rewrite in_map_iff. split.
  - intros (k & <- & Hk). apply in_seq in Hk. lia.
  - intros H. exists (Z.to_nat (v - lo)). split; [lia |]. apply in_seq. lia.
Qed.

Lemma zrange_cons lo hi : lo <= hi -> zrange lo hi = lo :: zrange (lo + 1) hi.
Proof.
  intros H. unfold zrange.
  replace (Z.to_nat (hi + 1 - lo)) with (S (Z.to_nat (hi + 1 - (lo + 1)))) by lia.
  simpl. f_equal; [lia |]. rewrite <- seq_shift, map_map.
  apply map_ext. intros k. lia.
Qed.

Lemma zrange_nil lo hi : hi < lo -> zrange lo hi = [].
Proof.
  intros H. unfold zrange. replace (Z.to_nat (hi + 1 - lo)) with 0%nat by lia. reflexivity.
Qed.

(** A sum over a counting loop in which only the value [k] contributes. *)
Lemma zsum_single (c : Z -> Z) k lo hi :
  zsum (fun v => if v =? k then c v else 0) (zrange lo hi)
  = if (lo <=? k) && (k <=? hi) then c k else 0.
Proof.
  remember (Z.to_nat (hi + 1 - lo)) as n eqn:Hn. revert lo Hn.
  induction n as [| n IH]; intros lo Hn.
  - rewrite zrange_nil by lia.
    destruct (Z.leb_spec lo k), (Z.leb_spec k hi); simpl; try reflexivity; lia.
  - rewrite zrange_cons by lia. simpl. rewrite IH by lia.
    destruct (Z.eqb_spec lo k), (Z.leb_spec lo k), (Z.leb_spec (lo + 1) k),
             (Z.leb_spec k hi); simpl; try reflexivity; try lia.
    subst. lia.
Qed.

Lemma fold_left_flat_map {S X Y} (f : S -> Y -> S) (g : X -> list Y) l s :
  fold_left f (flat_map g l) s = fold_left (fun s x => fold_left f (g x) s) l s.
Proof.
  revert s. induction l as [| x l IH]; intros s; simpl; [reflexivity |].
  rewrite fold_left_app. apply IH.
Qed.

Lemma sameShape_applyLight layer s s' pa :
  sameShape s s' -> sameShape s (applyLight layer s' pa).
Proof.
  intros H. unfold applyLight, onTileAt. destruct (getTile s' (fst pa)); [| exact H].
  apply sameShape_onTile. exact H.
Qed.

Lemma sameShape_fold_applyLight layer l s s' :
  sameShape s s' -> sameShape s (fold_left (applyLight layer) l s').
Proof.
  revert s'. induction l as [| pa l IH]; intros s' H; simpl; [exact H |].
  apply IH. apply sameShape_applyLight. exact H.
Qed.

(** [addLight] is the sequence of its calls. *)
Lemma addLight_targets center power layer s :
  addLight center power layer s
  = fold_left (applyLight layer) (lightTargets center power (sv_height s)) s.
Proof.
  unfold addLight, addLight_by, lightTargets.
  assert (forall x y zs s0,
             fold_left (fun s z => addLight_cell_by Z.add center power layer x y z s) zs s0
             = fold_left (applyLight layer)
                         (flat_map (fun z => lightTargets_cell center power x y z) zs) s0)
    as Hz.
  { intros x y zs s0. rewrite fold_left_flat_map. reflexivity. }
  assert (forall x ys s0,
             sameShape s s0 ->
             fold_left (fun s1 y =>
                          fold_left (fun s2 z => addLight_cell_by Z.add center power layer x y z s2)
                                    (zrange 0 (sv_height s1 - 1)) s1) ys s0
             = fold_left (applyLight layer)
                         (flat_map (fun y =>
                                      flat_map (fun z => lightTargets_cell center power x y z)
                                               (zrange 0 (sv_height s - 1))) ys) s0)
    as Hy.
  { intros x ys. induction ys as [| y ys IH]; intros s0 Hs0; simpl; [reflexivity |].
    rewrite fold_left_app, Hz.
    destruct Hs0 as (Hw & Hl & Hh & Hn). rewrite Hh.
    apply IH. apply sameShape_fold_applyLight. repeat split; assumption. }
  assert (forall xs ys s0,
             sameShape s s0 ->
             fold_left (fun s1 x =>
                          fold_left (fun s2 y =>
                                       fold_left
                                         (fun s3 z => addLight_cell_by Z.add center power layer x y z s3)
                                         (zrange 0 (sv_height s2 - 1)) s2) ys s1) xs s0
             = fold_left (applyLight layer)
                         (flat_map (fun x =>
                            flat_map (fun y =>
                              flat_map (fun z => lightTargets_cell center power x y z)
                                       (zrange 0 (sv_height s - 1))) ys) xs) s0)
    as Hx.
  { intros xs ys. induction xs as [| x xs IH]; intros s0 Hs0; simpl; [reflexivity |].
    rewrite fold_left_app, Hy by exact Hs0.
    apply IH. apply sameShape_fold_applyLight. exact Hs0. }
  apply Hx. apply sameShape_refl.
Qed.

Lemma applyLight_lightOn layer s0 s pa j :
  sameShape s0 s ->
  lightOn layer (applyLight layer s pa) j
  = (fun v => v + (if hits s0 j (fst pa) then snd pa else 0)) <$> lightOn layer s j.
Proof.
  intros Hsh. unfold applyLight, onTileAt, hits, lightOn.
  rewrite (getTile_shape s0 s _ Hsh).
  destruct (getTile s0 (fst pa)) as [i |].
  - unfold onTile. cbn [sv_tiles setTiles]. rewrite list_lookup_alter.
    destruct (Nat.eqb_spec i j) as [-> | Hne].
    + rewrite decide_True by reflexivity.
      destruct (sv_tiles s !! j) as [t |]; simpl; [| reflexivity].
      rewrite Z.eqb_refl. reflexivity.
    + rewrite decide_False by exact Hne.
      destruct (sv_tiles s !! j) as [t |]; simpl; [| reflexivity].
      f_equal. lia.
  - destruct (sv_tiles s !! j) as [t |]; simpl; [| reflexivity]. f_equal. lia.
Qed.

Lemma fold_applyLight_lightOn layer s0 l s j :
  sameShape s0 s ->
  lightOn layer (fold_left (applyLight layer) l s) j
  = (fun v => v + zsum (fun pa => if hits s0 j (fst pa) then snd pa else 0) l)
      <$> lightOn layer s j.
Proof.
  revert s. induction l as [| pa l IH]; intros s Hsh; simpl.
  - destruct (lightOn layer s j); simpl; [f_equal; lia | reflexivity].
  - rewrite IH by (apply sameShape_applyLight; exact Hsh).
    rewrite (applyLight_lightOn layer s0 s pa j Hsh).
    destruct (lightOn layer s j); simpl; [f_equal; lia | reflexivity].
Qed.

Lemma hits_own s j t p :
  gridOk s -> sv_tiles s !! j = Some t -> hits s j p = Position_eqb p (t_position t).
Proof.
  intros Hgrid Ht. unfold hits. apply eq_true_iff_eq. rewrite Position_eqb_eq.
  destruct (getTile s p) as [i |] eqn:Hp.
  - rewrite Nat.eqb_eq. split.
    + intros ->. symmetry. exact (gridOk_position s p j t Hgrid Hp Ht).
    + intros ->. destruct Hgrid as [_ Hown]. rewrite (Hown j t Ht) in Hp. congruence.
  - split; [discriminate |]. intros ->. destruct Hgrid as [_ Hown].
    rewrite (Hown j t Ht) in Hp. discriminate.
Qed.

Lemma cell_sum center power q x y z :
  0 <= x -> 0 <= y ->
  zsum (fun pa => if Position_eqb (fst pa) q then snd pa else 0)
       (lightTargets_cell center power x y z)
  = if z =? pz q then
      if (x =? Z.abs (px q - px center)) && (y =? Z.abs (py q - py center))
      then overlap (px q - px center) (py q - py center) * (power - lightDistance x y)
      else 0
    else 0.
Proof.
  intros Hx Hy. unfold lightTargets_cell, zsum, Position_eqb, overlap. cbn [fold_right fst snd px py pz].
  generalize (power - lightDistance x y). intros a.
  destruct (Z.eqb_spec z (pz q)); [| rewrite !andb_false_r; lia].
  rewrite !andb_true_r.
  replace (px center + x =? px q) with (x =? px q - px center)
    by (apply eq_true_iff_eq; rewrite !Z.eqb_eq; lia).
  replace (px center - x =? px q) with (x =? - (px q - px center))
    by (apply eq_true_iff_eq; rewrite !Z.eqb_eq; lia).
  replace (py center + y =? py q) with (y =? py q - py center)
    by (apply eq_true_iff_eq; rewrite !Z.eqb_eq; lia).
  replace (py center - y =? py q) with (y =? - (py q - py center))
    by (apply eq_true_iff_eq; rewrite !Z.eqb_eq; lia).
  generalize (px q - px center) (py q - py center). intros dx dy.
  destruct (Z.eqb_spec x dx), (Z.eqb_spec x (- dx)), (Z.eqb_spec y dy), (Z.eqb_spec y (- dy)),
           (Z.eqb_spec x (Z.abs dx)), (Z.eqb_spec y (Z.abs dy)),
           (Z.eqb_spec dx 0), (Z.eqb_spec dy 0); cbn [andb]; lia.
Qed.

(** What [addLight] leaves on a tile: its light before, plus the falloff
    value once for each mirrored position that falls on it (four at the
    centre, two on the axes, one elsewhere), when the tile lies within the
    square of half-width [power]. *)
Lemma addLight_contribution s center power layer j t :
  gridOk s ->
  sv_tiles s !! j = Some t ->
  let dx := px (t_position t) - px center in
  let dy := py (t_position t) - py center in
  lightOn layer (addLight center power layer s) j
  = Some (t_light t layer
          + if (Z.abs dx <=? power) && (Z.abs dy <=? power)
            then overlap dx dy * (power - lightDistance (Z.abs dx) (Z.abs dy))
            else 0).
Proof.
  intros Hgrid Ht dx dy.
  rewrite addLight_targets, (fold_applyLight_lightOn layer s _ s j (sameShape_refl s)).
  unfold lightOn at 1. rewrite Ht. cbn [fmap option_fmap option_map]. f_equal. f_equal.
  rewrite (zsum_ext _ (fun pa => if Position_eqb (fst pa) (t_position t) then snd pa else 0))
    by (intros pa _; rewrite (hits_own s j t _ Hgrid Ht); reflexivity).
  assert (0 <= pz (t_position t) <= sv_height s - 1) as Hz.
  { destruct Hgrid as [_ Hown]. pose proof (Hown j t Ht) as Hp.
    apply getTile_Some in Hp as (Hb & _). apply inBounds_spec in Hb. lia. }
  unfold lightTargets. rewrite zsum_flat_map.
  set (q := t_position t) in *.
  transitivity
    (zsum (fun x => if x =? Z.abs dx
                    then (if Z.abs dy <=? power
                          then overlap dx dy * (power - lightDistance x (Z.abs dy)) else 0)
                    else 0) (zrange 0 power)).
  - apply zsum_ext. intros x Hx. apply zrange_In in Hx. rewrite zsum_flat_map.
    transitivity
      (zsum (fun y => if y =? Z.abs dy
                      then (if x =? Z.abs dx
                            then overlap dx dy * (power - lightDistance x y) else 0)
                      else 0) (zrange 0 power)).
    + apply zsum_ext. intros y Hy. apply zrange_In in Hy. rewrite zsum_flat_map.
      rewrite (zsum_ext _ (fun z => if z =? pz q
                                    then (if (x =? Z.abs dx) && (y =? Z.abs dy)
                                          then overlap dx dy * (power - lightDistance x y)
                                          else 0)
                                    else 0))
        by (intros z _; apply cell_sum; lia).
      rewrite zsum_single.
      destruct (Z.leb_spec 0 (pz q)), (Z.leb_spec (pz q) (sv_height s - 1)); try lia.
      cbn [andb]. destruct (x =? Z.abs dx), (y =? Z.abs dy); reflexivity.
    + rewrite zsum_single.
      destruct (Z.leb_spec 0 (Z.abs dy)); [| lia]. cbn [andb].
      destruct (Z.abs dy <=? power), (x =? Z.abs dx); reflexivity.
  - rewrite zsum_single.
    destruct (Z.leb_spec 0 (Z.abs dx)); [| lia]. cbn [andb].
    destruct (Z.abs dx <=? power), (Z.abs dy <=? power); reflexivity.
Qed.

(** ** C4: [voxelCheck] and the map boundary *)

Lemma voxelCheck_parts_not_5 vd tile voxel parts :
  voxelCheck_parts vd tile voxel parts <> Value 5.
Proof.
  induction parts as [| i rest IH]; simpl; [discriminate |].
  destruct (getMapData tile i); [| exact IH].
  destruct (voxelAt vd _); [| discriminate].
  destruct (voxelBit _ _); [| exact IH].
  destruct i; discriminate.
Qed.

(** X2.  [voxelCheck] answers 5 exactly when the tile it computes, by truncating
    division, does not exist. *)
Lemma voxelCheck_out_of_map vd s voxel excludeUnit :
  voxelCheck vd s voxel excludeUnit = Value 5 <->
  tileAt s (getTile s (voxelTile voxel)) = None.
Proof.
  unfold voxelCheck. destruct (tileAt s (getTile s (voxelTile voxel))) as [tile |].
  - split; [| discriminate]. intros H. exfalso.
    destruct (voxelCheck_unit vd s tile voxel excludeUnit) as [[|] | f];
      [discriminate | | discriminate].
    exact (voxelCheck_parts_not_5 _ _ _ _ H).
  - tauto.
Qed.

(** Where no component is negative, truncating and floor division agree. *)
Lemma voxelTile_floorTile voxel :
  0 <= px voxel -> 0 <= py voxel -> 0 <= pz voxel -> voxelTile voxel = floorTile voxel.
Proof.
  intros Hx Hy Hz. unfold voxelTile, floorTile.
  rewrite !Z.quot_div_nonneg by lia. reflexivity.
Qed.

(** C4 (the code departs from the claim).  The voxel (-1, 0, 0) lies outside a
    1 x 1 x 1 map: its tile by floor division is (-1, 0, 0), which does not
    exist.  [voxelCheck] divides with truncation, looks at tile (0, 0, 0) and
    answers -1 (hit nothing) instead of 5 (out of map). *)
Theorem voxelCheck_negative_voxel :
  floorTile (mkPosition (-1) 0 0) = mkPosition (-1) 0 0
  /\ getTile (bareSave 1 1 1 0) (floorTile (mkPosition (-1) 0 0)) = None
  /\ voxelTile (mkPosition (-1) 0 0) = mkPosition 0 0 0
  /\ voxelCheck [] (bareSave 1 1 1 0) (mkPosition (-1) 0 0) None = Value (-1).
Proof. repeat split. Qed.

(** ** The sweep of [calculateFOV] only raises tile flags *)

Section SweepFacts.
Variable E : Externals.
Variable f : Tile -> bool.
Hypothesis f_checked : raises f (Tile_setChecked true).
Hypothesis f_discovered : raises f (Tile_setDiscovered true).
Variable i : nat.

Lemma preserves_raise j g : raises f g -> preserves (E := E) (tileHas f i) (modifySave (onTile j g)).
Proof. intros Hg. apply preserves_modifySave. intros s. apply tileHas_onTile. exact Hg. Qed.

Lemma checkForVisibleUnits_keeps unitp tile :
  preserves (tileHas f i) (checkForVisibleUnits E unitp tile).
Proof.
  unfold checkForVisibleUnits.
  repeat first [ preserves_step
               | apply preserves_modifySave; intros s; apply tileHas_onUnit ].
Qed.

Lemma fovReveal_keeps unitp dest tilePos :
  preserves (tileHas f i) (fovReveal E unitp dest tilePos).
Proof.
  unfold fovReveal.
  repeat first [ apply checkForVisibleUnits_keeps
               | apply preserves_raise; assumption
               | preserves_step ].
Qed.

Lemma fovRay_keeps n unitp unitPos fi te l power_ origin :
  preserves (tileHas f i) (fovRay E n unitp unitPos fi te l power_ origin).
Proof.
  revert l power_ origin. induction n as [| n IH]; intros l power_ origin; simpl.
  - apply preserves_ret.
  - repeat first [ apply IH | apply fovReveal_keeps | preserves_step ].
Qed.

Lemma fovSweep_keeps unitp unitPos :
  preserves (tileHas f i) (fovSweep E unitp unitPos).
Proof.
  unfold fovSweep.
  repeat first [ apply fovRay_keeps | preserves_step ].
Qed.

End SweepFacts.

(** ** The prologue of [calculateFOV] *)

Lemma forEach_modifySave {E X} (l : list X) (g : X -> SavedBattleGame -> SavedBattleGame)
      (st : State E) :
  forEach l (fun x => modifySave (g x)) st =
  Done tt (mkState (fold_left (fun s x => g x s) l (_save st))
                   (_voxelData st) (st_rng st) (st_log st)).
Proof.
  revert st. induction l as [| x l IH]; intros st; simpl.
  - destruct st; reflexivity.
  - unfold bind, modifySave at 1. rewrite IH. reflexivity.
Qed.

Lemma fold_onTile_lookup g n a s i :
  sv_tiles (fold_left (fun s j => onTile j g s) (seq a n) s) !! i =
  if bool_decide (a <= i < a + n)%nat then g <$> sv_tiles s !! i else sv_tiles s !! i.
Proof.
  revert a s. induction n as [| n IH]; intros a s; simpl.
  - rewrite bool_decide_eq_false_2 by lia. reflexivity.
  - rewrite IH. unfold onTile. cbn [sv_tiles setTiles]. rewrite list_lookup_alter.
    repeat case_bool_decide; try case_decide; subst; try lia; try reflexivity.
Qed.

Lemma fovPrologue_runs E (st : State E) unitp u :
  sv_units (_save st) !! unitp = Some u ->
  (u_faction u = FACTION_PLAYER -> is_Some (getTile (_save st) (u_position u))) ->
  fovPrologue E unitp st =
  Done tt (mkState (prologueSave unitp u (_save st)) (_voxelData st) (st_rng st) (st_log st)).
Proof.
  intros Hu Hown. unfold fovPrologue, prologueSave, bind, readUnit. rewrite Hu.
  destruct (factionEqb (u_faction u) FACTION_PLAYER) eqn:Hf.
  - destruct Hown as [own Hown]; [destruct (u_faction u); (reflexivity || discriminate) |].
    unfold onTileAt. cbn [getSave]. rewrite Hown. cbn [derefTile ret modifySave _save].
    rewrite forEach_modifySave. reflexivity.
  - cbn [ret modifySave getSave _save]. rewrite forEach_modifySave. reflexivity.
Qed.

Lemma calculateFOV_runs E (st : State E) unitp u :
  sv_units (_save st) !! unitp = Some u ->
  (u_faction u = FACTION_PLAYER -> is_Some (getTile (_save st) (u_position u))) ->
  calculateFOV E unitp st =
  fovSweep E unitp (u_position u)
           (mkState (prologueSave unitp u (_save st)) (_voxelData st) (st_rng st) (st_log st)).
Proof.
  intros Hu Hown. unfold calculateFOV, bind at 1. unfold readUnit at 1. rewrite Hu.
  unfold bind. rewrite (fovPrologue_runs E st unitp u Hu Hown). reflexivity.
Qed.

Lemma prologueSave_discovered unitp u s own :
  u_faction u = FACTION_PLAYER ->
  getTile s (u_position u) = Some own ->
  tileHas t_discovered own (prologueSave unitp u s).
Proof.
  intros Hf Hown. unfold prologueSave, tileHas. rewrite Hf. cbn [factionEqb].
  rewrite fold_onTile_lookup. unfold onTileAt. rewrite Hown.
  apply getTile_Some in Hown as (_ & _ & Hlt).
  destruct (lookup_lt_is_Some_2 _ _ Hlt) as [t Ht].
  assert (sv_tiles (onUnit unitp clearVisibleUnits (onTile own (Tile_setDiscovered true) s))
            !! own = Some (Tile_setDiscovered true t)) as ->.
  { simpl. rewrite list_lookup_alter, decide_True by reflexivity. rewrite Ht. reflexivity. }
  case_bool_decide; reflexivity.
Qed.

Lemma prologueSave_unchecked unitp u s i t :
  length (sv_tiles s) = tileCount s ->
  sv_tiles (prologueSave unitp u s) !! i = Some t -> t_checked t = false.
Proof.
  intros Hlen. unfold prologueSave.
  set (s1 := if factionEqb (u_faction u) FACTION_PLAYER then _ else s).
  set (s2 := onUnit unitp clearVisibleUnits s1).
  assert (length (sv_tiles s2) = tileCount s2) as Hlen2.
  { subst s2 s1. destruct (factionEqb _ _); [| exact Hlen].
    unfold onTileAt. destruct (getTile s (u_position u)); [| exact Hlen].
    unfold tileCount. simpl. rewrite length_alter. exact Hlen. }
  rewrite fold_onTile_lookup. intros Ht.
  assert (i < length (sv_tiles s2))%nat as Hi.
  { case_bool_decide; [lia |]. apply lookup_lt_Some in Ht. exact Ht. }
  rewrite bool_decide_eq_true_2 in Ht by lia.
  destruct (sv_tiles s2 !! i); [| discriminate]. injection Ht as <-. reflexivity.
Qed.

(** ** The ray loop of [calculateFOV] ends within its 20 iterations *)

Lemma visionOk_onTile s j g :
  (forall t, t_objects (g t) = t_objects t) -> visionOk s -> visionOk (onTile j g s).
Proof.
  intros Hg Hok i t part mp. unfold onTile, getMapData. simpl. rewrite list_lookup_alter.
  case_decide as Hij.
  - subst j. destruct (sv_tiles s !! i) as [t0 |] eqn:Ht0; simpl; [| discriminate].
    intros [= <-]. rewrite Hg. apply (Hok i t0 part mp Ht0).
  - apply Hok.
Qed.

Lemma visionOk_onUnit s k h : visionOk s -> visionOk (onUnit k h s).
Proof. exact (fun H => H). Qed.

Lemma blockage_nonneg s ptr part :
  visionOk s -> 0 <= blockage (tileAt s ptr) part DT_NONE.
Proof.
  intros Hok. unfold blockage. destruct ptr as [i |]; simpl; [| lia].
  destruct (sv_tiles s !! i) as [t |] eqn:Ht; [| lia].
  destruct (partEqb part O_FLOOR && _); [simpl; lia |].
  destruct (t_ufoDoorOpen t part); [lia |].
  destruct (getMapData t part) as [mp |] eqn:Hmp; [| lia].
  pose proof (Hok i t part mp Ht Hmp) as H. unfold getBlock in *. lia.
Qed.

Lemma blockage_nonneg_Some s i t part :
  visionOk s -> sv_tiles s !! i = Some t -> 0 <= blockage (Some t) part DT_NONE.
Proof.
  intros Hok Ht. pose proof (blockage_nonneg s (Some i) part Hok) as H.
  simpl in H. rewrite Ht in H. exact H.
Qed.

Lemma half_sum_nonneg a b : 0 <= a -> 0 <= b -> 0 <= Z.quot (a + b) 2.
Proof. intros Ha Hb. apply Z.quot_pos; lia. Qed.

Lemma horizontalBlockage_nonneg x8 y8 s a b :
  visionOk s -> 0 <= horizontalBlockage x8 y8 s a b DT_NONE.
Proof.
  intros Hok. unfold horizontalBlockage.
  destruct a as [i |]; cbn [tileAt]; [| lia].
  destruct (sv_tiles s !! i) as [st |] eqn:Hst; [| lia].
  destruct b as [j |]; cbn [tileAt]; [| lia].
  destruct (sv_tiles s !! j) as [en |] eqn:Hen; [| lia].
  pose proof (fun part => blockage_nonneg_Some s i st part Hok Hst) as Bst.
  pose proof (fun part => blockage_nonneg_Some s j en part Hok Hen) as Ben.
  pose proof (fun dx dy part =>
                blockage_nonneg s (getTile s (Position_add (t_position st)
                                                           (mkPosition dx dy 0)))
                                part Hok) as Bn.
  unfold neighbour.
  repeat match goal with
         | |- context [if ?c then _ else _] => destruct c
         end;
    try lia; try apply Bst; try apply Ben;
    apply Z.add_nonneg_nonneg; apply half_sum_nonneg; auto.
Qed.

Lemma fold_sum_nonneg {X} (f : X -> Z) (l : list X) (a : Z) :
  (forall k, 0 <= f k) -> 0 <= a -> 0 <= fold_left (fun b k => b + f k) l a.
Proof.
  intros Hf. revert a. induction l as [| k l IH]; intros a Ha; simpl; [exact Ha |].
  apply IH. specialize (Hf k). lia.
Qed.

Lemma verticalBlockage_nonneg s a b : visionOk s -> 0 <= verticalBlockage s a b DT_NONE.
Proof.
  intros Hok. unfold verticalBlockage.
  destruct (tileAt s a); [| lia]. destruct (tileAt s b); [| lia].
  repeat match goal with
         | |- context [if ?c then _ else _] => destruct c
         end; try lia;
    apply fold_sum_nonneg; try lia; intros k; apply blockage_nonneg; exact Hok.
Qed.

Section FuelFacts.
Variable E : Externals.

Lemma fovReveal_visionOk unitp dest tilePos :
  preserves visionOk (fovReveal E unitp dest tilePos).
Proof.
  unfold fovReveal, checkForVisibleUnits.
  repeat first
         [ apply preserves_modifySave; intros s;
           first [ apply visionOk_onTile; intros t; reflexivity | apply visionOk_onUnit ]
         | preserves_step ].
Qed.

(** With at least as many iterations allowed as there is power left, the
    loop [while (power_ > 0)] of a ray does not depend on the allowance: it
    has ended by itself. *)
Lemma fovRay_fuel n :
  forall m unitp unitPos fi te l power_ origin (st : State E),
    visionOk (_save st) ->
    (Z.to_nat power_ <= n)%nat -> (Z.to_nat power_ <= m)%nat ->
    fovRay E n unitp unitPos fi te l power_ origin st
    = fovRay E m unitp unitPos fi te l power_ origin st.
Proof.
  induction n as [| n IH]; intros m unitp unitPos fi te l power_ origin st Hok Hn Hm.
  - destruct m as [| m]; [reflexivity |]. simpl.
    destruct (Z.leb_spec power_ 0); [reflexivity | lia].
  - destruct m as [| m]; simpl.
    + destruct (Z.leb_spec power_ 0); [reflexivity | lia].
    + destruct (Z.leb_spec power_ 0) as [| Hpos]; [reflexivity |].
      apply bind_ext. intros s st1 [= <- <-].
      destruct (getTile (_save st) (fovRayTile E unitPos fi te (l + 1))) as [dest |];
        [| reflexivity].
      pose proof (horizontalBlockage_nonneg (ext_x8 E) (ext_y8 E) (_save st) origin
                                            (Some dest) Hok) as Hh.
      pose proof (verticalBlockage_nonneg (_save st) origin (Some dest) Hok) as Hv.
      fold (hBlock E (_save st) origin (Some dest) DT_NONE) in Hh.
      set (p := power_ - 1 - hBlock E (_save st) origin (Some dest) DT_NONE
                - verticalBlockage (_save st) origin (Some dest) DT_NONE) in *.
      apply bind_ext. intros d st1 Hrun.
      assert (st1 = st /\ sv_tiles (_save st) !! dest = Some d) as [-> Hd].
      { unfold readTile in Hrun. destruct (sv_tiles (_save st) !! dest); [| discriminate].
        injection Hrun as -> ->. auto. }
      assert (0 <= match getMapData d O_OBJECT with
                   | Some mp => getBlock mp DT_NONE
                   | None => 0
                   end) as Hobj.
      { destruct (getMapData d O_OBJECT) as [mp |] eqn:Hmp; [| lia].
        exact (Hok dest d O_OBJECT mp Hd Hmp). }
      unfold getBlock in Hobj.
      apply bind_ext. intros [] st2 Hrun2.
      apply IH; [| subst p; lia | subst p; lia].
      destruct ((0 <? p) && (t_shade d <? 10) && negb (t_checked d)).
      * pose proof (fovReveal_visionOk unitp dest (fovRayTile E unitPos fi te (l + 1)) st Hok)
          as Hrev.
        rewrite Hrun2 in Hrev. exact Hrev.
      * injection Hrun2 as <-. exact Hok.
Qed.

End FuelFacts.

Section MoreFuelFacts.
Variable E : Externals.

(** The allowance of 20 that [fovSweep] gives a ray of power 20 is enough. *)
Corollary fovRay_twenty m unitp unitPos fi te origin (st : State E) :
  visionOk (_save st) -> (20 <= m)%nat ->
  fovRay E 20 unitp unitPos fi te 0 20 origin st = fovRay E m unitp unitPos fi te 0 20 origin st.
Proof. intros Hok Hm. apply fovRay_fuel; [exact Hok | simpl; lia | simpl; lia]. Qed.

(** The ray loop of [explode] ends when [l] passes [maxRadius]: an allowance
    of [maxRadius + 1 - l] iterations is enough. *)
Lemma blastRay_fuel n :
  forall m center type maxRadius te l power_ origin (st : State E),
    (Z.to_nat (maxRadius + 1 - l) <= n)%nat -> (Z.to_nat (maxRadius + 1 - l) <= m)%nat ->
    blastRay E n center type maxRadius te l power_ origin st
    = blastRay E m center type maxRadius te l power_ origin st.
Proof.
  induction n as [| n IH]; intros m center type maxRadius te l power_ origin st Hn Hm.
  - destruct m as [| m]; [reflexivity |]. simpl.
    destruct (Z.leb_spec l maxRadius); [lia |]. rewrite andb_false_r. reflexivity.
  - destruct m as [| m]; simpl.
    + destruct (Z.leb_spec l maxRadius); [lia |]. rewrite andb_false_r. reflexivity.
    + destruct (Z.leb_spec l maxRadius) as [Hl |]; [| rewrite andb_false_r; reflexivity].
      destruct (0 <? power_); [| reflexivity]. cbn [andb].
      apply bind_ext. intros s st1 _.
      destruct (getTile s (blastRayTile E center te l)); [| reflexivity].
      apply bind_ext. intros [] st2 _. apply bind_ext. intros d st3 _.
      apply IH; lia.
Qed.

(** The falling loop of [spawnItem] ends at level 0: an allowance of [p.z]
    iterations is enough. *)
Lemma spawnItem_fall_fuel n :
  forall m p (st : State E),
    (Z.to_nat (pz p) <= n)%nat -> (Z.to_nat (pz p) <= m)%nat ->
    spawnItem_fall E n p st = spawnItem_fall E m p st.
Proof.
  induction n as [| n IH]; intros m p st Hn Hm.
  - destruct m as [| m]; [reflexivity |]. simpl.
    apply bind_ext. intros s st1 _. apply bind_ext. intros i st2 _.
    apply bind_ext. intros t st3 _.
    destruct (getMapData t O_FLOOR); [reflexivity |].
    destruct (Z.ltb_spec 0 (pz p)); [lia | reflexivity].
  - destruct m as [| m]; simpl.
    + apply bind_ext. intros s st1 _. apply bind_ext. intros i st2 _.
      apply bind_ext. intros t st3 _.
      destruct (getMapData t O_FLOOR); [reflexivity |].
      destruct (Z.ltb_spec 0 (pz p)); [lia | reflexivity].
    + apply bind_ext. intros s st1 _. apply bind_ext. intros i st2 _.
      apply bind_ext. intros t st3 _.
      destruct (getMapData t O_FLOOR); [reflexivity |].
      destruct (Z.ltb_spec 0 (pz p)); [| reflexivity].
      apply IH; simpl; lia.
Qed.

End MoreFuelFacts.

(** ** C10: the unit's own tile *)

(** C10.  For a player unit standing on a tile of the map, the prologue of
    [calculateFOV] returns with that tile discovered, before any ray is
    cast and whatever the shade, power or blockage; the tile is still
    discovered in the state the call leaves, whether the sweep returns or
    stops at a fault. *)
Theorem calculateFOV_discovers_own_tile :
  forall (E : Externals) (st : State E) (unitp : nat) (u : BattleUnit) (own : nat),
    sv_units (_save st) !! unitp = Some u ->
    u_faction u = FACTION_PLAYER ->
    getTile (_save st) (u_position u) = Some own ->
    exists st1,
      fovPrologue E unitp st = Done tt st1
      /\ tileHas t_discovered own (_save st1)
      /\ calculateFOV E unitp st = fovSweep E unitp (u_position u) st1
      /\ tileHas t_discovered own (_save (final (calculateFOV E unitp st))).
Proof.
  intros E st unitp u own Hu Hf Hown.
  assert (u_faction u = FACTION_PLAYER -> is_Some (getTile (_save st) (u_position u)))
    as Hown' by eauto.
  eexists. split; [apply (fovPrologue_runs E st unitp u Hu Hown') |].
  pose proof (prologueSave_discovered unitp u (_save st) own Hf Hown) as Hd.
  split; [exact Hd |].
  split; [apply (calculateFOV_runs E st unitp u Hu Hown') |].
  rewrite (calculateFOV_runs E st unitp u Hu Hown').
  apply (fovSweep_keeps E t_discovered); [intros t H; exact H | intros t H; reflexivity |].
  exact Hd.
Qed.

Lemma calculateFOV_discovers_own_tile_witness :
  exists st1,
    fovPrologue (plainExternals 0) 0 corridorState = Done tt st1
    /\ tileHas t_discovered 0 (_save st1)
    /\ calculateFOV (plainExternals 0) 0 corridorState
       = fovSweep (plainExternals 0) 0 (mkPosition 0 0 0) st1
    /\ tileHas t_discovered 0 (_save (final (calculateFOV (plainExternals 0) 0 corridorState))).
Proof.
  exact (calculateFOV_discovers_own_tile (plainExternals 0) corridorState 0
           (soldier (mkPosition 0 0 0) 1) 0 eq_refl eq_refl eq_refl).
Defined.

(** ** C2: the [checked] flags *)

(** C2 (counterexample).  The soldier's first ray (0 degrees up, 0 degrees
    round) reaches the lit, empty tile (1,0,0) at its first step with 19 of
    its 20 power left and marks it; [calculateFOV] returns with the flag of
    that tile still set. *)
Lemma calculateFOV_leaves_checked :
  axisFovRay (mkPosition 0 0 0) 0 0 1 = mkPosition 1 0 0
  /\ returns (calculateFOV (plainExternals 0) 0 corridorState) = true
  /\ (t_checked <$> sv_tiles (_save (final (calculateFOV (plainExternals 0) 0 corridorState)))
                    !! 1%nat) = Some true.
Proof. vm_compute. repeat split. Qed.

(** ** C2: what the rays leave checked *)

Section FirstRay.
Variable E : Externals.

Lemma checked_keeps_checked : raises t_checked (Tile_setChecked true).
Proof. intros t _. reflexivity. Qed.

Lemma discovered_keeps_checked : raises t_checked (Tile_setDiscovered true).
Proof. intros t H. exact H. Qed.

(** Revealing a tile leaves it checked. *)
Lemma fovReveal_marks unitp dest tilePos (st : State E) :
  (dest < length (sv_tiles (_save st)))%nat ->
  tileHas t_checked dest (_save (final (fovReveal E unitp dest tilePos st))).
Proof.
  intros Hlt. unfold fovReveal. apply final_bind_preserves.
  - unfold tileHas. cbn [modifySave final _save onTile sv_tiles setTiles].
    rewrite list_lookup_alter, decide_True by reflexivity.
    destruct (lookup_lt_is_Some_2 _ _ Hlt) as [t ->]. reflexivity.
  - intros _.
    repeat first [ apply checkForVisibleUnits_keeps
                 | apply preserves_raise; apply discovered_keeps_checked
                 | preserves_step ].
Qed.

Lemma fovSweep_fans unitp unitPos :
  fovSweep E unitp unitPos
  = forEach (degrees (if pz unitPos =? 0 then 0 else -90) 60 6) (fovFan E unitp unitPos).
Proof. reflexivity. Qed.

(** A loop that has come through its first iterations goes on from the
    state they left. *)
Lemma forEach_from {X} (l1 l2 : list X) (body : X -> M E unit) (st st1 : State E) :
  forEach l1 body st = Done tt st1 ->
  forEach (l1 ++ l2) body st = forEach l2 body st1.
Proof.
  revert st. induction l1 as [| x l1 IH]; intros st; cbn [forEach app].
  - intros [= <-]. reflexivity.
  - unfold bind. destruct (body x st) as [[] st' | f st']; [| discriminate]. apply IH.
Qed.

(** What one iteration establishes, and no iteration undoes, holds when the
    loop ends. *)
Lemma forEach_keeps_from {X} (Q : SavedBattleGame -> Prop) (l1 l2 : list X) x
      (body : X -> M E unit) (st st1 : State E) :
  (forall y, preserves Q (body y)) ->
  forEach l1 body st = Done tt st1 ->
  Q (_save (final (body x st1))) ->
  Q (_save (final (forEach (l1 ++ x :: l2) body st))).
Proof.
  intros Hkeep Hrun Hx. rewrite (forEach_from l1 (x :: l2) body st st1 Hrun).
  cbn [forEach]. apply final_bind_preserves; [exact Hx |].
  intros _. apply preserves_forEach. exact Hkeep.
Qed.

Lemma fovCast_keeps i unitp unitPos fi te :
  preserves (tileHas t_checked i) (fovCast E unitp unitPos fi te).
Proof.
  unfold fovCast.
  repeat first [ apply fovRay_keeps;
                 [apply checked_keeps_checked | apply discovered_keeps_checked]
               | preserves_step ].
Qed.

Lemma fovFan_keeps i unitp unitPos fi :
  preserves (tileHas t_checked i) (fovFan E unitp unitPos fi).
Proof.
  unfold fovFan. repeat first [ apply fovCast_keeps | preserves_step ].
Qed.

(** A step of a ray that lands, with power left after the blockage on the
    way, on a lit tile of the map leaves that tile checked when the ray
    ends. *)
Lemma fovRay_marks n unitp unitPos fi te l power_ origin (st : State E) dest d :
  0 < power_ ->
  getTile (_save st) (fovRayTile E unitPos fi te (l + 1)) = Some dest ->
  sv_tiles (_save st) !! dest = Some d ->
  0 < power_ - 1 - hBlock E (_save st) origin (Some dest) DT_NONE
      - verticalBlockage (_save st) origin (Some dest) DT_NONE ->
  t_shade d < 10 ->
  tileHas t_checked dest
          (_save (final (fovRay E (S n) unitp unitPos fi te l power_ origin st))).
Proof.
  intros Hp Hg Hd Hpow Hshade. cbn [fovRay].
  destruct (Z.leb_spec power_ 0) as [Hle | _]; [lia |].
  unfold bind at 1. cbn [getSave]. rewrite Hg.
  unfold bind at 1. unfold readTile. rewrite Hd.
  apply Z.ltb_lt in Hpow, Hshade. rewrite Hpow, Hshade. cbn [andb].
  destruct (t_checked d) eqn:Hc; cbn [negb].
  - apply final_bind_preserves.
    + unfold tileHas. cbn [ret final _save]. rewrite Hd. simpl. rewrite Hc. reflexivity.
    + intros _. apply fovRay_keeps;
        [apply checked_keeps_checked | apply discovered_keeps_checked].
  - apply final_bind_preserves.
    + apply fovReveal_marks. apply lookup_lt_Some in Hd. exact Hd.
    + intros _. apply fovRay_keeps;
        [apply checked_keeps_checked | apply discovered_keeps_checked].
Qed.

(** What a ray of the sweep leaves checked is checked when the sweep ends:
    the ray is the one of elevation [fi] and bearing [te], and [st_a] is
    the state the rays before it have left. *)
Lemma fovSweep_keeps_ray unitp unitPos (st : State E) fis1 fi fis2 tes1 te tes2
      (st_b st_a : State E) ub ua lo hi i :
  degrees (if pz unitPos =? 0 then 0 else -90) 60 6 = fis1 ++ fi :: fis2 ->
  forEach fis1 (fovFan E unitp unitPos) st = Done tt st_b ->
  sv_units (_save st_b) !! unitp = Some ub ->
  0 <= u_direction ub ->
  startAngle !! Z.to_nat (u_direction ub) = Some lo ->
  endAngle !! Z.to_nat (u_direction ub) = Some hi ->
  degrees lo hi 3 = tes1 ++ te :: tes2 ->
  forEach tes1 (fovCast E unitp unitPos fi) st_b = Done tt st_a ->
  sv_units (_save st_a) !! unitp = Some ua ->
  tileHas t_checked i
          (_save (final (fovRay E 20 unitp unitPos fi te 0 20
                                (getTile (_save st_a) (u_position ua)) st_a))) ->
  tileHas t_checked i (_save (final (fovSweep E unitp unitPos st))).
Proof.
  intros Hfis Hb Hub Hdir Hlo Hhi Htes Ha Hua Hray.
  rewrite fovSweep_fans, Hfis.
  apply (forEach_keeps_from (tileHas t_checked i) fis1 fis2 fi _ st st_b);
    [intros y; apply fovFan_keeps | exact Hb |].
  unfold fovFan. unfold bind at 1. unfold readUnit at 1. rewrite Hub, Hlo, Hhi.
  destruct (Z.ltb_spec (u_direction ub) 0); [lia |]. rewrite Htes.
  apply (forEach_keeps_from (tileHas t_checked i) tes1 tes2 te _ st_b st_a);
    [intros y; apply fovCast_keeps | exact Ha |].
  unfold fovCast. unfold bind at 1. unfold readUnit at 1. rewrite Hua.
  unfold bind at 1. cbn [getSave]. exact Hray.
Qed.

End FirstRay.

(** C2 (amended).  [calculateFOV] clears the [checked] flag of every tile
    before it casts its first ray, so every flag is false when the sweep
    starts.  The sweep is the loop over the elevations, each a loop over the
    bearings of the cone, each a ray.  A step of a ray that lands, with power
    left, on a lit tile of the map leaves that tile checked when the ray
    ends; no ray and no sweep clears a flag that is set; and nothing comes
    after the sweep: what a ray of the sweep leaves checked is still checked
    when [calculateFOV] returns. *)
Theorem calculateFOV_checked_flags :
  forall (E : Externals) (st : State E) (unitp : nat) (u : BattleUnit),
    sv_units (_save st) !! unitp = Some u ->
    (u_faction u = FACTION_PLAYER -> is_Some (getTile (_save st) (u_position u))) ->
    length (sv_tiles (_save st)) = tileCount (_save st) ->
    exists st1,
      fovPrologue E unitp st = Done tt st1
      /\ (forall i t, sv_tiles (_save st1) !! i = Some t -> t_checked t = false)
      /\ calculateFOV E unitp st = fovSweep E unitp (u_position u) st1
      /\ fovSweep E unitp (u_position u)
         = forEach (degrees (if pz (u_position u) =? 0 then 0 else -90) 60 6)
                   (fovFan E unitp (u_position u))
      /\ (forall n fi te l power_ origin (st' : State E) dest d,
             0 < power_ ->
             getTile (_save st') (fovRayTile E (u_position u) fi te (l + 1)) = Some dest ->
             sv_tiles (_save st') !! dest = Some d ->
             0 < power_ - 1 - hBlock E (_save st') origin (Some dest) DT_NONE
                 - verticalBlockage (_save st') origin (Some dest) DT_NONE ->
             t_shade d < 10 ->
             tileHas t_checked dest
                     (_save (final (fovRay E (S n) unitp (u_position u) fi te l power_
                                           origin st'))))
      /\ (forall i n fi te l power_ origin,
             preserves (tileHas t_checked i)
                       (fovRay E n unitp (u_position u) fi te l power_ origin))
      /\ (forall (st' : State E) i,
             tileHas t_checked i (_save st') ->
             tileHas t_checked i (_save (final (fovSweep E unitp (u_position u) st'))))
      /\ (forall fis1 fi fis2 tes1 te tes2 (st_b st_a : State E) ub ua lo hi i,
             degrees (if pz (u_position u) =? 0 then 0 else -90) 60 6 = fis1 ++ fi :: fis2 ->
             forEach fis1 (fovFan E unitp (u_position u)) st1 = Done tt st_b ->
             sv_units (_save st_b) !! unitp = Some ub ->
             0 <= u_direction ub ->
             startAngle !! Z.to_nat (u_direction ub) = Some lo ->
             endAngle !! Z.to_nat (u_direction ub) = Some hi ->
             degrees lo hi 3 = tes1 ++ te :: tes2 ->
             forEach tes1 (fovCast E unitp (u_position u) fi) st_b = Done tt st_a ->
             sv_units (_save st_a) !! unitp = Some ua ->
             tileHas t_checked i
                     (_save (final (fovRay E 20 unitp (u_position u) fi te 0 20
                                           (getTile (_save st_a) (u_position ua)) st_a))) ->
             tileHas t_checked i (_save (final (calculateFOV E unitp st)))).
Proof.
  intros E st unitp u Hu Hown Hlen.
  eexists. split; [apply (fovPrologue_runs E st unitp u Hu Hown) |].
  split; [intros i t; apply prologueSave_unchecked; exact Hlen |].
  split; [apply (calculateFOV_runs E st unitp u Hu Hown) |].
  split; [reflexivity |].
  split; [intros n fi te l power_ origin st' dest d; apply fovRay_marks |].
  split.
  { intros i n fi te l power_ origin. apply fovRay_keeps;
      [apply checked_keeps_checked | apply discovered_keeps_checked]. }
  split.
  { intros st' i.
    apply (fovSweep_keeps E t_checked); [intros t H; reflexivity | intros t H; exact H]. }
  intros fis1 fi fis2 tes1 te tes2 st_b st_a ub ua lo hi i Hfis Hb Hub Hdir Hlo Hhi Htes Ha
         Hua Hray.
  rewrite (calculateFOV_runs E st unitp u Hu Hown).
  exact (fovSweep_keeps_ray E unitp (u_position u) _ fis1 fi fis2 tes1 te tes2 st_b st_a
                            ub ua lo hi i Hfis Hb Hub Hdir Hlo Hhi Htes Ha Hua Hray).
Qed.

Lemma calculateFOV_checked_flags_witness :
  exists st1,
    fovPrologue (plainExternals 0) 0 corridorState = Done tt st1
    /\ (forall i t, sv_tiles (_save st1) !! i = Some t -> t_checked t = false)
    /\ tileHas t_checked 1
               (_save (final (fovRay (plainExternals 0) 20 0 (mkPosition 0 0 0) 0 0 0 20
                                     (Some 0%nat) st1)))
    /\ tileHas t_checked 1 (_save (final (calculateFOV (plainExternals 0) 0 corridorState))).
Proof.
  destruct (calculateFOV_checked_flags (plainExternals 0) corridorState 0
              (soldier (mkPosition 0 0 0) 1) eq_refl (fun _ => ex_intro _ 0%nat eq_refl)
              eq_refl)
    as (st1 & Hpro & Hclear & _ & _ & Hmarks & _ & _ & Hend).
  exists st1. split; [exact Hpro |]. split; [exact Hclear |].
  pose (c1 := mkState (E := plainExternals 0)
                      (prologueSave 0 (soldier (mkPosition 0 0 0) 1) corridor)
                      (_voxelData corridorState) (st_rng corridorState)
                      (st_log corridorState)).
  assert (st1 = c1) as Hst1.
  { rewrite (fovPrologue_runs (plainExternals 0) corridorState 0
               (soldier (mkPosition 0 0 0) 1) eq_refl (fun _ => ex_intro _ 0%nat eq_refl))
      in Hpro.
    injection Hpro as <-. reflexivity. }
  subst st1.
  match goal with
  | |- ?A /\ _ => assert A as Hray
  end.
  { apply (Hmarks 19%nat 0 0 0 20 (Some 0%nat) c1 1%nat
                  (Tile_setChecked false (bareTile (mkPosition 1 0 0))));
      [lia | reflexivity | reflexivity | vm_compute; reflexivity | simpl; lia]. }
  split; [exact Hray |].
  apply (Hend [] 0 (tl (degrees 0 60 6)) [] 0 (tl (degrees 0 90 3)) c1 c1
              (soldier (mkPosition 0 0 0) 1) (soldier (mkPosition 0 0 0) 1) 0 90 1%nat);
    [reflexivity | reflexivity | reflexivity | simpl; lia | reflexivity | reflexivity
    | reflexivity | reflexivity | reflexivity | exact Hray].
Defined.

(** ** C6: the ray phase and the detonation pass of [explode] *)

Section BlastFacts.
Variable E : Externals.
Variable log0 : list Event.
Variables nTiles count : nat.

Local Abbreviation rayInv := (rayInvariant E log0 nTiles count).

Lemma rayInv_callTile i g e :
  (forall t, t_unit (g t) = t_unit t) -> isDetonate e = false ->
  total rayInv (callTile E i g e) (fun _ => rayInv).
Proof.
  intros Hg He st (Hlen & Hcnt & Hok & evs & Hlog & Hevs).
  exists tt. eexists. split; [reflexivity |]. unfold rayInvariant. simpl.
  rewrite length_alter. split; [exact Hlen |]. split; [exact Hcnt |].
  split; [apply occupantsOk_onTile; assumption |].
  exists (evs ++ [e]). rewrite Hlog, app_assoc. split; [reflexivity |].
  apply Forall_app. split; [exact Hevs | constructor; [exact He | constructor]].
Qed.

Lemma rayInv_damageUnit k h rel r :
  total rayInv (modifySave (onUnit k h) ;;; emit (EvUnitDamage k rel r)) (fun _ => rayInv).
Proof.
  intros st (Hlen & Hcnt & Hok & evs & Hlog & Hevs).
  exists tt. eexists. split; [reflexivity |]. unfold rayInvariant. simpl.
  split; [exact Hlen |]. split; [exact Hcnt |].
  split; [apply (occupantsOk_onUnit _ k h Hok) |].
  exists (evs ++ [EvUnitDamage k rel r]). rewrite Hlog, app_assoc. split; [reflexivity |].
  apply Forall_app. split; [exact Hevs | constructor; [reflexivity | constructor]].
Qed.

Lemma rayInv_draw {A} (f : RNG E -> A * RNG E) :
  total rayInv (draw f) (fun _ => rayInv).
Proof. apply total_draw. intros st H. exact H. Qed.

Lemma blastTile_HE dest power_ :
  (dest < nTiles)%nat -> total rayInv (blastTile E DT_HE dest power_) (fun _ => rayInv).
Proof.
  intros Hdest. unfold blastTile.
  apply total_bind with (R := fun _ => rayInv);
    [| intros _; apply total_bind with (R := fun _ => rayInv);
       [| intros _]; apply total_ret; auto].
  apply total_bind with (R := fun _ => rayInv);
    [apply rayInv_callTile; [intros t |]; reflexivity | intros _].
  apply total_bind
    with (R := fun d st => rayInv st /\ sv_tiles (_save st) !! dest = Some d);
    [apply total_readTile; intros st (Hlen & _); lia | intros d].
  destruct (t_unit d) as [k |] eqn:Hk; [| apply total_ret; tauto].
  apply total_bind with (R := fun _ => rayInv).
  - apply total_weaken
      with (P' := fun st => rayInv st /\ sv_tiles (_save st) !! dest = Some d)
           (Q' := fun u st => (rayInv st /\ sv_tiles (_save st) !! dest = Some d)
                              /\ sv_units (_save st) !! k = Some u).
    + apply total_readUnit. intros st ((_ & _ & Hok & _) & Hd). exact (Hok dest d k Hd Hk).
    + intros st H. exact H.
    + intros u st [[H _] _]. exact H.
  - intros _. apply total_bind with (R := fun _ => rayInv); [apply rayInv_draw | intros r].
    apply rayInv_damageUnit.
Qed.

Lemma blastRay_HE n center maxRadius te :
  forall l power_ origin,
    total rayInv (blastRay E n center DT_HE maxRadius te l power_ origin) (fun _ => rayInv).
Proof.
  induction n as [| n IH]; intros l power_ origin; simpl.
  - apply total_ret. auto.
  - destruct ((0 <? power_) && (l <=? maxRadius)); [| apply total_ret; auto].
    intros st HJ. unfold bind at 1. cbn [getSave].
    destruct (getTile (_save st) (blastRayTile E center te l)) as [dest |] eqn:Hg;
      [| exists tt, st; auto].
    assert (dest < nTiles)%nat as Hdest.
    { apply getTile_Some in Hg as (_ & _ & Hlt). destruct HJ as (Hlen & _). lia. }
    generalize (power_ - hBlock E (_save st) origin (Some dest) DT_HE). intros p.
    revert st HJ Hg. 
    enough (total rayInv
              ((if 0 <? p then blastTile E DT_HE dest p else ret tt) ;;;
               (let* d := readTile dest in
                blastRay E n center DT_HE maxRadius te (l + 1)
                         match getMapData d O_OBJECT with
                         | Some mp => p - 10 - getBlock mp DT_HE
                         | None => p - 10
                         end (Some dest)))
              (fun _ => rayInv)) as Hstep by (intros st HJ _; exact (Hstep st HJ)).
    apply total_bind with (R := fun _ => rayInv).
    + destruct (0 <? p); [apply blastTile_HE; exact Hdest | apply total_ret; auto].
    + intros _. apply total_bind with (R := fun _ st => rayInv st).
      * apply total_weaken
          with (P' := rayInv)
               (Q' := fun d st => rayInv st /\ sv_tiles (_save st) !! dest = Some d).
        -- apply total_readTile. intros st (Hlen & _). lia.
        -- intros st H. exact H.
        -- intros d st [H _]. exact H.
      * intros d. apply IH.
Qed.

Lemma blastRays_HE center power maxRadius :
  total rayInv (blastRays E center power DT_HE maxRadius) (fun _ => rayInv).
Proof.
  unfold blastRays. apply total_forEach. intros te _.
  apply total_bind with (R := fun _ => rayInv).
  - apply total_weaken
      with (P' := rayInv) (Q' := fun s st => rayInv st /\ s = _save st).
    + apply total_getSave.
    + intros st H. exact H.
    + intros s st [H _]. exact H.
  - intros s. apply blastRay_HE.
Qed.

End BlastFacts.

Lemma detonateAll_runs E (st : State E) :
  detonateAll E st =
  Done tt (mkState (fold_left (fun s i => onTile i (tile_detonate E) s)
                              (seq 0 (tileCount (_save st))) (_save st))
                   (_voxelData st) (st_rng st)
                   (st_log st ++ map EvDetonate (seq 0 (tileCount (_save st))))).
Proof.
  unfold detonateAll, bind. cbn [getSave].
  apply (forEach_callTile (seq 0 (tileCount (_save st))) (tile_detonate E) EvDetonate st).
Qed.

Lemma blastChange_refl s : blastChange s s.
Proof.
  repeat split. induction (sv_tiles s) as [| t l IH]; constructor; [| exact IH].
  destruct t; reflexivity.
Qed.

Lemma blastChange_setExplosive s s' j power :
  blastChange s s' -> blastChange s (onTile j (Tile_setExplosive power) s').
Proof.
  intros (Hw & Hl & Hh & Hsh & Hsd & Ht).
  repeat split; try assumption.
  unfold onTile. cbn [sv_tiles setTiles]. apply Forall2_alter_r; [exact Ht |].
  intros t t' _ _ ->. reflexivity.
Qed.

Lemma blastChange_onUnit s s' k h : blastChange s s' -> blastChange s (onUnit k h s').
Proof. exact (fun H => H). Qed.

Section BlastFrame.
Variable E : Externals.
Variable s0 : SavedBattleGame.

Lemma blastTile_HE_frame dest power_ :
  preserves (blastChange s0) (blastTile E DT_HE dest power_).
Proof.
  unfold blastTile, callTile.
  repeat first [ apply preserves_modifySave; intros s;
                 first [ apply blastChange_setExplosive | apply blastChange_onUnit ]
               | preserves_step ].
Qed.

Lemma blastRay_HE_frame n center maxRadius te :
  forall l power_ origin,
    preserves (blastChange s0) (blastRay E n center DT_HE maxRadius te l power_ origin).
Proof.
  induction n as [| n IH]; intros l power_ origin; simpl.
  - apply preserves_ret.
  - repeat first [ apply IH | apply blastTile_HE_frame | preserves_step ].
Qed.

Lemma blastRays_HE_frame center power maxRadius :
  preserves (blastChange s0) (blastRays E center power DT_HE maxRadius).
Proof.
  unfold blastRays. repeat first [ apply blastRay_HE_frame | preserves_step ].
Qed.

End BlastFrame.

(** C6.  In a high-explosive [explode] on a battlescape whose tiles point at
    existing units, the ray loop returns having made no [detonate] call and
    having changed nothing of a tile but the deferred damage that
    [setExplosive] records.  The pass that follows replaces each tile of the
    grid by its [detonate], once, in array order, and touches nothing else;
    the rest of [explode] starts from the state the pass leaves and makes no
    further call: the call log of the whole [explode] is the log of the
    rays followed by exactly one [detonate] per tile. *)
Theorem explode_HE_detonates_once :
  forall (E : Externals) (st : State E) (center : Position) (power maxRadius : Z)
         (unitp : option nat),
    occupantsOk (_save st) ->
    exists rays st1,
      blastRays E center power DT_HE maxRadius st = Done tt st1
      /\ st_log st1 = st_log st ++ rays
      /\ Forall (fun e => isDetonate e = false) rays
      /\ blastChange (_save st) (_save st1)
      /\ exists st2,
          (blastRays E center power DT_HE maxRadius ;;; detonateAll E) st = Done tt st2
          /\ (forall i,
                 sv_tiles (_save st2) !! i
                 = if bool_decide (i < tileCount (_save st))%nat
                   then tile_detonate E <$> sv_tiles (_save st1) !! i
                   else sv_tiles (_save st1) !! i)
          /\ sv_units (_save st2) = sv_units (_save st1)
          /\ st_log st2 = st_log st1 ++ map EvDetonate (seq 0 (tileCount (_save st)))
          /\ explode E center power DT_HE maxRadius unitp st
             = (calculateFOV_position E center ;;; calculateTerrainLighting E) st2
          /\ st_log (final (explode E center power DT_HE maxRadius unitp st))
             = st_log st ++ rays ++ map EvDetonate (seq 0 (tileCount (_save st))).
Proof.
  intros E st center power maxRadius unitp Hok.
  destruct (blastRays_HE E (st_log st) (length (sv_tiles (_save st)))
                         (tileCount (_save st)) center power maxRadius st)
    as ([] & st1 & Hrun & _ & Hcnt & _ & rays & Hlog & Hrays).
  { split; [reflexivity |]. split; [reflexivity |]. split; [exact Hok |].
    exists []. rewrite app_nil_r. split; [reflexivity | constructor]. }
  exists rays, st1. split; [exact Hrun |]. split; [exact Hlog |]. split; [exact Hrays |].
  split.
  { pose proof (blastRays_HE_frame E (_save st) center power maxRadius st
                                   (blastChange_refl _)) as H.
    rewrite Hrun in H. exact H. }
  eexists. split.
  { unfold bind at 1. rewrite Hrun. apply detonateAll_runs. }
  cbn [_save st_log]. rewrite Hcnt.
  split.
  { intros i. rewrite fold_onTile_lookup.
    repeat case_bool_decide; try lia; reflexivity. }
  split.
  { clear. generalize (seq 0 (tileCount (_save st))) (_save st1).
    intros l. induction l as [| i l IH]; intros s; simpl; [reflexivity |].
    rewrite IH. reflexivity. }
  split; [reflexivity |].
  assert (explode E center power DT_HE maxRadius unitp st
          = (calculateFOV_position E center ;;; calculateTerrainLighting E)
              (mkState (fold_left (fun s i => onTile i (tile_detonate E) s)
                                  (seq 0 (tileCount (_save st))) (_save st1))
                       (_voxelData st1) (st_rng st1)
                       (st_log st1 ++ map EvDetonate (seq 0 (tileCount (_save st))))))
    as Hexp.
  { unfold explode. unfold bind at 1. unfold bind at 1. rewrite Hrun.
    rewrite detonateAll_runs, Hcnt. reflexivity. }
  split; [exact Hexp |].
  rewrite Hexp.
  match goal with
  | |- st_log (final (?m ?s)) = _ =>
      assert (silent m) as Hsilent
          by (apply silent_bind;
              [apply calculateFOV_position_silent
              | intros _; apply calculateTerrainLighting_silent]);
      rewrite (Hsilent s)
  end.
  cbn [st_log]. rewrite Hlog, <- app_assoc. reflexivity.
Qed.

Lemma corridor_occupantsOk : occupantsOk corridor.
Proof.
  intros i t k Hi Hk. destruct i as [| [| i]]; simpl in Hi; [| | discriminate];
    injection Hi as <-; simpl in Hk; [injection Hk as <-; simpl; lia | discriminate].
Qed.

Lemma explode_HE_detonates_once_witness :
  exists rays st1,
    blastRays (plainExternals 0) (mkPosition 8 8 0) 30 DT_HE 2 corridorState = Done tt st1
    /\ st_log st1 = st_log corridorState ++ rays
    /\ Forall (fun e => isDetonate e = false) rays
    /\ blastChange (_save corridorState) (_save st1)
    /\ exists st2,
        (blastRays (plainExternals 0) (mkPosition 8 8 0) 30 DT_HE 2
         ;;; detonateAll (plainExternals 0)) corridorState = Done tt st2
        /\ (forall i,
               sv_tiles (_save st2) !! i
               = if bool_decide (i < tileCount (_save corridorState))%nat
                 then tile_detonate (plainExternals 0) <$> sv_tiles (_save st1) !! i
                 else sv_tiles (_save st1) !! i)
        /\ sv_units (_save st2) = sv_units (_save st1)
        /\ st_log st2 = st_log st1 ++ map EvDetonate (seq 0 (tileCount (_save corridorState)))
        /\ explode (plainExternals 0) (mkPosition 8 8 0) 30 DT_HE 2 None corridorState
           = (calculateFOV_position (plainExternals 0) (mkPosition 8 8 0)
              ;;; calculateTerrainLighting (plainExternals 0)) st2
        /\ st_log (final (explode (plainExternals 0) (mkPosition 8 8 0) 30 DT_HE 2 None
                                  corridorState))
           = st_log corridorState ++ rays
             ++ map EvDetonate (seq 0 (tileCount (_save corridorState))).
Proof.
  exact (explode_HE_detonates_once (plainExternals 0) corridorState (mkPosition 8 8 0) 30 2
           None corridor_occupantsOk).
Defined.

(** ** C7: fire spread in [prepareNewTurn] *)

Section FireFacts.
Variable E : Externals.

Lemma igniteAttempt_log (st : State E) i pos t tl :
  getTile (_save st) pos = Some t ->
  sv_tiles (_save st) !! t = Some tl ->
  st_log (final (igniteAttempt E i pos st))
  = st_log st ++ (if ignitionGates E st i t tl then [EvIgnite t] else []).
Proof.
  intros Hg Ht. unfold igniteAttempt, ignitionGates, bind. cbn [getSave]. rewrite Hg.
  unfold readTile. rewrite Ht.
  destruct (t_fire tl =? 0); cbn [andb]; [| symmetry; apply app_nil_r].
  destruct (hBlock E (_save st) (Some i) (Some t) DT_IN =? 0); cbn [andb];
    [| symmetry; apply app_nil_r].
  destruct (t_flammability tl <? 255); cbn [andb]; [| symmetry; apply app_nil_r].
  unfold draw. destruct (rng_boxMuller E 0 126 (st_rng st)) as [base g].
  cbn [fst snd st_rng _save _voxelData st_log].
  destruct (intLtDouble (t_flammability tl) (Qabs_double base)); cbn [andb];
    [| symmetry; apply app_nil_r].
  cbn [fst snd st_rng _save _voxelData st_log].
  destruct (rng_generate E 0 (t_flammability tl) g) as [r g']. cbn [fst snd].
  destruct (r <? 2); [reflexivity | symmetry; apply app_nil_r].
Qed.

Variable log0 : list Event.
Variable nTiles : nat.

Local Abbreviation fireInv := (fireInvariant E log0 nTiles).

Lemma fireInv_draw {A} (f : RNG E -> A * RNG E) : total fireInv (draw f) (fun _ => fireInv).
Proof. apply total_draw. intros st H. exact H. Qed.

Lemma igniteAttempt_total i pos : total fireInv (igniteAttempt E i pos) (fun _ => fireInv).
Proof.
  unfold igniteAttempt. intros st HJ. unfold bind at 1. cbn [getSave].
  destruct (getTile (_save st) pos) as [t |] eqn:Hg; [| exists tt, st; auto].
  assert (t < nTiles)%nat as Hlt.
  { apply getTile_Some in Hg as (_ & _ & Hlt). destruct HJ as (Hlen & _). lia. }
  generalize (hBlock E (_save st) (Some i) (Some t) DT_IN). intros hb.
  revert st HJ Hg.
  enough (total fireInv
            (let* tt_ := readTile t in
             if t_fire tt_ =? 0 then
               if hb =? 0 then
                 let flam := t_flammability tt_ in
                 if flam <? 255 then
                   let* base := draw (rng_boxMuller E 0 126) in
                   let base := Qabs_double base in
                   if intLtDouble flam base then
                     let* r := draw (rng_generate E 0 flam) in
                     if r <? 2 then callTile E t (tile_ignite E) (EvIgnite t) else ret tt
                   else ret tt
                 else ret tt
               else ret tt
             else ret tt)
            (fun _ => fireInv)) as Hstep by (intros st HJ _; exact (Hstep st HJ)).
  apply total_bind with (R := fun _ => fireInv).
  - apply total_weaken
      with (P' := fireInv)
           (Q' := fun d st => fireInv st /\ sv_tiles (_save st) !! t = Some d).
    + apply total_readTile. intros st (Hlen & _). lia.
    + intros st H. exact H.
    + intros d st [H _]. exact H.
  - intros tl.
    destruct (t_fire tl =? 0); [| apply total_ret; auto].
    destruct (hb =? 0); [| apply total_ret; auto].
    cbv zeta. destruct (t_flammability tl <? 255); [| apply total_ret; auto].
    apply total_bind with (R := fun _ => fireInv); [apply fireInv_draw | intros base].
    destruct (intLtDouble _ _); [| apply total_ret; auto].
    apply total_bind with (R := fun _ => fireInv); [apply fireInv_draw | intros r].
    destruct (r <? 2); [| apply total_ret; auto].
    intros st (Hlen & evs & Hlog & Hevs).
    exists tt. eexists. split; [reflexivity |]. unfold fireInvariant. simpl.
    rewrite length_alter. split; [exact Hlen |].
    exists (evs ++ [EvIgnite t]). rewrite Hlog, app_assoc. split; [reflexivity |].
    apply Forall_app. split; [exact Hevs | constructor; [reflexivity | constructor]].
Qed.

Lemma spreadFire_attempts_total i (p : Position) :
  total fireInv
        (forEach (zrange (px p - 1) (px p + 1)) (fun x =>
           forEach (zrange (py p - 1) (py p + 1)) (fun y =>
             igniteAttempt E i (mkPosition x y (pz p)))))
        (fun _ => fireInv).
Proof.
  apply total_forEach. intros x _. apply total_forEach. intros y _.
  apply igniteAttempt_total.
Qed.

End FireFacts.

Lemma spreadFire_runs E (st : State E) i :
  (i < length (sv_tiles (_save st)))%nat ->
  exists evs st',
    spreadFire E i st = Done tt st'
    /\ length (sv_tiles (_save st')) = length (sv_tiles (_save st))
    /\ st_log st' = st_log st ++ evs ++ [EvPrepareNewTurn i]
    /\ Forall (fun e => isIgnite e = true) evs.
Proof.
  intros Hi. destruct (lookup_lt_is_Some_2 _ _ Hi) as [ti Hti].
  unfold spreadFire. unfold bind at 1. unfold readTile. rewrite Hti.
  destruct (spreadFire_attempts_total E (st_log st) (length (sv_tiles (_save st))) i
                                      (t_position ti) st)
    as ([] & st1 & Hrun & Hlen & evs & Hlog & Hevs).
  { split; [reflexivity |]. exists []. rewrite app_nil_r. split; [reflexivity | constructor]. }
  exists evs. eexists. unfold bind at 1. rewrite Hrun. split; [reflexivity |].
  simpl. rewrite length_alter, Hlog, <- app_assoc. auto.
Qed.

Lemma fireLoop_runs E l :
  forall st : State E,
    (forall i, In i l -> (i < length (sv_tiles (_save st)))%nat) ->
    exists segs st',
      forEach l (spreadFire E) st = Done tt st'
      /\ length segs = length l
      /\ Forall (Forall (fun e => isIgnite e = true)) segs
      /\ st_log st' = st_log st ++ fireCalls l segs.
Proof.
  induction l as [| i l IH]; intros st Hl.
  - exists [], st. simpl. rewrite app_nil_r. repeat split. constructor.
  - destruct (spreadFire_runs E st i) as (evs & st1 & Hrun & Hlen & Hlog & Hevs);
      [apply Hl; left; reflexivity |].
    destruct (IH st1) as (segs & st2 & Hrun2 & Hn & Hsegs & Hlog2).
    { intros j Hj. rewrite Hlen. apply Hl. right. exact Hj. }
    exists (evs :: segs), st2. cbn [forEach]. unfold bind. rewrite Hrun.
    split; [exact Hrun2 |]. split; [simpl; congruence |].
    split; [constructor; assumption |].
    rewrite Hlog2, Hlog. unfold fireCalls. simpl. rewrite <- !app_assoc. reflexivity.
Qed.

Lemma length_fold_onTile g l s :
  length (sv_tiles (fold_left (fun s i => onTile i g s) l s)) = length (sv_tiles s).
Proof.
  revert s. induction l as [| i l IH]; intros s; simpl; [reflexivity |].
  rewrite IH. unfold onTile. simpl. apply length_alter.
Qed.

Lemma tilesWhere_lt p s i : In i (tilesWhere p s) -> (i < length (sv_tiles s))%nat.
Proof.
  unfold tilesWhere. rewrite filter_In. intros [_ H].
  destruct (sv_tiles s !! i) eqn:Hi; [| discriminate].
  apply lookup_lt_Some in Hi. exact Hi.
Qed.

Section TurnFacts.
Variable E : Externals.

Lemma forEach_runs {X} (l : list X) (body : X -> M E unit) (f : X -> State E -> State E) :
  (forall x st, body x st = Done tt (f x st)) ->
  forall st, forEach l body st = Done tt (fold_left (fun st x => f x st) l st).
Proof.
  intros Hbody. induction l as [| x l IH]; intros st; cbn [forEach fold_left]; [reflexivity |].
  unfold bind. rewrite Hbody. apply IH.
Qed.

Lemma forEach_app {X} (l1 l2 : list X) (body : X -> M E unit) (st : State E) :
  forEach (l1 ++ l2) body st = (forEach l1 body ;;; forEach l2 body) st.
Proof.
  revert st. induction l1 as [| x l1 IH]; intros st; cbn [forEach app].
  - reflexivity.
  - unfold bind. destruct (body x st) as [[] st' | f st']; [| reflexivity].
    rewrite IH. reflexivity.
Qed.

Lemma forEach_map {X Y} (g : X -> Y) (l : list X) (body : Y -> M E unit) (st : State E) :
  forEach (map g l) body st = forEach l (fun x => body (g x)) st.
Proof.
  revert st. induction l as [| x l IH]; intros st; cbn [forEach map]; [reflexivity |].
  unfold bind. destruct (body (g x) st); [apply IH | reflexivity].
Qed.

Lemma forEach_flat_map {X Y} (g : X -> list Y) (l : list X) (body : Y -> M E unit)
      (st : State E) :
  forEach (flat_map g l) body st = forEach l (fun x => forEach (g x) body) st.
Proof.
  revert st. induction l as [| x l IH]; intros st; cbn [forEach flat_map]; [reflexivity |].
  rewrite forEach_app. unfold bind. destruct (forEach (g x) body st); [apply IH | reflexivity].
Qed.

Lemma eta_state (st : State E) l :
  l = [] -> mkState (_save st) (_voxelData st) (st_rng st) (st_log st ++ l) = st.
Proof. intros ->. rewrite app_nil_r. destruct st; reflexivity. Qed.

(** The code of one attempt meets [attemptStep]. *)
Lemma igniteAttempt_runs i pos (st : State E) :
  igniteAttempt E i pos st = Done tt (attemptStep E i pos st).
Proof.
  unfold igniteAttempt, attemptStep. unfold bind at 1. cbn [getSave].
  destruct (getTile (_save st) pos) as [t |] eqn:Hg; [| reflexivity].
  apply getTile_Some in Hg as (_ & _ & Hlt).
  destruct (lookup_lt_is_Some_2 _ _ Hlt) as [tl Htl]. rewrite Htl.
  unfold bind at 1. unfold readTile. rewrite Htl.
  unfold attemptOutcome, ignitionGates. cbv zeta.
  destruct (t_fire tl =? 0); cbn [andb];
    [| cbn [ret]; rewrite eta_state; reflexivity].
  destruct (hBlock E (_save st) (Some i) (Some t) DT_IN =? 0); cbn [andb];
    [| cbn [ret]; rewrite eta_state; reflexivity].
  destruct (t_flammability tl <? 255); cbn [andb];
    [| cbn [ret]; rewrite eta_state; reflexivity].
  unfold bind at 1. unfold draw at 1.
  destruct (rng_boxMuller E 0 126 (st_rng st)) as [base g].
  cbn [fst snd st_rng _save _voxelData st_log].
  destruct (intLtDouble (t_flammability tl) (Qabs_double base)); cbn [andb].
  - unfold bind at 1. unfold draw at 1. cbn [st_rng].
    destruct (rng_generate E 0 (t_flammability tl) g) as [r g'].
    cbn [fst snd st_rng _save _voxelData st_log].
    destruct (r <? 2).
    + unfold callTile, bind, modifySave, emit. cbn. reflexivity.
    + cbn [ret]. rewrite app_nil_r. reflexivity.
  - cbn [ret]. rewrite app_nil_r. reflexivity.
Qed.

Lemma attemptStep_length i pos (st : State E) :
  length (sv_tiles (_save (attemptStep E i pos st))) = length (sv_tiles (_save st)).
Proof.
  unfold attemptStep. destruct (getTile (_save st) pos) as [t |]; [| reflexivity].
  destruct (sv_tiles (_save st) !! t) as [tl |]; [| reflexivity].
  unfold attemptOutcome. cbn [_save].
  destruct (ignitionGates E st i t tl); [| reflexivity].
  unfold onTile. cbn [sv_tiles setTiles]. apply length_alter.
Qed.

Lemma attempts_length i l :
  forall st : State E,
    length (sv_tiles (_save (fold_left (fun st pos => attemptStep E i pos st) l st)))
    = length (sv_tiles (_save st)).
Proof.
  induction l as [| pos l IH]; intros st; cbn [fold_left]; [reflexivity |].
  rewrite IH. apply attemptStep_length.
Qed.

Lemma forEach_ext {X} (l : list X) (b1 b2 : X -> M E unit) :
  (forall x st, b1 x st = b2 x st) -> forall st, forEach l b1 st = forEach l b2 st.
Proof.
  intros Hb. induction l as [| x l IH]; intros st; cbn [forEach]; [reflexivity |].
  unfold bind. rewrite Hb. destruct (b2 x st); [apply IH | reflexivity].
Qed.

(** The two neighbour loops visit the block, position by position. *)
Lemma block_attempts i p (st : State E) :
  forEach (zrange (px p - 1) (px p + 1)) (fun x =>
    forEach (zrange (py p - 1) (py p + 1)) (fun y =>
      igniteAttempt E i (mkPosition x y (pz p)))) st
  = forEach (blockPositions p) (igniteAttempt E i) st.
Proof.
  unfold blockPositions. rewrite forEach_flat_map. apply forEach_ext.
  intros x st'. rewrite forEach_map. reflexivity.
Qed.

Lemma blockPositions_nine p :
  blockPositions p
  = [ mkPosition (px p - 1) (py p - 1) (pz p); mkPosition (px p - 1) (py p) (pz p);
      mkPosition (px p - 1) (py p + 1) (pz p);
      mkPosition (px p) (py p - 1) (pz p); mkPosition (px p) (py p) (pz p);
      mkPosition (px p) (py p + 1) (pz p);
      mkPosition (px p + 1) (py p - 1) (pz p); mkPosition (px p + 1) (py p) (pz p);
      mkPosition (px p + 1) (py p + 1) (pz p) ].
Proof.
  unfold blockPositions, zrange.
  replace (px p + 1 + 1 - (px p - 1)) with 3 by lia.
  replace (py p + 1 + 1 - (py p - 1)) with 3 by lia.
  change (Z.to_nat 3) with 3%nat. cbn [seq map flat_map app].
  repeat (apply (f_equal2 cons); [apply (f_equal3 mkPosition); lia |]). reflexivity.
Qed.

(** The code of one burning tile meets [fireStep]. *)
Lemma spreadFire_step i (st : State E) :
  (i < length (sv_tiles (_save st)))%nat ->
  spreadFire E i st = Done tt (fireStep E i st).
Proof.
  intros Hi. destruct (lookup_lt_is_Some_2 _ _ Hi) as [ti Hti].
  unfold spreadFire, fireStep. unfold bind at 1. unfold readTile. rewrite Hti.
  unfold bind at 1. rewrite block_attempts.
  rewrite (forEach_runs (blockPositions (t_position ti)) (igniteAttempt E i)
                        (attemptStep E i) (igniteAttempt_runs i)).
  reflexivity.
Qed.

Lemma fireStep_length i (st : State E) :
  length (sv_tiles (_save (fireStep E i st))) = length (sv_tiles (_save st)).
Proof.
  unfold fireStep. destruct (sv_tiles (_save st) !! i) as [ti |]; [| reflexivity].
  cbn [_save]. unfold onTile. cbn [sv_tiles setTiles]. rewrite length_alter.
  apply attempts_length.
Qed.

Lemma fireLoop_steps l :
  forall st : State E,
    (forall i, In i l -> (i < length (sv_tiles (_save st)))%nat) ->
    forEach l (spreadFire E) st = Done tt (fold_left (fun st i => fireStep E i st) l st).
Proof.
  induction l as [| i l IH]; intros st Hl; cbn [forEach fold_left]; [reflexivity |].
  unfold bind. rewrite spreadFire_step by (apply Hl; left; reflexivity).
  apply IH. intros j Hj. rewrite fireStep_length. apply Hl. right. exact Hj.
Qed.

(** The whole of [prepareNewTurn] meets [newTurnState]. *)
Lemma prepareNewTurn_runs (st : State E) :
  prepareNewTurn E st = Done tt (newTurnState E st).
Proof.
  unfold prepareNewTurn, newTurnState. unfold bind at 1. cbn [getSave].
  set (burning := tilesWhere (fun t => 0 <? t_fire t) (_save st)).
  set (smoking := tilesWhere (fun t => 0 <? t_smoke t) (_save st)).
  unfold bind at 1.
  rewrite (forEach_callTile smoking (tile_prepareNewTurn E) EvPrepareNewTurn st).
  unfold bind at 1. rewrite fireLoop_steps.
  - cbv zeta. destruct (bool_decide (0 < length burning)%nat); reflexivity.
  - intros i Hi. cbn [_save]. rewrite length_fold_onTile. apply (tilesWhere_lt _ _ _ Hi).
Qed.

End TurnFacts.

(** C7 (amended).  [prepareNewTurn] returns, and leaves what the steps of
    [newTurnState] say: first every smoking tile has its
    [Tile::prepareNewTurn], so that a tile that smokes and burns has had one
    before any attempt; then every tile that was burning, in array order,
    makes its ignition attempts on the nine positions of the 3 x 3 block
    around it on its level, and only then has its own
    [Tile::prepareNewTurn].  An attempt of burning tile [i] on an existing
    tile ignites it exactly when all gates pass: the tile is not on fire,
    the incendiary horizontal blockage from [i] is 0, its flammability is
    below 255, the folded normal draw exceeds the flammability, and the
    uniform draw from [0, flam] is below 2.  The calls are the
    [prepareNewTurn] of the smoking tiles followed, for each burning tile,
    by ignitions and then its [prepareNewTurn]. *)
Theorem prepareNewTurn_fire_order :
  forall (E : Externals) (st : State E),
    prepareNewTurn E st = Done tt (newTurnState E st)
    /\ (forall i (st0 : State E),
           (i < length (sv_tiles (_save st0)))%nat ->
           spreadFire E i st0 = Done tt (fireStep E i st0))
    /\ (forall i pos (st0 : State E),
           igniteAttempt E i pos st0 = Done tt (attemptStep E i pos st0))
    /\ (forall p,
           blockPositions p
           = [ mkPosition (px p - 1) (py p - 1) (pz p); mkPosition (px p - 1) (py p) (pz p);
               mkPosition (px p - 1) (py p + 1) (pz p);
               mkPosition (px p) (py p - 1) (pz p); mkPosition (px p) (py p) (pz p);
               mkPosition (px p) (py p + 1) (pz p);
               mkPosition (px p + 1) (py p - 1) (pz p); mkPosition (px p + 1) (py p) (pz p);
               mkPosition (px p + 1) (py p + 1) (pz p) ])
    /\ (exists segs,
           length segs = length (tilesWhere (fun t => 0 <? t_fire t) (_save st))
           /\ Forall (Forall (fun e => isIgnite e = true)) segs
           /\ st_log (final (prepareNewTurn E st))
              = st_log st
                ++ map EvPrepareNewTurn (tilesWhere (fun t => 0 <? t_smoke t) (_save st))
                ++ fireCalls (tilesWhere (fun t => 0 <? t_fire t) (_save st)) segs).
Proof.
  intros E st.
  split; [apply prepareNewTurn_runs |].
  split; [intros i st0; apply spreadFire_step |].
  split; [intros i pos st0; apply igniteAttempt_runs |].
  split; [apply blockPositions_nine |].
  unfold prepareNewTurn. unfold bind at 1. cbn [getSave].
  set (burning := tilesWhere (fun t => 0 <? t_fire t) (_save st)).
  set (smoking := tilesWhere (fun t => 0 <? t_smoke t) (_save st)).
  unfold bind at 1.
  rewrite (forEach_callTile smoking (tile_prepareNewTurn E) EvPrepareNewTurn st).
  match goal with
  | |- context [bind (forEach burning (spreadFire E)) _ ?s1] =>
      destruct (fireLoop_runs E burning s1) as (segs & st2 & Hrun & Hn & Hsegs & Hlog)
  end.
  { intros i Hi. cbn [_save]. rewrite length_fold_onTile. apply (tilesWhere_lt _ _ _ Hi). }
  exists segs. split; [exact Hn |]. split; [exact Hsegs |].
  unfold bind at 1. rewrite Hrun.
  assert (silent (if bool_decide (0 < length burning)%nat
                  then calculateTerrainLighting E else ret tt)) as Hsilent
      by (destruct (bool_decide _);
          [apply calculateTerrainLighting_silent | apply silent_ret]).
  rewrite (Hsilent st2), Hlog. cbn [st_log]. rewrite <- app_assoc. reflexivity.
Qed.

Lemma prepareNewTurn_fire_order_witness :
  st_log (final (prepareNewTurn (plainExternals 1)
                                (startState (plainExternals 1) tt smokyFireSave)))
  = [EvPrepareNewTurn 0; EvIgnite 1; EvPrepareNewTurn 0].
Proof.
  rewrite (proj1 (prepareNewTurn_fire_order (plainExternals 1)
                    (startState (plainExternals 1) tt smokyFireSave))).
  vm_compute. reflexivity.
Defined.

(** C7 (counterexample).  With a normal draw of 1 and a uniform draw of 0 the
    burning tile 0 sets its neighbour 1 on fire before its own
    [prepareNewTurn] is called.  With a normal draw of 300 the fireproof
    neighbour passes both random gates of the claim (300 > 255, and the
    uniform draw 0 < 2) and yet is not set on fire. *)
Lemma prepareNewTurn_attempts_first :
  st_log (final (prepareNewTurn (plainExternals 1) (startState (plainExternals 1) tt fireSave)))
  = [EvIgnite 1; EvPrepareNewTurn 0]
  /\ intLtDouble 255 (Qabs_double 300) = true
  /\ (fst (rng_generate (plainExternals 300) 0 255 tt) <? 2) = true
  /\ st_log (final (prepareNewTurn (plainExternals 300)
                                   (startState (plainExternals 300) tt fireproofSave)))
     = [EvPrepareNewTurn 0].
Proof. vm_compute. repeat split. Qed.

(** ** C9: [unitOpensDoor] at the edge of the map *)

Lemma openDoor_runs E (st : State E) i part tl :
  sv_tiles (_save st) !! i = Some tl ->
  openDoor E i part st =
  Done (fst (tile_openDoor E part tl))
       (mkState (onTile i (fun t => snd (tile_openDoor E part t)) (_save st))
                (_voxelData st) (st_rng st) (st_log st ++ [EvOpenDoor i part])).
Proof.
  intros Ht. unfold openDoor, bind, readTile. rewrite Ht. reflexivity.
Qed.

Lemma openDoorIfAny_runs E (st : State E) s p part :
  sameShape s (_save st) ->
  exists st',
    openDoorIfAny E s p part st = Done (getTile s p) st' /\ sameShape s (_save st').
Proof.
  intros Hsh. unfold openDoorIfAny.
  destruct (getTile s p) as [j |] eqn:Hg.
  - apply getTile_Some in Hg as (_ & _ & Hlt).
    destruct Hsh as (Hw & Hl & Hh & Hn). rewrite <- Hn in Hlt.
    destruct (lookup_lt_is_Some_2 _ _ Hlt) as [tj Htj].
    eexists. unfold bind. rewrite (openDoor_runs E st j part tj Htj). split; [reflexivity |].
    apply sameShape_onTile. repeat split; assumption.
  - exists st. split; [reflexivity | exact Hsh].
Qed.

Lemma openAdjacent_runs E (st : State E) upos a b part :
  exists st',
    openAdjacent E upos a b part st = Done (getTile (_save st) (Position_add upos b)) st'.
Proof.
  unfold openAdjacent. unfold bind at 1. cbn [getSave].
  destruct (openDoorIfAny_runs E st (_save st) (Position_add upos a) part)
    as (st1 & Hrun1 & Hsh1); [repeat split |].
  unfold bind at 1. rewrite Hrun1. unfold bind at 1. cbn [getSave].
  destruct (openDoorIfAny_runs E st1 (_save st1) (Position_add upos b) part)
    as (st2 & Hrun2 & Hsh2); [repeat split |].
  exists st2. rewrite Hrun2. rewrite (getTile_shape _ _ _ Hsh1). reflexivity.
Qed.

(** C9 (the code departs from the claim).  A unit that faces north on a tile
    whose north door answers 1 (a mechanical door starting to open), with no
    tile to its west, makes [unitOpensDoor] dereference a null tile pointer:
    the second neighbour lookup leaves [tile] null, and the closing
    [tile->getPosition()] is not guarded. *)
Theorem unitOpensDoor_dereferences_null :
  forall (E : Externals) (st : State E) (unitp : nat) (u : BattleUnit) (own : nat) (tl : Tile),
    sv_units (_save st) !! unitp = Some u ->
    u_direction u = 0 ->
    getTile (_save st) (u_position u) = Some own ->
    sv_tiles (_save st) !! own = Some tl ->
    fst (tile_openDoor E O_NORTHWALL tl) = 1 ->
    getTile (_save st) (Position_add (u_position u) (mkPosition (-1) 0 0)) = None ->
    exists st', unitOpensDoor E unitp st = Crash NullPointer st'.
Proof.
  intros E st unitp u own tl Hu Hdir Hown Htl Hdoor Hwest.
  unfold unitOpensDoor. unfold bind at 1. unfold readUnit. rewrite Hu.
  unfold bind at 1. cbn [getSave]. rewrite Hdir. change (0 =? 0) with true. cbv iota.
  rewrite Hown. unfold bind at 1. unfold bind at 1. cbn [derefTile ret].
  unfold bind at 1. rewrite (openDoor_runs E st own O_NORTHWALL tl Htl), Hdoor.
  change (1 =? 1) with true. cbv iota. unfold bind at 1.
  match goal with
  | |- context [openAdjacent E ?p ?a ?b ?part ?s] =>
      destruct (openAdjacent_runs E s p a b part) as (st2 & Hadj)
  end.
  rewrite Hadj. cbn [_save ret].
  rewrite (getTile_shape (_save st)
             (onTile own (fun t => snd (tile_openDoor E O_NORTHWALL t)) (_save st)))
    by (apply sameShape_onTile; repeat split).
  rewrite Hwest. exists st2. reflexivity.
Qed.

Lemma unitOpensDoor_dereferences_null_witness :
  exists st',
    unitOpensDoor (plainExternals 0) 0 (startState (plainExternals 0) tt doorSave)
    = Crash NullPointer st'.
Proof.
  exact (unitOpensDoor_dereferences_null (plainExternals 0)
           (startState (plainExternals 0) tt doorSave) 0 (soldier (mkPosition 0 0 0) 0) 0
           (withUnit 0 (withPart O_NORTHWALL ufoDoor (bareTile (mkPosition 0 0 0))))
           eq_refl eq_refl eq_refl eq_refl eq_refl eq_refl).
Defined.

Section SpawnFacts.
Variable E : Externals.

(** Inside the map the falling loop of [spawnItem] returns, on a position
    inside the map. *)
Lemma spawnItem_fall_returns n p (st : State E) :
  length (sv_tiles (_save st)) = tileCount (_save st) ->
  inBounds (_save st) p = true ->
  exists p', spawnItem_fall E n p st = Done p' st /\ inBounds (_save st) p' = true.
Proof.
  intros Hlen. revert p. induction n as [| n IH]; intros p Hb.
  - destruct (getTile_in_grid _ p Hlen Hb) as [i Hi].
    pose proof (getTile_Some _ _ _ Hi) as (_ & _ & Hlt).
    destruct (lookup_lt_is_Some_2 _ _ Hlt) as [t Ht].
    simpl. unfold bind, readTile. cbn [getSave]. rewrite Hi. cbn [derefTile ret]. rewrite Ht.
    destruct (getMapData t O_FLOOR); [eauto |]. destruct (0 <? pz p); eauto.
  - destruct (getTile_in_grid _ p Hlen Hb) as [i Hi].
    pose proof (getTile_Some _ _ _ Hi) as (_ & _ & Hlt).
    destruct (lookup_lt_is_Some_2 _ _ Hlt) as [t Ht].
    simpl. unfold bind at 1. cbn [getSave]. rewrite Hi. unfold bind at 1. cbn [derefTile ret].
    unfold bind at 1. unfold readTile. rewrite Ht.
    destruct (getMapData t O_FLOOR); [eauto |].
    destruct (Z.ltb_spec 0 (pz p)); [| eauto].
    apply IH. apply inBounds_spec in Hb. apply inBounds_spec. simpl. lia.
Qed.

(** For a position inside the map [spawnItem] returns: no tile it looks up
    is absent. *)
Lemma spawnItem_returns position item (st : State E) :
  length (sv_tiles (_save st)) = tileCount (_save st) ->
  inBounds (_save st) position = true ->
  exists st', spawnItem E position item st = Done tt st'.
Proof.
  intros Hlen Hb. unfold spawnItem.
  destruct (spawnItem_fall_returns (Z.to_nat (pz position)) position st Hlen Hb)
    as (p' & Hrun & Hb').
  unfold bind at 1. rewrite Hrun. unfold bind at 1. cbn [getSave].
  destruct (getTile_in_grid _ p' Hlen Hb') as [i Hi]. rewrite Hi.
  unfold bind at 1. cbn [derefTile ret]. eexists. reflexivity.
Qed.

End SpawnFacts.

(** ** Blockage: opposite directions, symmetry and floors *)

(** X3.  Turning an octant vector around turns the direction that
    [vectorToDirection] gives it by four steps out of eight. *)
Theorem vectorToDirection_opposite :
  forall (x8 y8 : Z) (v : Position),
    isOctant v = true ->
    vectorToDirection x8 y8 (Position_sub (mkPosition 0 0 0) v)
    = (vectorToDirection x8 y8 v + 4) mod 8.
Proof.
  intros x8 y8 v. unfold isOctant. rewrite !andb_true_iff, negb_true_iff, andb_false_iff.
  rewrite !Z.leb_le, !Z.eqb_neq. intros [[Hx Hy] Hz].
  rewrite !vectorToDirection_chain. unfold Position_sub. cbn [px py pz].
  assert (px v = -1 \/ px v = 0 \/ px v = 1) as Hpx by lia.
  assert (py v = -1 \/ py v = 0 \/ py v = 1) as Hpy by lia.
  destruct Hpx as [Ex | [Ex | Ex]], Hpy as [Ey | [Ey | Ey]]; rewrite Ex, Ey;
    try reflexivity; exfalso; lia.
Qed.

(** X4.  Between two adjacent tiles of the same level, side by side or
    corner to corner, [horizontalBlockage] is the same in the two
    directions. *)
Theorem horizontalBlockage_symmetric :
  forall (x8 y8 : Z) (s : SavedBattleGame) (i j : nat) (st en : Tile) (type : ItemDamageType),
    sv_tiles s !! i = Some st ->
    sv_tiles s !! j = Some en ->
    pz (t_position st) = pz (t_position en) ->
    isOctant (Position_sub (t_position en) (t_position st)) = true ->
    horizontalBlockage x8 y8 s (Some i) (Some j) type
    = horizontalBlockage x8 y8 s (Some j) (Some i) type.
Proof.
  intros x8 y8 s i j st en type Hi Hj Hz Hoct.
  rewrite (horizontalBlockage_direction x8 y8 s i j st en type Hi Hj _ eq_refl).
  rewrite (horizontalBlockage_direction x8 y8 s j i en st type Hj Hi _ eq_refl).
  revert Hoct. unfold isOctant. rewrite !andb_true_iff, negb_true_iff, andb_false_iff.
  rewrite !Z.leb_le, !Z.eqb_neq. rewrite !vectorToDirection_chain.
  unfold neighbour, Position_add, Position_sub. cbn [px py pz].
  destruct (t_position st) as [x y z], (t_position en) as [x' y' z'].
  cbn [px py pz] in *. subst z'. intros [[Hx Hy] Hne].
  assert (x' = x - 1 \/ x' = x \/ x' = x + 1) as Hpx by lia.
  assert (y' = y - 1 \/ y' = y \/ y' = y + 1) as Hpy by lia.
  destruct Hpx as [-> | [-> | ->]], Hpy as [-> | [-> | ->]];
    try (exfalso; lia);
    repeat match goal with
           | |- context [?a =? ?b] =>
               first [ replace (a =? b) with true by (symmetry; apply Z.eqb_eq; lia)
                     | replace (a =? b) with false by (symmetry; apply Z.eqb_neq; lia) ];
               cbn [andb]
           end;
    cbv iota; repeat first [ reflexivity | lia | progress f_equal ].
Qed.

Lemma floor_blockage_any s p type :
  blockage (tileAt s (getTile s p)) O_FLOOR type
  = floorBlock type * (if hasFloor s p then 1 else 0).
Proof.
  unfold blockage, hasFloor. destruct (tileAt s (getTile s p)) as [t |]; [| lia].
  change (partEqb O_FLOOR O_FLOOR) with true. cbn [andb].
  case_bool_decide as Hf; [destruct type; reflexivity |].
  destruct (getMapData t O_FLOOR) as [mp |].
  - exfalso. apply Hf. eauto.
  - destruct (t_ufoDoorOpen t O_FLOOR); lia.
Qed.

Lemma fold_sum_zsum {X} (f : X -> Z) (l : list X) (a : Z) :
  fold_left (fun b k => b + f k) l a = a + zsum f l.
Proof.
  revert a. induction l as [| k l IH]; intros a; simpl; [lia |]. rewrite IH. lia.
Qed.

Lemma zsum_map {X Y} (f : Y -> Z) (g : X -> Y) l : zsum f (map g l) = zsum (fun x => f (g x)) l.
Proof. induction l as [| x l IH]; simpl; [reflexivity | rewrite IH; reflexivity]. Qed.

Lemma zsum_scale {X} (c : Z) (f : X -> Z) l : zsum (fun x => c * f x) l = c * zsum f l.
Proof. induction l as [| x l IH]; simpl; [lia | rewrite IH; lia]. Qed.

(** A sum over [0, n) may be taken from the top down. *)
Lemma zsum_seq_rev (F : Z -> Z) n :
  zsum (fun k => F (Z.of_nat n - 1 - Z.of_nat k)) (seq 0 n)
  = zsum (fun k => F (Z.of_nat k)) (seq 0 n).
Proof.
  induction n as [| n IH]; [reflexivity |].
  rewrite seq_S at 2. rewrite zsum_app. cbn [zsum fold_right Nat.add].
  change (seq 0 (S n)) with (0%nat :: seq 1 n). rewrite <- seq_shift.
  cbn [zsum fold_right]. fold (zsum (fun k => F (Z.of_nat (S n) - 1 - Z.of_nat k)) (map S (seq 0 n))).
  rewrite zsum_map.
  rewrite (zsum_ext _ (fun k => F (Z.of_nat n - 1 - Z.of_nat k)))
    by (intros k _; f_equal; lia).
  rewrite IH. replace (Z.of_nat (S n) - 1 - Z.of_nat 0) with (Z.of_nat n) by lia. lia.
Qed.

(** X5.  [verticalBlockage] between two existing tiles counts the floors
    of the column of the start tile on the levels above the lower and up to
    the higher of the two: 15 for each against explosives, 255 against
    everything else.  The x and y of the end tile play no part. *)
Theorem verticalBlockage_counts_floors :
  forall (s : SavedBattleGame) (i j : nat) (st en : Tile) (type : ItemDamageType),
    sv_tiles s !! i = Some st ->
    sv_tiles s !! j = Some en ->
    verticalBlockage s (Some i) (Some j) type
    = floorBlock type
      * floorsBetween s (px (t_position st)) (py (t_position st))
                      (Z.min (pz (t_position st)) (pz (t_position en)) + 1)
                      (Z.max (pz (t_position st)) (pz (t_position en))).
Proof.
  intros s i j st en type Hi Hj. unfold verticalBlockage, tileAt. rewrite Hi, Hj.
  set (x := px (t_position st)). set (y := py (t_position st)).
  set (zs := pz (t_position st)). set (ze := pz (t_position en)).
  unfold floorsBetween, zrange. rewrite zsum_map, <- zsum_scale.
  destruct (Z.ltb_spec (ze - zs) 0) as [Hdown | Hup].
  - unfold floorsDown. rewrite fold_sum_zsum, Z.add_0_l.
    rewrite Z.min_r, Z.max_l by lia.
    replace (Z.to_nat (zs + 1 - (ze + 1))) with (Z.to_nat (zs - ze)) by lia.
    rewrite (zsum_ext _ (fun k => (fun z => floorBlock type
                                            * (if hasFloor s (mkPosition x y (ze + 1 + z))
                                               then 1 else 0))
                                    (Z.of_nat (Z.to_nat (zs - ze)) - 1 - Z.of_nat k))).
    + apply (zsum_seq_rev (fun z => floorBlock type
                                    * (if hasFloor s (mkPosition x y (ze + 1 + z))
                                       then 1 else 0))).
    + intros k Hk. apply in_seq in Hk. rewrite floor_blockage_any.
      replace (ze + 1 + (Z.of_nat (Z.to_nat (zs - ze)) - 1 - Z.of_nat k))
        with (zs - Z.of_nat k) by lia.
      reflexivity.
  - destruct (Z.ltb_spec 0 (ze - zs)) as [Hup' | Hsame].
    + unfold floorsUp. rewrite fold_sum_zsum, Z.add_0_l.
      rewrite Z.min_l, Z.max_r by lia.
      replace (Z.to_nat (ze + 1 - (zs + 1))) with (Z.to_nat (ze - zs)) by lia.
      apply zsum_ext. intros k _. apply floor_blockage_any.
    + replace (Z.to_nat (Z.max zs ze + 1 - (Z.min zs ze + 1))) with 0%nat by lia.
      reflexivity.
Qed.

(** X6.  [getBlock] on what [setBlockValue] stored: 255 or 0 for vision, smoke,
    fire and gas according to whether the value given was exactly 1, the
    explosive value as it was given, and 0 for armour piercing.  The light
    value given is never read back. *)
Theorem getBlock_setBlockValue :
  forall (lightBlock visionBlock HEBlock smokeBlock fireBlock gasBlock : Z)
         (ufoDoor door : bool) (lightSource flammable : Z) (loft : Z -> Z)
         (type : ItemDamageType),
    getBlock (mkMapData (setBlockValue lightBlock visionBlock HEBlock smokeBlock
                                       fireBlock gasBlock)
                        ufoDoor door lightSource flammable loft) type
    = match type with
      | DT_NONE => if visionBlock =? 1 then 255 else 0
      | DT_HE => HEBlock
      | DT_SMOKE => if smokeBlock =? 1 then 255 else 0
      | DT_IN => if fireBlock =? 1 then 255 else 0
      | DT_STUN => if gasBlock =? 1 then 255 else 0
      | DT_AP => 0
      end.
Proof. intros. destruct type; reflexivity. Qed.

(** ** Lighting: what [addLight] leaves alone *)

Lemma sameButLight_refl layer t : sameButLight layer t t.
Proof. split; [destruct t; reflexivity | reflexivity]. Qed.

Lemma lightOnlyChange_refl layer s : lightOnlyChange layer s s.
Proof.
  split; [destruct s; reflexivity |].
  apply Forall2_same_length_lookup_2; [reflexivity |].
  intros i t t' Ht Ht'. rewrite Ht in Ht'. injection Ht' as <-. apply sameButLight_refl.
Qed.

Lemma lightOnlyChange_onTile layer s s' i (g : Tile -> Tile) :
  (forall t t', sameButLight layer t t' -> sameButLight layer t (g t')) ->
  lightOnlyChange layer s s' -> lightOnlyChange layer s (onTile i g s').
Proof.
  intros Hg [Hs HF]. split.
  - unfold onTile. cbn [sv_tiles setTiles]. rewrite Hs at 2. reflexivity.
  - unfold onTile. cbn [sv_tiles setTiles]. apply Forall2_alter_r; [exact HF |].
    intros t t' _ _. apply Hg.
Qed.

Lemma sameButLight_addLight accumulate light layer t t' :
  sameButLight layer t t' -> sameButLight layer t (Tile_addLight_by accumulate light layer t').
Proof.
  intros [Ht Hl]. split.
  - rewrite Ht at 1. reflexivity.
  - intros l Hne. cbn. destruct (Z.eqb_spec l layer); [contradiction | apply Hl; exact Hne].
Qed.

Lemma lightOnlyChange_onTileAt accumulate light layer s s' p :
  lightOnlyChange layer s s' ->
  lightOnlyChange layer s (onTileAt p (Tile_addLight_by accumulate light layer) s').
Proof.
  intros H. unfold onTileAt. destruct (getTile s' p); [| exact H].
  apply lightOnlyChange_onTile; [| exact H].
  intros t t'. apply sameButLight_addLight.
Qed.

Lemma fold_left_keeps {S X} (R : S -> Prop) (f : S -> X -> S) l s0 :
  (forall s x, R s -> R (f s x)) -> R s0 -> R (fold_left f l s0).
Proof.
  intros Hf. revert s0. induction l as [| x l IH]; intros s0 H0; simpl; [exact H0 |].
  apply IH. apply Hf. exact H0.
Qed.

(** X7.  [addLight] changes nothing of the saved game but the light of
    the layer it is given: sizes, shade, side, units and every other field of
    every tile stay, and so does the light of the other layers.  This holds
    for every way [Tile::addLight] accumulates. *)
Theorem addLight_changes_light_only :
  forall (accumulate : Z -> Z -> Z) (center : Position) (power layer : Z)
         (s : SavedBattleGame),
    lightOnlyChange layer s (addLight_by accumulate center power layer s).
Proof.
  intros accumulate center power layer s. unfold addLight_by.
  apply fold_left_keeps; [| apply lightOnlyChange_refl]. intros s1 x H1.
  apply fold_left_keeps; [| exact H1]. intros s2 y H2.
  apply fold_left_keeps; [| exact H2]. intros s3 z H3.
  unfold addLight_cell_by. cbv zeta.
  repeat apply lightOnlyChange_onTileAt. exact H3.
Qed.

Lemma lightOnlyChange_sameShape layer s s' : lightOnlyChange layer s s' -> sameShape s s'.
Proof.
  intros [Hs HF]. rewrite Hs. cbn. repeat split. symmetry. exact (Forall2_length _ _ _ HF).
Qed.

Lemma lightOnlyChange_lookup layer s s' i t' :
  lightOnlyChange layer s s' -> sv_tiles s' !! i = Some t' ->
  exists t, sv_tiles s !! i = Some t /\ sameButLight layer t t'.
Proof. intros [_ HF] Ht'. exact (Forall2_lookup_r _ _ _ _ _ HF Ht'). Qed.

Lemma lightOnlyChange_blockage layer s s' ptr part type :
  lightOnlyChange layer s s' ->
  blockage (tileAt s' ptr) part type = blockage (tileAt s ptr) part type.
Proof.
  intros H. destruct ptr as [i |]; [| reflexivity]. cbn [tileAt].
  destruct (sv_tiles s' !! i) as [t' |] eqn:Ht'.
  - destruct (lightOnlyChange_lookup _ _ _ _ _ H Ht') as (t & -> & [Ht _]).
    rewrite Ht. reflexivity.
  - destruct H as [_ HF]. apply lookup_ge_None in Ht'.
    rewrite <- (Forall2_length _ _ _ HF) in Ht'. apply lookup_ge_None in Ht'.
    rewrite Ht'. reflexivity.
Qed.

Lemma lightOnlyChange_position layer s s' ptr :
  lightOnlyChange layer s s' -> t_position <$> tileAt s' ptr = t_position <$> tileAt s ptr.
Proof.
  intros H. destruct ptr as [i |]; [| reflexivity]. cbn [tileAt].
  destruct (sv_tiles s' !! i) as [t' |] eqn:Ht'.
  - destruct (lightOnlyChange_lookup _ _ _ _ _ H Ht') as (t & -> & [Ht _]).
    rewrite Ht. reflexivity.
  - destruct H as [_ HF]. apply lookup_ge_None in Ht'.
    rewrite <- (Forall2_length _ _ _ HF) in Ht'. apply lookup_ge_None in Ht'.
    rewrite Ht'. reflexivity.
Qed.

Lemma lightOnlyChange_verticalBlockage layer s s' a b type :
  lightOnlyChange layer s s' -> verticalBlockage s' a b type = verticalBlockage s a b type.
Proof.
  intros H. pose proof (lightOnlyChange_sameShape _ _ _ H) as Hsh.
  unfold verticalBlockage.
  pose proof (lightOnlyChange_position _ _ _ a H) as Ha.
  pose proof (lightOnlyChange_position _ _ _ b H) as Hb.
  destruct (tileAt s' a) as [st' |], (tileAt s a) as [st |]; try discriminate; [| reflexivity].
  destruct (tileAt s' b) as [en' |], (tileAt s b) as [en |]; try discriminate; [| reflexivity].
  cbn in Ha, Hb. injection Ha as ->. injection Hb as ->.
  unfold floorsDown, floorsUp. rewrite !fold_sum_zsum.
  repeat match goal with
         | |- context [if ?c then _ else _] => destruct c
         end; try reflexivity;
    f_equal; apply zsum_ext; intros k _;
    rewrite (getTile_shape _ _ _ Hsh); apply (lightOnlyChange_blockage _ _ _ _ _ _ H).
Qed.

Lemma lightOnlyChange_sunPower layer s s' i :
  lightOnlyChange layer s s' -> sunPower s' i = sunPower s i.
Proof.
  intros H. pose proof (lightOnlyChange_sameShape _ _ _ H) as Hsh.
  pose proof (lightOnlyChange_position _ _ _ (Some i) H) as Hp. cbn [tileAt] in Hp.
  unfold sunPower.
  destruct (sv_tiles s' !! i) as [t' |], (sv_tiles s !! i) as [t |]; try discriminate;
    [| reflexivity].
  cbn in Hp. injection Hp as ->.
  rewrite (getTile_shape _ _ _ Hsh), (lightOnlyChange_verticalBlockage _ _ _ _ _ _ H).
  destruct H as [-> _]. cbn. reflexivity.
Qed.

(** What [calculateSunShading] passes to [Tile::addLight] for a tile of a
    well-formed grid. *)
Lemma sunPower_formula s i t :
  gridOk s -> sv_tiles s !! i = Some t ->
  sunPower s i
  = 15 - sv_globalShade s
    - (if (sv_globalShade s <=? 5) && floorAbove s (t_position t) then 2 else 0).
Proof.
  intros Hgrid Ht. unfold sunPower. rewrite Ht.
  destruct (sv_globalShade s <=? 5); cbn [andb]; [| lia].
  destruct Hgrid as [Hlen Hown]. pose proof (Hown i t Ht) as Hi.
  pose proof (getTile_Some s _ i Hi) as (Hb & _ & _).
  pose proof Hb as Hb'. apply inBounds_spec in Hb' as (Hx & Hy & Hz).
  set (top := mkPosition (px (t_position t)) (py (t_position t)) (sv_height s - 1)).
  destruct (getTile_in_grid s top Hlen) as [j Hj].
  { apply inBounds_spec. simpl. lia. }
  pose proof (getTile_Some s _ j Hj) as (_ & _ & Hjlt).
  destruct (lookup_lt_is_Some_2 _ _ Hjlt) as [tt Htt].
  pose proof (gridOk_position s top j tt (conj Hlen Hown) Hj Htt) as Hpos.
  rewrite Hj. unfold verticalBlockage, tileAt. rewrite Htt, Ht, Hpos.
  simpl px; simpl py; simpl pz.
  destruct (Z.ltb_spec (pz (t_position t) - (sv_height s - 1)) 0) as [Hlt | Hge].
  + rewrite (floorsDown_zero s _ _ (sv_height s - 1) (pz (t_position t))) by lia.
    rewrite negb_involutive. destruct (t_position t) as [x y z]. simpl.
    destruct (floorAbove s (mkPosition x y z)); lia.
  + destruct (Z.ltb_spec 0 (pz (t_position t) - (sv_height s - 1))); [lia |].
    unfold floorAbove. unfold zrange.
    replace (Z.to_nat (sv_height s - 1 + 1 - (pz (t_position t) + 1))) with 0%nat by lia.
    simpl. lia.
Qed.

Lemma lightDistance_diagonal p : 2 <= p -> p < lightDistance p p.
Proof.
  intros Hp. unfold lightDistance.
  assert (2 * p + 1 <= Z.sqrt (4 * (p * p + p * p))) as Hs.
  { apply Z.sqrt_le_square; nia. }
  assert (p + 1 <= (Z.sqrt (4 * (p * p + p * p)) + 1) / 2).
  { apply Z.div_le_lower_bound; lia. }
  lia.
Qed.

(** ** Lighting: the calls of [addLight] on each tile, for any accumulator *)

Section AccumulatorFacts.
Variable accumulate : Z -> Z -> Z.

Lemma sameShape_applyLight_by layer s s' pa :
  sameShape s s' -> sameShape s (applyLight_by accumulate layer s' pa).
Proof.
  intros H. unfold applyLight_by, onTileAt. destruct (getTile s' (fst pa)); [| exact H].
  apply sameShape_onTile. exact H.
Qed.

Lemma sameShape_fold_applyLight_by layer l s s' :
  sameShape s s' -> sameShape s (fold_left (applyLight_by accumulate layer) l s').
Proof.
  revert s'. induction l as [| pa l IH]; intros s' H; simpl; [exact H |].
  apply IH. apply sameShape_applyLight_by. exact H.
Qed.

(** [addLight] is the sequence of its calls, whatever the accumulator. *)
Lemma addLight_by_targets center power layer s :
  addLight_by accumulate center power layer s
  = fold_left (applyLight_by accumulate layer) (lightTargets center power (sv_height s)) s.
Proof.
  unfold addLight_by, lightTargets.
  set (cell := fun x y s z => addLight_cell_by accumulate center power layer x y z s).
  set (calls := fun x y z => lightTargets_cell center power x y z).
  assert (forall x y zs s0,
             fold_left (cell x y) zs s0
             = fold_left (applyLight_by accumulate layer) (flat_map (calls x y) zs) s0) as Hz.
  { intros x y zs s0. rewrite fold_left_flat_map. reflexivity. }
  assert (forall x ys s0,
             sameShape s s0 ->
             fold_left (fun s1 y => fold_left (cell x y) (zrange 0 (sv_height s1 - 1)) s1) ys s0
             = fold_left (applyLight_by accumulate layer)
                         (flat_map (fun y => flat_map (calls x y) (zrange 0 (sv_height s - 1)))
                                   ys) s0) as Hy.
  { intros x ys. induction ys as [| y ys IH]; intros s0 Hs0; simpl; [reflexivity |].
    rewrite fold_left_app, Hz.
    destruct Hs0 as (Hw & Hl & Hh & Hn). rewrite Hh.
    apply IH. apply sameShape_fold_applyLight_by. repeat split; assumption. }
  assert (forall xs ys s0,
             sameShape s s0 ->
             fold_left (fun s1 x =>
                          fold_left (fun s2 y =>
                                       fold_left (cell x y) (zrange 0 (sv_height s2 - 1)) s2)
                                    ys s1) xs s0
             = fold_left (applyLight_by accumulate layer)
                         (flat_map (fun x =>
                            flat_map (fun y => flat_map (calls x y) (zrange 0 (sv_height s - 1)))
                                     ys) xs) s0) as Hx.
  { intros xs ys. induction xs as [| x xs IH]; intros s0 Hs0; simpl; [reflexivity |].
    rewrite fold_left_app, Hy by exact Hs0.
    apply IH. apply sameShape_fold_applyLight_by. exact Hs0. }
  apply Hx. apply sameShape_refl.
Qed.

Lemma applyLight_by_lightOn layer s0 s pa j :
  sameShape s0 s ->
  lightOn layer (applyLight_by accumulate layer s pa) j
  = (fun v => if hits s0 j (fst pa) then accumulate v (snd pa) else v) <$> lightOn layer s j.
Proof.
  intros Hsh. unfold applyLight_by, onTileAt, hits, lightOn.
  rewrite (getTile_shape s0 s _ Hsh).
  destruct (getTile s0 (fst pa)) as [i |].
  - unfold onTile. cbn [sv_tiles setTiles]. rewrite list_lookup_alter.
    destruct (Nat.eqb_spec i j) as [-> | Hne].
    + rewrite decide_True by reflexivity.
      destruct (sv_tiles s !! j) as [t |]; simpl; [| reflexivity].
      rewrite Z.eqb_refl. reflexivity.
    + rewrite decide_False by exact Hne.
      destruct (sv_tiles s !! j) as [t |]; reflexivity.
  - destruct (sv_tiles s !! j) as [t |]; reflexivity.
Qed.

Lemma fold_applyLight_by_lightOn layer s0 l s j :
  sameShape s0 s ->
  lightOn layer (fold_left (applyLight_by accumulate layer) l s) j
  = accumulated accumulate (map snd (List.filter (fun pa => hits s0 j (fst pa)) l))
      <$> lightOn layer s j.
Proof.
  revert s. induction l as [| pa l IH]; intros s Hsh; simpl.
  - destruct (lightOn layer s j); reflexivity.
  - rewrite IH by (apply sameShape_applyLight_by; exact Hsh).
    rewrite (applyLight_by_lightOn layer s0 s pa j Hsh).
    destruct (lightOn layer s j); simpl; [| reflexivity].
    destruct (hits s0 j (fst pa)); reflexivity.
Qed.

End AccumulatorFacts.

Lemma filter_flat_map {X Y} (P : Y -> bool) (g : X -> list Y) l :
  List.filter P (flat_map g l) = flat_map (fun x => List.filter P (g x)) l.
Proof.
  induction l as [| x l IH]; simpl; [reflexivity |].
  rewrite List.filter_app, IH. reflexivity.
Qed.

Lemma flat_map_ext_in {X Y} (f g : X -> list Y) l :
  (forall x, In x l -> f x = g x) -> flat_map f l = flat_map g l.
Proof.
  induction l as [| x l IH]; intros H; simpl; [reflexivity |].
  rewrite (H x) by (left; reflexivity). rewrite IH; [reflexivity |].
  intros y Hy. apply H. right. exact Hy.
Qed.

(** A counting loop that collects something for the value [k] only. *)
Lemma flat_map_single {Y} (c : Z -> list Y) k lo hi :
  flat_map (fun v => if v =? k then c v else []) (zrange lo hi)
  = if (lo <=? k) && (k <=? hi) then c k else [].
Proof.
  remember (Z.to_nat (hi + 1 - lo)) as n eqn:Hn. revert lo Hn.
  induction n as [| n IH]; intros lo Hn.
  - rewrite zrange_nil by lia.
    destruct (Z.leb_spec lo k), (Z.leb_spec k hi); simpl; try reflexivity; lia.
  - rewrite zrange_cons by lia. simpl. rewrite IH by lia.
    destruct (Z.eqb_spec lo k), (Z.leb_spec lo k), (Z.leb_spec (lo + 1) k),
             (Z.leb_spec k hi); simpl; try reflexivity; try lia.
    subst. rewrite app_nil_r. reflexivity.
Qed.

Lemma cell_calls center power q x y z :
  0 <= x -> 0 <= y ->
  map snd (List.filter (fun pa => Position_eqb (fst pa) q)
                       (lightTargets_cell center power x y z))
  = if z =? pz q then
      if (x =? Z.abs (px q - px center)) && (y =? Z.abs (py q - py center))
      then repeat (power - lightDistance x y)
                  (Z.to_nat (overlap (px q - px center) (py q - py center)))
      else []
    else [].
Proof.
  intros Hx Hy. unfold lightTargets_cell, Position_eqb, overlap.
  cbn [List.filter fst snd px py pz].
  generalize (power - lightDistance x y). intros a.
  destruct (Z.eqb_spec z (pz q)); [| rewrite !andb_false_r; reflexivity].
  rewrite !andb_true_r.
  replace (px center + x =? px q) with (x =? px q - px center)
    by (apply eq_true_iff_eq; rewrite !Z.eqb_eq; lia).
  replace (px center - x =? px q) with (x =? - (px q - px center))
    by (apply eq_true_iff_eq; rewrite !Z.eqb_eq; lia).
  replace (py center + y =? py q) with (y =? py q - py center)
    by (apply eq_true_iff_eq; rewrite !Z.eqb_eq; lia).
  replace (py center - y =? py q) with (y =? - (py q - py center))
    by (apply eq_true_iff_eq; rewrite !Z.eqb_eq; lia).
  generalize (px q - px center) (py q - py center). intros dx dy.
  destruct (Z.eqb_spec x dx), (Z.eqb_spec x (- dx)), (Z.eqb_spec y dy), (Z.eqb_spec y (- dy)),
           (Z.eqb_spec x (Z.abs dx)), (Z.eqb_spec y (Z.abs dy)),
           (Z.eqb_spec dx 0), (Z.eqb_spec dy 0); cbn [andb map snd];
    try reflexivity; exfalso; lia.
Qed.

(** The calls of [addLight] that reach a tile of a well-formed grid, and
    what they leave on it. *)
Lemma addLight_by_contribution accumulate s center power layer j t :
  gridOk s ->
  sv_tiles s !! j = Some t ->
  lightOn layer (addLight_by accumulate center power layer s) j
  = Some (accumulated accumulate
            (lightCalls power (px (t_position t) - px center) (py (t_position t) - py center))
            (t_light t layer)).
Proof.
  intros Hgrid Ht.
  rewrite addLight_by_targets,
    (fold_applyLight_by_lightOn accumulate layer s _ s j (sameShape_refl s)).
  unfold lightOn at 1. rewrite Ht. cbn [fmap option_fmap option_map]. f_equal. f_equal.
  rewrite (List.filter_ext _ (fun pa => Position_eqb (fst pa) (t_position t)))
    by (intros pa; apply (hits_own s j t _ Hgrid Ht)).
  assert (0 <= pz (t_position t) <= sv_height s - 1) as Hz.
  { destruct Hgrid as [_ Hown]. pose proof (Hown j t Ht) as Hp.
    apply getTile_Some in Hp as (Hb & _). apply inBounds_spec in Hb. lia. }
  set (q := t_position t) in *.
  set (dx := px q - px center). set (dy := py q - py center).
  unfold lightTargets. rewrite filter_flat_map, flat_map_concat_map, concat_map, map_map.
  rewrite <- flat_map_concat_map.
  rewrite (flat_map_ext_in _
             (fun x => if x =? Z.abs dx
                       then (fun x => if Z.abs dy <=? power
                                      then repeat (power - lightDistance x (Z.abs dy))
                                                  (Z.to_nat (overlap dx dy))
                                      else []) x
                       else [])).
  - rewrite flat_map_single. unfold lightCalls.
    destruct (Z.leb_spec 0 (Z.abs dx)); [| lia]. cbn [andb].
    destruct (Z.abs dx <=? power), (Z.abs dy <=? power); reflexivity.
  - intros x Hx. apply zrange_In in Hx.
    rewrite filter_flat_map, flat_map_concat_map, concat_map, map_map.
    rewrite <- flat_map_concat_map.
    rewrite (flat_map_ext_in _
               (fun y => if y =? Z.abs dy
                         then (fun y => if x =? Z.abs dx
                                        then repeat (power - lightDistance x y)
                                                    (Z.to_nat (overlap dx dy))
                                        else []) y
                         else [])).
    + rewrite flat_map_single.
      destruct (Z.leb_spec 0 (Z.abs dy)); [| lia]. cbn [andb].
      destruct (Z.abs dy <=? power), (x =? Z.abs dx); reflexivity.
    + intros y Hy. apply zrange_In in Hy.
      rewrite filter_flat_map, flat_map_concat_map, concat_map, map_map.
      rewrite <- flat_map_concat_map.
      rewrite (flat_map_ext_in _
                 (fun z => if z =? pz q
                           then (fun _ => if (x =? Z.abs dx) && (y =? Z.abs dy)
                                          then repeat (power - lightDistance x y)
                                                      (Z.to_nat (overlap dx dy))
                                          else []) z
                           else []))
        by (intros z _; apply cell_calls; lia).
      rewrite flat_map_single.
      destruct (Z.leb_spec 0 (pz q)), (Z.leb_spec (pz q) (sv_height s - 1)); try lia.
      cbn [andb]. destruct (x =? Z.abs dx), (y =? Z.abs dy); reflexivity.
Qed.

Lemma sameShape_addLight_by accumulate center power layer s :
  sameShape s (addLight_by accumulate center power layer s).
Proof.
  rewrite addLight_by_targets. apply sameShape_fold_applyLight_by, sameShape_refl.
Qed.

(** X8.  After [addLight] the light of a tile of the map is its former
    light with [Tile::addLight] called [overlap dx dy] times on it with the
    falloff value of its offset from the centre, inside the square of
    half-width [power]; outside the square it is the former light. *)
Theorem addLight_by_lightAt :
  forall (accumulate : Z -> Z -> Z) (s : SavedBattleGame) (center : Position)
         (power layer : Z) (p : Position),
    gridOk s ->
    inBounds s p = true ->
    lightAt (addLight_by accumulate center power layer s) p layer
    = accumulated accumulate (lightCalls power (px p - px center) (py p - py center))
        <$> lightAt s p layer.
Proof.
  intros accumulate s center power layer p Hgrid Hb.
  destruct (getTile_in_grid s p (proj1 Hgrid) Hb) as [j Hj].
  pose proof (getTile_Some s _ j Hj) as (_ & _ & Hjlt).
  destruct (lookup_lt_is_Some_2 _ _ Hjlt) as [t Ht].
  pose proof (gridOk_position s p j t Hgrid Hj Ht) as Hpos.
  pose proof (addLight_by_contribution accumulate s center power layer j t Hgrid Ht) as Hc.
  rewrite Hpos in Hc. unfold lightAt.
  rewrite (getTile_shape s _ p (sameShape_addLight_by accumulate center power layer s)).
  rewrite Hj. cbn [tileAt]. unfold lightOn in Hc. rewrite Hc, Ht. reflexivity.
Qed.

(** X9.  [addLight] does not stop at the circle of radius [power]: for
    a power of 2 or more, the corner tiles of the square get one call of
    [Tile::addLight] with a negative amount. *)
Theorem addLight_by_corner :
  forall (accumulate : Z -> Z -> Z) (s : SavedBattleGame) (center : Position)
         (power layer : Z) (p : Position),
    gridOk s ->
    inBounds s p = true ->
    2 <= power ->
    Z.abs (px p - px center) = power ->
    Z.abs (py p - py center) = power ->
    lightAt (addLight_by accumulate center power layer s) p layer
    = (fun old => accumulate old (power - lightDistance power power)) <$> lightAt s p layer
    /\ power - lightDistance power power < 0.
Proof.
  intros accumulate s center power layer p Hgrid Hb Hpow Hdx Hdy.
  pose proof (lightDistance_diagonal power Hpow) as Hd.
  split; [| lia].
  destruct (getTile_in_grid s p (proj1 Hgrid) Hb) as [j Hj].
  pose proof (getTile_Some s _ j Hj) as (_ & _ & Hjlt).
  destruct (lookup_lt_is_Some_2 _ _ Hjlt) as [t Ht].
  pose proof (gridOk_position s p j t Hgrid Hj Ht) as Hpos.
  pose proof (addLight_by_contribution accumulate s center power layer j t Hgrid Ht) as Hc.
  rewrite Hpos in Hc. unfold lightCalls in Hc. rewrite Hdx, Hdy, Z.leb_refl in Hc.
  cbn [andb] in Hc. unfold overlap in Hc.
  destruct (Z.eqb_spec (px p - px center) 0) as [E | _];
    [rewrite E in Hdx; simpl in Hdx; lia |].
  destruct (Z.eqb_spec (py p - py center) 0) as [E | _];
    [rewrite E in Hdy; simpl in Hdy; lia |].
  unfold lightAt.
  rewrite (getTile_shape s _ p (sameShape_addLight_by accumulate center power layer s)).
  rewrite Hj. cbn [tileAt]. unfold lightOn in Hc. rewrite Hc, Ht. reflexivity.
Qed.

(** ** C1: [addLight] *)

Lemma accumulated_repeat accumulate a n old :
  (forall v b, accumulate (accumulate v b) b = accumulate v b) ->
  (0 < n)%nat ->
  accumulated accumulate (repeat a n) old = accumulate old a.
Proof.
  intros Hidem Hn. unfold accumulated.
  destruct n as [| n]; [lia |]. clear Hn. cbn [repeat fold_left].
  induction n as [| n IH]; [reflexivity |].
  cbn [repeat fold_left]. rewrite Hidem. exact IH.
Qed.

(** C1 (amended).  On a well-formed grid, for a power of 0 or more,
    [addLight] changes the layer of an in-bounds tile at horizontal offset
    [(dx, dy)] from the centre, with [|dx|] and [|dy|] at most the power, on
    whatever level of its column and with no occlusion test, only through
    [Tile::addLight], which it calls with the amount power - round(distance):
    the power itself at the centre.  The four mirrored calls of the quadrant
    loop fall 4 times on the column of the centre, twice on a column on one
    of the two axes through it and once on any other, so a tile holds what
    one such call leaves whenever repeating a [Tile::addLight] call with the
    same amount changes nothing, as when the tile keeps the highest value.
    How the amount combines with the value of the layer is left to
    [Tile::addLight]. *)
Theorem addLight_calls_by_offset :
  forall (accumulate : Z -> Z -> Z) (s : SavedBattleGame) (center : Position)
         (power layer : Z) (p : Position),
    gridOk s ->
    inBounds s p = true ->
    0 <= power ->
    Z.abs (px p - px center) <= power ->
    Z.abs (py p - py center) <= power ->
    let dx := px p - px center in
    let dy := py p - py center in
    let amount := power - lightDistance (Z.abs dx) (Z.abs dy) in
    lightAt (addLight_by accumulate center power layer s) p layer
    = accumulated accumulate (repeat amount (Z.to_nat (overlap dx dy))) <$> lightAt s p layer
    /\ overlap dx dy = (if dx =? 0 then 2 else 1) * (if dy =? 0 then 2 else 1)
    /\ (dx = 0 -> dy = 0 -> amount = power)
    /\ ((forall v b, accumulate (accumulate v b) b = accumulate v b) ->
        lightAt (addLight_by accumulate center power layer s) p layer
        = (fun old => accumulate old amount) <$> lightAt s p layer).
Proof.
  intros accumulate s center power layer p Hgrid Hb Hpow Hdx Hdy dx dy amount.
  assert (lightAt (addLight_by accumulate center power layer s) p layer
          = accumulated accumulate (repeat amount (Z.to_nat (overlap dx dy)))
              <$> lightAt s p layer) as Hlight.
  { destruct (getTile_in_grid s p (proj1 Hgrid) Hb) as [j Hj].
    pose proof (getTile_Some s _ j Hj) as (_ & _ & Hjlt).
    destruct (lookup_lt_is_Some_2 _ _ Hjlt) as [t Ht].
    pose proof (gridOk_position s p j t Hgrid Hj Ht) as Hpos.
    pose proof (addLight_by_contribution accumulate s center power layer j t Hgrid Ht) as Hc.
    rewrite Hpos in Hc. unfold lightCalls in Hc.
    apply Z.leb_le in Hdx, Hdy. rewrite Hdx, Hdy in Hc. cbn [andb] in Hc.
    unfold lightAt.
    rewrite (getTile_shape s _ p (sameShape_addLight_by accumulate center power layer s)).
    rewrite Hj. cbn [tileAt]. unfold lightOn in Hc. rewrite Hc, Ht. reflexivity. }
  split; [exact Hlight |]. split; [reflexivity |]. split.
  - intros Ex Ey. unfold amount. rewrite Ex, Ey. change (lightDistance (Z.abs 0) (Z.abs 0)) with 0.
    lia.
  - intros Hidem. rewrite Hlight.
    destruct (lightAt s p layer) as [old |]; [| reflexivity].
    cbn [fmap option_fmap option_map]. f_equal. apply accumulated_repeat; [exact Hidem |].
    unfold overlap. destruct (dx =? 0), (dy =? 0); simpl; lia.
Qed.

Lemma addLight_calls_by_offset_witness :
  let s := addLight_by Z.max (mkPosition 1 1 0) 2 1 (litSave 3 3 1 1) in
  lightAt s (mkPosition 1 1 0) 1
  = accumulated Z.max (repeat 2 (Z.to_nat (overlap 0 0)))
      <$> lightAt (litSave 3 3 1 1) (mkPosition 1 1 0) 1
  /\ overlap 0 0 = 4
  /\ lightAt s (mkPosition 1 1 0) 1 = Some (Z.max 1 2).
Proof.
  destruct (addLight_calls_by_offset Z.max (litSave 3 3 1 1) (mkPosition 1 1 0) 2 1
                                     (mkPosition 1 1 0))
    as (Hcalls & Hn & _ & Honce).
  - split; [reflexivity |]. intros i t Hi.
    do 9 (destruct i as [| i]; [injection Hi as <-; reflexivity |]). discriminate.
  - reflexivity.
  - lia.
  - simpl. lia.
  - simpl. lia.
  - split; [exact Hcalls |]. split; [exact Hn |].
    rewrite Honce by (intros v b; lia). reflexivity.
Defined.

(** C1 (counterexample).  [addLight] with power 2 at the centre (1,1,0)
    of a 3 x 3 x 1 grid, once with 0 and once with 1 on every tile.  The
    claim gives the axis neighbour (2,1,0) of the first grid 0 + 1 and the
    diagonal neighbour (2,2,0) 0 + 1 in the first grid and 1 + 1 in the
    second (both are at rounded distance 1).  No [Tile::addLight] yields
    the three: the diagonal tile, called once, fixes what the call makes of
    0 and of 1, and the axis tile is called twice. *)
Lemma addLight_never_adds_once :
  (forall accumulate : Z -> Z -> Z,
      lightAt (addLight_by accumulate (mkPosition 1 1 0) 2 1 (litSave 3 3 1 0))
              (mkPosition 2 1 0) 1 = Some (accumulate (accumulate 0 1) 1)
      /\ lightAt (addLight_by accumulate (mkPosition 1 1 0) 2 1 (litSave 3 3 1 0))
                 (mkPosition 2 2 0) 1 = Some (accumulate 0 1)
      /\ lightAt (addLight_by accumulate (mkPosition 1 1 0) 2 1 (litSave 3 3 1 1))
                 (mkPosition 2 2 0) 1 = Some (accumulate 1 1))
  /\ lightDistance 1 0 = 1 /\ lightDistance 1 1 = 1
  /\ ~ (exists accumulate : Z -> Z -> Z,
           lightAt (addLight_by accumulate (mkPosition 1 1 0) 2 1 (litSave 3 3 1 0))
                   (mkPosition 2 1 0) 1 = Some (0 + (2 - 1))
           /\ lightAt (addLight_by accumulate (mkPosition 1 1 0) 2 1 (litSave 3 3 1 0))
                      (mkPosition 2 2 0) 1 = Some (0 + (2 - 1))
           /\ lightAt (addLight_by accumulate (mkPosition 1 1 0) 2 1 (litSave 3 3 1 1))
                      (mkPosition 2 2 0) 1 = Some (1 + (2 - 1))).
Proof.
  assert (forall accumulate : Z -> Z -> Z,
      lightAt (addLight_by accumulate (mkPosition 1 1 0) 2 1 (litSave 3 3 1 0))
              (mkPosition 2 1 0) 1 = Some (accumulate (accumulate 0 1) 1)
      /\ lightAt (addLight_by accumulate (mkPosition 1 1 0) 2 1 (litSave 3 3 1 0))
                 (mkPosition 2 2 0) 1 = Some (accumulate 0 1)
      /\ lightAt (addLight_by accumulate (mkPosition 1 1 0) 2 1 (litSave 3 3 1 1))
                 (mkPosition 2 2 0) 1 = Some (accumulate 1 1)) as Hcalls
      by (intros accumulate; vm_compute; repeat split).
  split; [exact Hcalls |]. split; [reflexivity |]. split; [reflexivity |].
  intros (accumulate & Haxis & Hdiag & Hdiag').
  destruct (Hcalls accumulate) as (Ea & Ed & Ed').
  rewrite Ea in Haxis. rewrite Ed in Hdiag. rewrite Ed' in Hdiag'.
  injection Hdiag as Hd. injection Hdiag' as Hd'. injection Haxis as Ha.
  rewrite Hd in Ha. change (0 + (2 - 1)) with 1 in Ha. rewrite Hd' in Ha.
  discriminate Ha.
Qed.

Lemma sunShading_by_fold accumulate s i n :
  forall a s',
    lightOnlyChange 0 s s' ->
    lightOn 0 (fold_left (fun s j => calculateSunShading_tile_by accumulate j s) (seq a n) s') i
    = (fun v => if bool_decide (a <= i < a + n)%nat then accumulate v (sunPower s i) else v)
        <$> lightOn 0 s' i.
Proof.
  induction n as [| n IH]; intros a s' H; cbn [seq fold_left].
  - rewrite bool_decide_eq_false_2 by lia. unfold lightOn.
    destruct (sv_tiles s' !! i); reflexivity.
  - rewrite IH.
    + unfold calculateSunShading_tile_by, lightOn, onTile. cbn [sv_tiles setTiles].
      rewrite list_lookup_alter. rewrite (lightOnlyChange_sunPower _ _ _ a H).
      case_decide as Ha.
      * subst a. rewrite bool_decide_eq_false_2 by lia.
        rewrite bool_decide_eq_true_2 by lia.
        destruct (sv_tiles s' !! i); reflexivity.
      * destruct (sv_tiles s' !! i); cbn; [| reflexivity].
        repeat case_bool_decide; try lia; reflexivity.
    + apply lightOnlyChange_onTile; [| exact H].
      intros t t'. apply sameButLight_addLight.
Qed.

(** X10.  After the whole-terrain [calculateSunShading] every tile has
    had one call of [Tile::addLight] on layer 0, with 15 minus the global
    shade, and 2 less when the shade is at most 5 and there is a floor above
    the tile; the pass over all tiles gives each tile the value of the
    one-tile pass. *)
Theorem calculateSunShading_every_tile :
  forall (accumulate : Z -> Z -> Z) (s : SavedBattleGame) (i : nat) (t : Tile),
    gridOk s ->
    sv_tiles s !! i = Some t ->
    lightOn 0 (calculateSunShading_by accumulate s) i
    = Some (accumulate (t_light t 0)
                       (15 - sv_globalShade s
                        - (if (sv_globalShade s <=? 5) && floorAbove s (t_position t)
                           then 2 else 0)))
    /\ calculateSunShading s = calculateSunShading_by Z.add s.
Proof.
  intros accumulate s i t Hgrid Ht. split; [| reflexivity]. unfold calculateSunShading_by.
  rewrite (sunShading_by_fold accumulate s i (tileCount s) 0 s (lightOnlyChange_refl 0 s)).
  unfold lightOn. rewrite Ht. cbn. f_equal.
  rewrite bool_decide_eq_true_2.
  - f_equal. apply sunPower_formula; assumption.
  - destruct Hgrid as [Hlen _]. apply lookup_lt_Some in Ht. lia.
Qed.

(** ** [voxelCheck] and the armour-piercing [explode] *)

Lemma voxelCheck_parts_range vd tile voxel parts r :
  voxelCheck_parts vd tile voxel parts = Value r -> -1 <= r <= 3.
Proof.
  induction parts as [| i rest IH]; simpl.
  - intros [= <-]. lia.
  - destruct (getMapData tile i); [| exact IH].
    destruct (voxelAt vd _); [| discriminate].
    destruct (voxelBit _ _); [| exact IH].
    intros [= <-]. destruct i; simpl; lia.
Qed.

(** An answer of 4 or of a part number comes from an existing tile, and an
    answer of 4 from an existing unit on it that is not the excluded one and
    is taller than the voxel is high. *)
Lemma voxelCheck_hit vd s voxel excludeUnit r :
  voxelCheck vd s voxel excludeUnit = Value r ->
  -1 <= r <= 5
  /\ (r <> 5 -> exists i tile,
         getTile s (voxelTile voxel) = Some i /\ sv_tiles s !! i = Some tile
         /\ (r = 4 -> exists k u,
                t_unit tile = Some k /\ excludeUnit <> Some k /\ sv_units s !! k = Some u
                /\ Z.rem (pz voxel) 24 < unitHeight u)).
Proof.
  unfold voxelCheck.
  destruct (getTile s (voxelTile voxel)) as [i |] eqn:Hi; cbn [tileAt];
    [| intros [= <-]; split; [lia | contradiction]].
  destruct (sv_tiles s !! i) as [tile |] eqn:Htile;
    [| intros [= <-]; split; [lia | contradiction]].
  assert (voxelCheck_parts vd tile voxel [O_FLOOR; O_WESTWALL; O_NORTHWALL; O_OBJECT]
          = Value r ->
          -1 <= r <= 5
          /\ (r <> 5 -> exists i0 tile0,
                 Some i = Some i0 /\ sv_tiles s !! i0 = Some tile0
                 /\ (r = 4 -> exists k u,
                        t_unit tile0 = Some k /\ excludeUnit <> Some k
                        /\ sv_units s !! k = Some u
                        /\ Z.rem (pz voxel) 24 < unitHeight u))) as Hparts.
  { intros Hr. apply voxelCheck_parts_range in Hr. split; [lia |].
    intros _. exists i, tile. split; [reflexivity |]. split; [exact Htile | lia]. }
  unfold voxelCheck_unit.
  destruct (t_unit tile) as [k |] eqn:Hk; [| apply Hparts].
  destruct (optNatEqb (Some k) excludeUnit) eqn:Hex; [apply Hparts |].
  assert (excludeUnit <> Some k) as Hne.
  { intros ->. simpl in Hex. rewrite Nat.eqb_refl in Hex. discriminate. }
  destruct (sv_units s !! k) as [u |] eqn:Hu; [| discriminate].
  destruct (Z.ltb_spec (Z.rem (pz voxel) 24) (unitHeight u)) as [Hlt | Hge]; [| apply Hparts].
  destruct (voxelAt vd _) as [w | f]; [| discriminate].
  destruct (voxelBit w _); [| apply Hparts].
  intros [= <-]. split; [lia |]. intros _. exists i, tile.
  split; [reflexivity |]. split; [exact Htile |]. intros _. exists k, u. auto.
Qed.

(** X11.  [voxelCheck] answers -1, a tile part 0 to 3, 4 or 5; it
    answers 4 only for a unit that stands on the tile of the voxel, is not
    the excluded unit, and is taller than the voxel is high within the tile. *)
Theorem voxelCheck_answers :
  forall (vd : list Z) (s : SavedBattleGame) (voxel : Position) (excludeUnit : option nat),
    (forall r, voxelCheck vd s voxel excludeUnit = Value r -> -1 <= r <= 5)
    /\ (voxelCheck vd s voxel excludeUnit = Value 4 ->
        exists tile k u,
          tileAt s (getTile s (voxelTile voxel)) = Some tile
          /\ t_unit tile = Some k
          /\ excludeUnit <> Some k
          /\ sv_units s !! k = Some u
          /\ Z.rem (pz voxel) 24 < unitHeight u).
Proof.
  intros vd s voxel excludeUnit. split.
  - intros r Hr. apply voxelCheck_hit in Hr as [Hr _]. exact Hr.
  - intros Hr. apply voxelCheck_hit in Hr as [_ Hr].
    destruct Hr as (i & tile & Hi & Htile & Hunit); [lia |].
    destruct (Hunit eq_refl) as (k & u & Hk & Hne & Hu & Hh).
    exists tile, k, u. rewrite Hi. cbn [tileAt]. auto.
Qed.

Lemma explodeAP_runs :
  forall (E : Externals) (st : State E) (center : Position) (power : Z)
         (unitp : option nat) (r : Z),
    voxelCheck (_voxelData st) (_save st) center unitp = Value r ->
    exists st' evs,
      explodeAP E center power unitp st = Done tt st'
      /\ st_log st' = st_log st ++ evs
      /\ match evs with
         | [] => r = -1 \/ r = 5
         | [EvTileDamage i part _] =>
             getTile (_save st) (voxelTile center) = Some i /\ part = r /\ 0 <= r <= 3
         | [EvUnitDamage k relative _] =>
             r = 4
             /\ (exists i, getTile (_save st) (voxelTile center) = Some i
                           /\ standsOn k i (_save st))
             /\ relative = mkPosition (Z.rem (px center) 16) (Z.rem (py center) 16)
                                      (Z.rem (pz center) 24)
         | _ => False
         end.
Proof.
  intros E st center power unitp r Hr.
  pose proof (voxelCheck_hit _ _ _ _ _ Hr) as [Hrange Hhit].
  unfold explodeAP. unfold bind at 1. cbn [getVoxelData]. unfold bind at 1. cbn [getSave].
  unfold bind at 1. rewrite Hr. cbn [liftOutcome ret].
  destruct (Z.leb_spec 0 r) as [H0 | Hneg]; cbn [andb].
  - destruct (Z.leb_spec r 3) as [H3 | Hgt].
    + destruct Hhit as (i & tile & Hi & Htile & _); [lia |].
      rewrite Hi. unfold bind at 1. cbn [derefTile ret]. unfold bind at 1. unfold draw.
      destruct (rng_generate E _ _ (st_rng st)) as [dmg g'].
      eexists. exists [EvTileDamage i r dmg]. split; [reflexivity |].
      split; [reflexivity |]. auto.
    + destruct (Z.eqb_spec r 4) as [-> | Hne].
      * destruct Hhit as (i & tile & Hi & Htile & Hunit); [lia |].
        destruct (Hunit eq_refl) as (k & u & Hk & _ & Hu & _).
        rewrite Hi. unfold bind at 1. cbn [derefTile ret]. unfold bind at 1.
        unfold readTile. rewrite Htile, Hk. unfold bind at 1. unfold readUnit. rewrite Hu.
        unfold bind at 1. unfold draw.
        destruct (rng_generate E _ _ (st_rng st)) as [dmg g'].
        eexists. eexists [EvUnitDamage k _ dmg]. split; [reflexivity |].
        split; [reflexivity |]. split; [reflexivity |]. split; [| reflexivity].
        exists i. split; [reflexivity |]. unfold standsOn. rewrite Htile, <- Hk. reflexivity.
      * exists st, []. rewrite app_nil_r. split; [reflexivity |]. split; [reflexivity |].
        right. lia.
  - destruct (Z.eqb_spec r 4); [lia |].
    exists st, []. rewrite app_nil_r. split; [reflexivity |]. split; [reflexivity |].
    left. lia.
Qed.

(** X12.  Where [voxelCheck] answers, an armour-piercing [explode] makes
    at most one logged call: none for the answers -1 and 5, [damage] on the
    part hit of the tile of the voxel for 0 to 3, and [damage] on the unit
    standing on that tile, at the voxel's place within the tile, for 4.  Its
    armour-piercing branch returns. *)
Theorem explode_AP_single_call :
  forall (E : Externals) (st : State E) (center : Position) (power maxRadius : Z)
         (unitp : option nat) (r : Z),
    voxelCheck (_voxelData st) (_save st) center unitp = Value r ->
    exists st' evs,
      explodeAP E center power unitp st = Done tt st'
      /\ st_log (final (explode E center power DT_AP maxRadius unitp st)) = st_log st ++ evs
      /\ match evs with
         | [] => r = -1 \/ r = 5
         | [EvTileDamage i part _] =>
             getTile (_save st) (voxelTile center) = Some i /\ part = r /\ 0 <= r <= 3
         | [EvUnitDamage k relative _] =>
             r = 4
             /\ (exists i, getTile (_save st) (voxelTile center) = Some i
                           /\ standsOn k i (_save st))
             /\ relative = mkPosition (Z.rem (px center) 16) (Z.rem (py center) 16)
                                      (Z.rem (pz center) 24)
         | _ => False
         end.
Proof.
  intros E st center power maxRadius unitp r Hr.
  destruct (explodeAP_runs E st center power unitp r Hr) as (st' & evs & Hrun & Hlog & Hevs).
  exists st', evs. split; [exact Hrun |]. split; [| exact Hevs].
  assert (silent (calculateFOV_position E center ;;; calculateTerrainLighting E)) as Htail.
  { apply silent_bind; [apply calculateFOV_position_silent |].
    intros _. apply calculateTerrainLighting_silent. }
  unfold explode. unfold bind at 1. rewrite Hrun. rewrite (Htail st'). exact Hlog.
Qed.

(** ** [calculateLine]: the voxels of a line *)

Section LineFacts.
Variable vd : list Z.
Variable s : SavedBattleGame.
Variables swap_xy swap_xz : bool.
Variable ex : option nat.
Variables delta_x delta_y delta_z step_x step_y step_z : Z.

Local Abbreviation loop store :=
  (calculateLine_loop vd s swap_xy swap_xz store ex delta_x delta_y delta_z
                      step_x step_y step_z).

Lemma calculateLine_loop_step store n x y z drift_xy drift_xz trajectory :
  loop store (S n) x y z drift_xy drift_xz trajectory
  = let c := lineVoxel swap_xy swap_xz x y z in
    match (if store then match trajectory with
                         | Some tr => Value (Some (tr ++ [c]))
                         | None => Raise NullPointer
                         end
           else Value trajectory) with
    | Raise f => Raise f
    | Value trajectory =>
        match voxelCheck vd s c ex with
        | Raise f => Raise f
        | Value result =>
            if negb (result =? -1)
            then Value (result,
                        if negb store
                        then match trajectory with
                             | Some tr => Some (tr ++ [c])
                             | None => None
                             end
                        else trajectory)
            else
              loop store n (x + step_x)
                   (if drift_xy - delta_y <? 0 then y + step_y else y)
                   (if drift_xz - delta_z <? 0 then z + step_z else z)
                   (if drift_xy - delta_y <? 0 then drift_xy - delta_y + delta_x
                    else drift_xy - delta_y)
                   (if drift_xz - delta_z <? 0 then drift_xz - delta_z + delta_x
                    else drift_xz - delta_z)
                   trajectory
        end
    end.
Proof.
  unfold lineVoxel. cbn [calculateLine_loop].
  destruct swap_xz, swap_xy, store, trajectory; cbv zeta; cbv iota; cbv beta;
    try reflexivity;
    destruct (voxelCheck vd s _ ex) as [result | f]; try reflexivity;
    destruct (negb (result =? -1)); try reflexivity;
    destruct (drift_xy - delta_y <? 0), (drift_xz - delta_z <? 0); reflexivity.
Qed.

Lemma calculateLine_loop_stored n :
  forall x y z drift_xy drift_xz tr0 r tr,
    loop true n x y z drift_xy drift_xz (Some tr0) = Value (r, tr) ->
    exists pts,
      tr = Some (tr0 ++ pts)
      /\ (length pts <= n)%nat
      /\ (r = -1 -> length pts = n)
      /\ (pts <> [] -> head pts = Some (lineVoxel swap_xy swap_xz x y z)).
Proof.
  induction n as [| n IH]; intros x y z drift_xy drift_xz tr0 r tr.
  - cbn [calculateLine_loop]. intros [= <- <-]. exists []. rewrite app_nil_r.
    split; [reflexivity |]. split; [reflexivity |]. split; [reflexivity | contradiction].
  - rewrite calculateLine_loop_step. cbv zeta.
    destruct (voxelCheck vd s _ ex) as [result | f]; [| discriminate].
    destruct (Z.eqb_spec result (-1)) as [Hmiss | Hhit]; cbn [negb].
    + intros Hrun. apply IH in Hrun as (pts & -> & Hlen & Hall & Hhead).
      exists (lineVoxel swap_xy swap_xz x y z :: pts). rewrite <- app_assoc.
      split; [reflexivity |]. split; [cbn [length]; lia |].
      split; [intros Hr; cbn [length]; rewrite (Hall Hr); reflexivity | reflexivity].
    + intros [= <- <-]. exists [lineVoxel swap_xy swap_xz x y z].
      split; [reflexivity |]. split; [cbn [length]; lia |].
      split; [contradiction | reflexivity].
Qed.

Variables x0 y0 z0 : Z.
Hypothesis delta_y_le : 0 <= delta_y <= delta_x.
Hypothesis delta_z_le : 0 <= delta_z <= delta_x.

(** [c] is a voxel of the line: [k] steps along the longest axis, [j] and
    [j'] along the other two. *)
Local Abbreviation onLine c :=
  (exists k j j',
      c = lineVoxel swap_xy swap_xz (x0 + k * step_x) (y0 + j * step_y) (z0 + j' * step_z)
      /\ 0 <= k < delta_x /\ 0 <= j <= delta_y /\ 0 <= j' <= delta_z).


(** The invariant of Bresenham's loop: after [k] steps along the longest
    axis the line has made [j] steps along the second axis and [j'] along
    the third, and the two drifts say how far it is from the next ones. *)
Lemma calculateLine_loop_box n :
  forall k j j' drift_xy drift_xz q tr0 r tr,
    Z.of_nat n + k = delta_x -> 0 <= k -> 0 <= j -> 0 <= j' -> 0 <= q ->
    0 <= drift_xy < delta_x -> drift_xy + k * delta_y = q + j * delta_x ->
    0 <= drift_xz < delta_x -> drift_xz + k * delta_z = q + j' * delta_x ->
    loop true n (x0 + k * step_x) (y0 + j * step_y) (z0 + j' * step_z)
         drift_xy drift_xz (Some tr0) = Value (r, tr) ->
    exists pts,
      tr = Some (tr0 ++ pts)
      /\ Forall (fun c => exists k j j',
                     c = lineVoxel swap_xy swap_xz (x0 + k * step_x) (y0 + j * step_y)
                                   (z0 + j' * step_z)
                     /\ 0 <= k < delta_x /\ 0 <= j <= delta_y /\ 0 <= j' <= delta_z) pts.
Proof.
  induction n as [| n IH];
    intros k j j' drift_xy drift_xz q tr0 r tr Hn Hk Hj Hj' Hq Hxy Exy Hxz Exz.
  - cbn [calculateLine_loop]. intros [= <- <-]. exists []. rewrite app_nil_r. auto.
  - rewrite calculateLine_loop_step. cbv zeta.
    assert (j <= delta_y) as Hjle by nia.
    assert (j' <= delta_z) as Hjle' by nia.
    assert (exists k0 j0 j0',
               lineVoxel swap_xy swap_xz (x0 + k * step_x) (y0 + j * step_y) (z0 + j' * step_z)
               = lineVoxel swap_xy swap_xz (x0 + k0 * step_x) (y0 + j0 * step_y)
                           (z0 + j0' * step_z)
               /\ 0 <= k0 < delta_x /\ 0 <= j0 <= delta_y /\ 0 <= j0' <= delta_z) as Hhere
        by (exists k, j, j'; repeat split; lia).
    destruct (voxelCheck vd s _ ex) as [result | f]; [| discriminate].
    destruct (Z.eqb_spec result (-1)) as [Hmiss | Hhit]; cbn [negb].
    + intros Hrun.
      replace (x0 + k * step_x + step_x) with (x0 + (k + 1) * step_x) in Hrun by lia.
      replace (if drift_xy - delta_y <? 0 then y0 + j * step_y + step_y else y0 + j * step_y)
        with (y0 + (if drift_xy - delta_y <? 0 then j + 1 else j) * step_y) in Hrun
        by (destruct (drift_xy - delta_y <? 0); lia).
      replace (if drift_xz - delta_z <? 0 then z0 + j' * step_z + step_z else z0 + j' * step_z)
        with (z0 + (if drift_xz - delta_z <? 0 then j' + 1 else j') * step_z) in Hrun
        by (destruct (drift_xz - delta_z <? 0); lia).
      apply (IH _ _ _ _ _ q) in Hrun as (pts & -> & Hall);
        try (destruct (Z.ltb_spec (drift_xy - delta_y) 0),
               (Z.ltb_spec (drift_xz - delta_z) 0); lia).
      exists (lineVoxel swap_xy swap_xz (x0 + k * step_x) (y0 + j * step_y) (z0 + j' * step_z)
              :: pts).
      rewrite <- app_assoc. split; [reflexivity |]. constructor; assumption.
    + intros [= <- <-].
      exists [lineVoxel swap_xy swap_xz (x0 + k * step_x) (y0 + j * step_y) (z0 + j' * step_z)].
      split; [reflexivity |]. constructor; [assumption | constructor].
Qed.

Lemma calculateLine_loop_box_start n q tr0 r tr :
  Z.of_nat n = delta_x -> 0 <= q < delta_x ->
  loop true n x0 y0 z0 q q (Some tr0) = Value (r, tr) ->
  exists pts,
    tr = Some (tr0 ++ pts)
    /\ Forall (fun c => exists k j j',
                   c = lineVoxel swap_xy swap_xz (x0 + k * step_x) (y0 + j * step_y)
                                 (z0 + j' * step_z)
                   /\ 0 <= k < delta_x /\ 0 <= j <= delta_y /\ 0 <= j' <= delta_z) pts.
Proof.
  intros Hn Hq Hrun.
  apply (calculateLine_loop_box n 0 0 0 q q q tr0 r tr); try lia.
  replace (x0 + 0 * step_x) with x0 by lia.
  replace (y0 + 0 * step_y) with y0 by lia.
  replace (z0 + 0 * step_z) with z0 by lia.
  exact Hrun.
Qed.

(** What the loop does, step by step: it tests the voxels of the line in
    order; [misses] are the voxels that answered -1 before the loop ended,
    and a voxel with another answer ends it. *)
Lemma calculateLine_loop_tests store n :
  forall k j j' drift_xy drift_xz q tr0 r tr,
    Z.of_nat n + k = delta_x -> 0 <= k -> 0 <= j -> 0 <= j' -> 0 <= q ->
    0 <= drift_xy < delta_x -> drift_xy + k * delta_y = q + j * delta_x ->
    0 <= drift_xz < delta_x -> drift_xz + k * delta_z = q + j' * delta_x ->
    loop store n (x0 + k * step_x) (y0 + j * step_y) (z0 + j' * step_z)
         drift_xy drift_xz (Some tr0) = Value (r, tr) ->
    exists misses,
      Forall (fun c => voxelCheck vd s c ex = Value (-1) /\ onLine c) misses
      /\ (misses <> [] ->
          head misses = Some (lineVoxel swap_xy swap_xz (x0 + k * step_x) (y0 + j * step_y)
                                        (z0 + j' * step_z)))
      /\ ((r = -1 /\ length misses = n
           /\ tr = Some (tr0 ++ if store then misses else []))
          \/ (r <> -1 /\ (length misses < n)%nat
              /\ exists c,
                  voxelCheck vd s c ex = Value r /\ onLine c
                  /\ (misses = [] ->
                      c = lineVoxel swap_xy swap_xz (x0 + k * step_x) (y0 + j * step_y)
                                    (z0 + j' * step_z))
                  /\ tr = Some (tr0 ++ if store then misses ++ [c] else [c]))).
Proof.
  induction n as [| n IH];
    intros k j j' drift_xy drift_xz q tr0 r tr Hn Hk Hj Hj' Hq Hxy Exy Hxz Exz.
  - cbn [calculateLine_loop]. intros [= <- <-]. exists [].
    split; [constructor |]. split; [contradiction |]. left.
    split; [reflexivity |]. split; [reflexivity |]. destruct store; rewrite app_nil_r; reflexivity.
  - rewrite calculateLine_loop_step. cbv zeta.
    assert (j <= delta_y) as Hjle by nia.
    assert (j' <= delta_z) as Hjle' by nia.
    set (c := lineVoxel swap_xy swap_xz (x0 + k * step_x) (y0 + j * step_y)
                        (z0 + j' * step_z)).
    assert (onLine c) as Hhere by (exists k, j, j'; repeat split; lia).
    destruct store.
    + destruct (voxelCheck vd s c ex) as [result | f] eqn:Hvc; [| discriminate].
      destruct (Z.eqb_spec result (-1)) as [Hmiss | Hhit]; cbn [negb].
      * intros Hrun.
        replace (x0 + k * step_x + step_x) with (x0 + (k + 1) * step_x) in Hrun by lia.
        replace (if drift_xy - delta_y <? 0 then y0 + j * step_y + step_y else y0 + j * step_y)
          with (y0 + (if drift_xy - delta_y <? 0 then j + 1 else j) * step_y) in Hrun
          by (destruct (drift_xy - delta_y <? 0); lia).
        replace (if drift_xz - delta_z <? 0 then z0 + j' * step_z + step_z
                 else z0 + j' * step_z)
          with (z0 + (if drift_xz - delta_z <? 0 then j' + 1 else j') * step_z) in Hrun
          by (destruct (drift_xz - delta_z <? 0); lia).
        apply (IH _ _ _ _ _ q) in Hrun as (misses & Hall & _ & Hend);
          try (destruct (Z.ltb_spec (drift_xy - delta_y) 0),
                 (Z.ltb_spec (drift_xz - delta_z) 0); lia).
        exists (c :: misses). subst result.
        split; [constructor; [split; assumption | exact Hall] |].
        split; [reflexivity |].
        destruct Hend as [(-> & Hlen & ->) | (Hr & Hlen & c' & Hc' & Hon & _ & ->)].
        -- left. split; [reflexivity |]. split; [cbn [length]; lia |].
           rewrite <- app_assoc. reflexivity.
        -- right. split; [exact Hr |]. split; [cbn [length]; lia |].
           exists c'. split; [exact Hc' |]. split; [exact Hon |].
           split; [discriminate |]. rewrite <- app_assoc. reflexivity.
      * intros [= <- <-]. exists []. split; [constructor |]. split; [contradiction |].
        right. split; [exact Hhit |]. split; [cbn [length]; lia |].
        exists c. split; [exact Hvc |]. split; [exact Hhere |]. split; reflexivity.
    + destruct (voxelCheck vd s c ex) as [result | f] eqn:Hvc; [| discriminate].
      destruct (Z.eqb_spec result (-1)) as [Hmiss | Hhit]; cbn [negb].
      * intros Hrun.
        replace (x0 + k * step_x + step_x) with (x0 + (k + 1) * step_x) in Hrun by lia.
        replace (if drift_xy - delta_y <? 0 then y0 + j * step_y + step_y else y0 + j * step_y)
          with (y0 + (if drift_xy - delta_y <? 0 then j + 1 else j) * step_y) in Hrun
          by (destruct (drift_xy - delta_y <? 0); lia).
        replace (if drift_xz - delta_z <? 0 then z0 + j' * step_z + step_z
                 else z0 + j' * step_z)
          with (z0 + (if drift_xz - delta_z <? 0 then j' + 1 else j') * step_z) in Hrun
          by (destruct (drift_xz - delta_z <? 0); lia).
        apply (IH _ _ _ _ _ q) in Hrun as (misses & Hall & _ & Hend);
          try (destruct (Z.ltb_spec (drift_xy - delta_y) 0),
                 (Z.ltb_spec (drift_xz - delta_z) 0); lia).
        exists (c :: misses). subst result.
        split; [constructor; [split; assumption | exact Hall] |].
        split; [reflexivity |].
        destruct Hend as [(-> & Hlen & ->) | (Hr & Hlen & c' & Hc' & Hon & _ & ->)].
        -- left. split; [reflexivity |]. split; [cbn [length]; lia |]. reflexivity.
        -- right. split; [exact Hr |]. split; [cbn [length]; lia |].
           exists c'. split; [exact Hc' |]. split; [exact Hon |].
           split; [discriminate | reflexivity].
      * intros [= <- <-]. exists []. split; [constructor |]. split; [contradiction |].
        right. split; [exact Hhit |]. split; [cbn [length]; lia |].
        exists c. split; [exact Hvc |]. split; [exact Hhere |]. split; reflexivity.
Qed.

Lemma calculateLine_loop_tests_start store n q tr0 r tr :
  Z.of_nat n = delta_x -> 0 <= q < delta_x ->
  loop store n x0 y0 z0 q q (Some tr0) = Value (r, tr) ->
  exists misses,
    Forall (fun c => voxelCheck vd s c ex = Value (-1) /\ onLine c) misses
    /\ (misses <> [] -> head misses = Some (lineVoxel swap_xy swap_xz x0 y0 z0))
    /\ ((r = -1 /\ length misses = n
         /\ tr = Some (tr0 ++ if store then misses else []))
        \/ (r <> -1 /\ (length misses < n)%nat
            /\ exists c,
                voxelCheck vd s c ex = Value r /\ onLine c
                /\ (misses = [] -> c = lineVoxel swap_xy swap_xz x0 y0 z0)
                /\ tr = Some (tr0 ++ if store then misses ++ [c] else [c]))).
Proof.
  intros Hn Hq Hrun.
  assert (x0 + 0 * step_x = x0) as Ex by lia.
  assert (y0 + 0 * step_y = y0) as Ey by lia.
  assert (z0 + 0 * step_z = z0) as Ez by lia.
  pose proof (calculateLine_loop_tests store n 0 0 0 q q q tr0 r tr) as H.
  rewrite Ex, Ey, Ez in H. apply H; try lia. exact Hrun.
Qed.

End LineFacts.

(** X13.  [calculateLine] tests the voxels of the line in order, from the
    origin on: every voxel before the one that ends the line answered -1.
    If none is hit it answers -1 after one voxel for each step of the
    longest axis; otherwise it answers what [voxelCheck] answers on the
    voxel of impact.  All of them lie in the box of origin and target and
    none is the target.  When it stores the trajectory it appends every
    voxel tested, the voxel of impact last; when it does not, it appends
    the voxel of impact alone, and nothing when nothing is hit. *)
Theorem calculateLine_trajectory :
  forall (vd : list Z) (s : SavedBattleGame) (origin target : Position) (store : bool)
         (tr0 : list Position) (ex : option nat) (r : Z) (tr : option (list Position)),
    calculateLine vd s origin target store (Some tr0) ex = Value (r, tr) ->
    exists misses,
      Forall (fun c => voxelCheck vd s c ex = Value (-1)
                       /\ inBox origin target c /\ c <> target) misses
      /\ (misses <> [] -> head misses = Some origin)
      /\ ((r = -1 /\ Z.of_nat (length misses) = lineLength origin target
           /\ tr = Some (tr0 ++ if store then misses else []))
          \/ (r <> -1 /\ Z.of_nat (length misses) < lineLength origin target
              /\ exists c,
                  voxelCheck vd s c ex = Value r
                  /\ inBox origin target c /\ c <> target
                  /\ (misses = [] -> c = origin)
                  /\ tr = Some (tr0 ++ if store then misses ++ [c] else [c]))).
Proof.
  intros vd s [ox oy oz] [tx ty tz] store tr0 ex r tr.
  unfold calculateLine, lineLength. cbn [px py pz]. cbv zeta. cbv iota. cbv beta.
  destruct (Z.ltb_spec (Z.abs (tx - ox)) (Z.abs (ty - oy))) as [Hxy | Hxy];
    cbv iota; cbv beta;
    match goal with
    | |- context [Z.abs ?a <? Z.abs ?b] =>
        destruct (Z.ltb_spec (Z.abs a) (Z.abs b)) as [Hxz | Hxz]
    end; cbv iota; cbv beta;
    match goal with
    | |- calculateLine_loop _ _ ?sxy ?sxz _ _ ?dx ?dy ?dz ?sx ?sy ?sz _ ?x0 ?y0 ?z0 _ _ _ = _
         -> _ =>
        intros Hrun;
        destruct (Z.eq_dec dx 0) as [Hzero | Hpos];
        [ rewrite Hzero in Hrun; cbn [Z.to_nat calculateLine_loop] in Hrun;
          injection Hrun as <- <-; exists [];
          split; [apply Forall_nil |]; split; [contradiction |];
          left; split; [reflexivity |]; split; [cbn [length]; lia |];
          destruct store; rewrite app_nil_r; reflexivity
        | assert (0 <= dy <= dx) as Hdy by lia;
          assert (0 <= dz <= dx) as Hdz by lia;
          assert (0 <= Z.quot dx 2 < dx) as Hq
              by (split; [apply Z.quot_pos; lia | apply Z.quot_lt; lia]);
          apply (calculateLine_loop_tests_start vd s sxy sxz ex dx dy dz sx sy sz x0 y0 z0
                                                Hdy Hdz) in Hrun
            as (misses & Hall & Hhead & Hend); [| lia | exact Hq];
          assert (forall c,
                     (exists k j j',
                         c = lineVoxel sxy sxz (x0 + k * sx) (y0 + j * sy) (z0 + j' * sz)
                         /\ 0 <= k < dx /\ 0 <= j <= dy /\ 0 <= j' <= dz) ->
                     inBox (mkPosition ox oy oz) (mkPosition tx ty tz) c
                     /\ c <> mkPosition tx ty tz) as Hbox
              by (intros c (k & j & j' & -> & Hk & Hj & Hj');
                  unfold lineVoxel, inBox; cbv iota; cbv beta; cbn [px py pz];
                  repeat match goal with
                         | H : context [if ?a <? ?b then _ else _] |- _ =>
                             destruct (Z.ltb_spec a b)
                         | |- context [if ?a <? ?b then _ else _] => destruct (Z.ltb_spec a b)
                         end;
                  (split; [lia | intros [=]; lia]));
          exists misses;
          split; [eapply Forall_impl; [exact Hall |];
                  intros c [Hc Hon]; split; [exact Hc | exact (Hbox c Hon)] |];
          split; [exact Hhead |];
          destruct Hend as [(Hr & Hlen & Htr) | (Hr & Hlen & c & Hc & Hon & Hfirst & Htr)];
          [ left; split; [exact Hr |]; split; [lia | exact Htr]
          | right; split; [exact Hr |]; split; [lia |];
            exists c; split; [exact Hc |];
            destruct (Hbox c Hon) as [Hin Hne];
            split; [exact Hin |]; split; [exact Hne |]; split; [exact Hfirst | exact Htr] ] ]
    end.
Qed.

(** X14.  Every voxel that [calculateLine] stores lies in the box
    spanned by origin and target, and none of them is the target: the line
    ends one step short of it. *)
Theorem calculateLine_in_box :
  forall (vd : list Z) (s : SavedBattleGame) (origin target : Position)
         (tr0 : list Position) (ex : option nat) (r : Z) (pts : list Position),
    calculateLine vd s origin target true (Some tr0) ex = Value (r, Some (tr0 ++ pts)) ->
    Forall (fun c => inBox origin target c /\ c <> target) pts.
Proof.
  intros vd s [ox oy oz] [tx ty tz] tr0 ex r pts.
  unfold calculateLine. cbn [px py pz]. cbv zeta. cbv iota. cbv beta.
  destruct (Z.ltb_spec (Z.abs (tx - ox)) (Z.abs (ty - oy))) as [Hxy | Hxy];
    cbv iota; cbv beta;
    match goal with
    | |- context [Z.abs ?a <? Z.abs ?b] =>
        destruct (Z.ltb_spec (Z.abs a) (Z.abs b)) as [Hxz | Hxz]
    end; cbv iota; cbv beta;
    match goal with
    | |- calculateLine_loop _ _ ?sxy ?sxz _ _ ?dx ?dy ?dz ?sx ?sy ?sz _ ?x0 ?y0 ?z0 _ _ _ = _
         -> _ =>
        intros Hrun;
        destruct (Z.eq_dec dx 0) as [Hzero | Hpos];
        [ apply calculateLine_loop_stored in Hrun as (pts' & [= Hpts] & Hlen & _);
          apply app_inv_head in Hpts; subst pts';
          destruct pts; [apply Forall_nil | cbn [length] in Hlen; lia]
        | assert (0 <= dy <= dx) as Hdy by lia;
          assert (0 <= dz <= dx) as Hdz by lia;
          assert (0 <= Z.quot dx 2 < dx) as Hq
              by (split; [apply Z.quot_pos; lia | apply Z.quot_lt; lia]);
          apply (calculateLine_loop_box_start vd s sxy sxz ex dx dy dz sx sy sz x0 y0 z0
                                              Hdy Hdz) in Hrun
            as (pts' & [= Hpts] & Hall); [| lia | exact Hq];
          apply app_inv_head in Hpts; subst pts';
          eapply Forall_impl; [exact Hall |];
          intros c (k & j & j' & -> & Hk & Hj & Hj');
          unfold lineVoxel, inBox; cbv iota; cbv beta; cbn [px py pz];
          repeat match goal with
                 | H : context [if ?a <? ?b then _ else _] |- _ =>
                     destruct (Z.ltb_spec a b)
                 | |- context [if ?a <? ?b then _ else _] => destruct (Z.ltb_spec a b)
                 end;
          (split; [lia | intros [=]; lia]) ]
    end.
  all: exact I.
Qed.

(** ** [calculateFOV]: what it may change *)

Section FovFrame.
Variable E : Externals.
Variable P : SavedBattleGame -> Prop.
Variable unitp : nat.
Variable b : bool.
Hypothesis P_checked : forall j c s, P s -> P (onTile j (Tile_setChecked c) s).
Hypothesis P_discovered : b = true -> forall j s, P s -> P (onTile j (Tile_setDiscovered true) s).
Hypothesis P_clear : forall s, P s -> P (onUnit unitp clearVisibleUnits s).
Hypothesis P_sees :
  forall tile,
    preserves (fun s => P s /\ playerIs b unitp s) (checkForVisibleUnits E unitp tile).

Local Abbreviation inv := (fun s => P s /\ playerIs b unitp s).

Lemma playerIs_onTile j g s : playerIs b unitp s -> playerIs b unitp (onTile j g s).
Proof. exact (fun H => H). Qed.

Lemma playerIs_onUnit h s :
  (forall u, u_faction (h u) = u_faction u) ->
  playerIs b unitp s -> playerIs b unitp (onUnit unitp h s).
Proof.
  intros Hh H u. unfold onUnit. cbn [sv_units setUnits].
  rewrite list_lookup_alter, decide_True by reflexivity.
  destruct (sv_units s !! unitp) as [u0 |] eqn:Hu0; cbn; [| discriminate].
  intros [= <-]. rewrite Hh. apply H. exact Hu0.
Qed.

Lemma inv_checked j c : preserves (E := E) inv (modifySave (onTile j (Tile_setChecked c))).
Proof. apply preserves_modifySave. intros s [HP Hb]. split; [apply P_checked |]; assumption. Qed.

Lemma inv_discovered j :
  b = true -> preserves (E := E) inv (modifySave (onTile j (Tile_setDiscovered true))).
Proof.
  intros Hb. apply preserves_modifySave. intros s [HP Hp].
  split; [apply P_discovered |]; assumption.
Qed.

Lemma inv_clear : preserves (E := E) inv (modifySave (onUnit unitp clearVisibleUnits)).
Proof.
  apply preserves_modifySave. intros s [HP Hb]. split; [apply P_clear; exact HP |].
  apply playerIs_onUnit; [reflexivity | exact Hb].
Qed.

(** Reading the looking unit tells whether it is a player unit. *)
Lemma inv_readUnit {A} (f : BattleUnit -> M E A) :
  (forall u, factionEqb (u_faction u) FACTION_PLAYER = b -> preserves inv (f u)) ->
  preserves inv (bind (readUnit unitp) f).
Proof.
  intros Hf st [HP Hb]. unfold bind, readUnit.
  destruct (sv_units (_save st) !! unitp) as [u |] eqn:Hu; [| split; assumption].
  apply Hf; [apply Hb; exact Hu | split; assumption].
Qed.

Lemma fovReveal_inv dest tilePos : preserves inv (fovReveal E unitp dest tilePos).
Proof.
  unfold fovReveal.
  apply preserves_bind; [apply inv_checked | intros _].
  apply preserves_bind; [apply P_sees | intros _].
  apply inv_readUnit. intros u Hu.
  apply preserves_bind.
  { destruct (factionEqb (u_faction u) FACTION_PLAYER);
      [apply inv_discovered; symmetry; exact Hu | apply preserves_ret]. }
  intros _. apply inv_readUnit. intros u' Hu'.
  destruct (factionEqb (u_faction u') FACTION_PLAYER); [| apply preserves_ret].
  repeat first [ apply inv_discovered; symmetry; exact Hu' | preserves_step ].
Qed.

Lemma fovRay_inv n unitPos fi te l power_ origin :
  preserves inv (fovRay E n unitp unitPos fi te l power_ origin).
Proof.
  revert l power_ origin. induction n as [| n IH]; intros l power_ origin; simpl.
  - apply preserves_ret.
  - repeat first [ apply IH | apply fovReveal_inv | preserves_step ].
Qed.

Lemma fovSweep_inv unitPos : preserves inv (fovSweep E unitp unitPos).
Proof. unfold fovSweep. repeat first [ apply fovRay_inv | preserves_step ]. Qed.

Lemma fovPrologue_inv : preserves inv (fovPrologue E unitp).
Proof.
  unfold fovPrologue. apply inv_readUnit. intros u Hu.
  apply preserves_bind.
  - destruct (factionEqb (u_faction u) FACTION_PLAYER); [| apply preserves_ret].
    repeat first [ apply inv_discovered; symmetry; exact Hu | preserves_step ].
  - intros _. repeat first [ apply inv_clear | apply inv_checked | preserves_step ].
Qed.

Lemma calculateFOV_inv : preserves inv (calculateFOV E unitp).
Proof.
  unfold calculateFOV.
  apply preserves_bind; [apply preserves_readUnit | intros u].
  apply preserves_bind; [apply fovPrologue_inv | intros _; apply fovSweep_inv].
Qed.

End FovFrame.

(** [checkForVisibleUnits] keeps what adding to the visible set of the
    looking unit keeps. *)
Lemma checkForVisibleUnits_closed E (P : SavedBattleGame -> Prop) unitp b tile :
  (forall bu s, P s -> P (onUnit unitp (addToVisibleUnits bu) s)) ->
  preserves (fun s => P s /\ playerIs b unitp s) (checkForVisibleUnits E unitp tile).
Proof.
  intros Hv. unfold checkForVisibleUnits.
  repeat first [ apply preserves_modifySave; intros s [HP Hb];
                 (split; [apply Hv; exact HP
                         | apply playerIs_onUnit; [reflexivity | exact Hb]])
               | preserves_step ].
Qed.

(** What [calculateFOV] keeps for any unit: a property of the saved game that
    the flag writes and the visible-set writes of that unit keep. *)
Lemma calculateFOV_keeps E (P : SavedBattleGame -> Prop) unitp :
  (forall j c s, P s -> P (onTile j (Tile_setChecked c) s)) ->
  (forall j s, P s -> P (onTile j (Tile_setDiscovered true) s)) ->
  (forall s, P s -> P (onUnit unitp clearVisibleUnits s)) ->
  (forall bu s, P s -> P (onUnit unitp (addToVisibleUnits bu) s)) ->
  preserves P (calculateFOV E unitp).
Proof.
  intros Hc Hd Hcl Hv st HP.
  destruct (sv_units (_save st) !! unitp) as [u |] eqn:Hu.
  - apply (calculateFOV_inv E P unitp (factionEqb (u_faction u) FACTION_PLAYER)
                            Hc (fun _ => Hd) Hcl
                            (fun tile => checkForVisibleUnits_closed E P unitp _ tile Hv) st).
    split; [exact HP |]. intros u' Hu'. congruence.
  - unfold calculateFOV, bind, readUnit. rewrite Hu. exact HP.
Qed.

Lemma sameButFlags_refl t : sameButFlags t t.
Proof. destruct t; reflexivity. Qed.

Lemma sameButVisible_refl u : sameButVisible u u.
Proof. destruct u; reflexivity. Qed.

Lemma Forall2_refl_lookup {X} (R : X -> X -> Prop) l : (forall x, R x x) -> Forall2 R l l.
Proof. intros H. induction l; constructor; auto. Qed.

Lemma fovChange_refl s : fovChange s s.
Proof.
  repeat split; apply Forall2_refl_lookup;
    [apply sameButFlags_refl | apply sameButVisible_refl].
Qed.

Lemma fovChange_onTile s s' j g :
  (forall t t', sameButFlags t t' -> sameButFlags t (g t')) ->
  fovChange s s' -> fovChange s (onTile j g s').
Proof.
  intros Hg (Hw & Hl & Hh & Hsh & Hsd & Ht & Hu).
  repeat split; try assumption.
  unfold onTile. cbn [sv_tiles setTiles]. apply Forall2_alter_r; [exact Ht |].
  intros t t' _ _. apply Hg.
Qed.

Lemma fovChange_onUnit s s' k h :
  (forall u u', sameButVisible u u' -> sameButVisible u (h u')) ->
  fovChange s s' -> fovChange s (onUnit k h s').
Proof.
  intros Hg (Hw & Hl & Hh & Hsh & Hsd & Ht & Hu).
  repeat split; try assumption.
  unfold onUnit. cbn [sv_units setUnits]. apply Forall2_alter_r; [exact Hu |].
  intros u u' _ _. apply Hg.
Qed.

Lemma calculateFOV_fovChange E s0 unitp : preserves (fovChange s0) (calculateFOV E unitp).
Proof.
  apply calculateFOV_keeps.
  - intros j c s. apply fovChange_onTile. intros t t' ->. reflexivity.
  - intros j s. apply fovChange_onTile. intros t t' ->. reflexivity.
  - intros s. apply fovChange_onUnit. intros u u' ->. reflexivity.
  - intros bu s. apply fovChange_onUnit. intros u u' ->. reflexivity.
Qed.

(** X15.  The two [calculateFOV] change nothing of the saved game but
    the [discovered] and [checked] flags of tiles and the visible sets of
    units: the grid, the tile parts, fire, smoke, light and the place of
    every unit stay, whatever the collaborators do and also when the call
    stops on an error. *)
Theorem calculateFOV_changes_flags_only :
  forall (E : Externals) (st : State E) (unitp : nat) (position : Position),
    fovChange (_save st) (_save (final (calculateFOV E unitp st)))
    /\ fovChange (_save st) (_save (final (calculateFOV_position E position st))).
Proof.
  intros E st unitp position. split.
  - apply calculateFOV_fovChange, fovChange_refl.
  - assert (preserves (fovChange (_save st)) (calculateFOV_position E position)) as H.
    { unfold calculateFOV_position.
      repeat first [ apply calculateFOV_fovChange | preserves_step ]. }
    apply H, fovChange_refl.
Qed.

Lemma calculateFOV_discovered E i unitp :
  preserves (tileHas t_discovered i) (calculateFOV E unitp).
Proof.
  apply calculateFOV_keeps.
  - intros j c s. apply tileHas_onTile. intros t H. exact H.
  - intros j s. apply tileHas_onTile. intros t H. reflexivity.
  - intros s. apply tileHas_onUnit.
  - intros bu s. apply tileHas_onUnit.
Qed.

(** X16.  A tile that is discovered stays discovered through the two
    [calculateFOV]. *)
Theorem calculateFOV_never_hides :
  forall (E : Externals) (st : State E) (unitp : nat) (position : Position) (i : nat),
    tileHas t_discovered i (_save st) ->
    tileHas t_discovered i (_save (final (calculateFOV E unitp st)))
    /\ tileHas t_discovered i (_save (final (calculateFOV_position E position st))).
Proof.
  intros E st unitp position i Hd. split.
  - apply calculateFOV_discovered. exact Hd.
  - assert (preserves (tileHas t_discovered i) (calculateFOV_position E position)) as H.
    { unfold calculateFOV_position.
      repeat first [ apply calculateFOV_discovered | preserves_step ]. }
    apply H. exact Hd.
Qed.

(** X17.  [calculateFOV] for a unit that is not of the player faction
    leaves the [discovered] flag of every tile as it was. *)
Theorem calculateFOV_other_factions_discover_nothing :
  forall (E : Externals) (st : State E) (unitp : nat) (u : BattleUnit) (i : nat),
    sv_units (_save st) !! unitp = Some u ->
    u_faction u <> FACTION_PLAYER ->
    t_discovered <$> sv_tiles (_save (final (calculateFOV E unitp st))) !! i
    = t_discovered <$> sv_tiles (_save st) !! i.
Proof.
  intros E st unitp u i Hu Hf.
  pose (P := fun s : SavedBattleGame =>
               t_discovered <$> sv_tiles s !! i = t_discovered <$> sv_tiles (_save st) !! i).
  assert (forall j c s, P s -> P (onTile j (Tile_setChecked c) s)) as Hc.
  { intros j c s Hs. unfold P, onTile in *. cbn [sv_tiles setTiles].
    rewrite list_lookup_alter. case_decide; [subst j | exact Hs].
    rewrite <- Hs. destruct (sv_tiles s !! i); reflexivity. }
  apply (calculateFOV_inv E P unitp false Hc).
  - discriminate.
  - intros s Hs. exact Hs.
  - intros tile. apply checkForVisibleUnits_closed. intros bu s Hs. exact Hs.
  - split; [reflexivity |]. intros u' Hu'. rewrite Hu in Hu'. injection Hu' as <-.
    destruct (u_faction u); try reflexivity. contradiction.
Qed.

(** ** [calculateFOV]: whom it looks at *)

Lemma factionEqb_eq a b : factionEqb a b = true <-> a = b.
Proof. destruct a, b; simpl; split; intros H; try reflexivity; discriminate. Qed.

(** X18.  [calculateFOV] for a position leaves alone every unit whose
    faction is not the side that is playing, visible set included. *)
Theorem calculateFOV_position_skips_other_side :
  forall (E : Externals) (st : State E) (position : Position) (k : nat) (uk : BattleUnit),
    sv_units (_save st) !! k = Some uk ->
    u_faction uk <> sv_side (_save st) ->
    sv_units (_save (final (calculateFOV_position E position st))) !! k = Some uk.
Proof.
  intros E st position k uk Hk Hside.
  pose (P := fun s : SavedBattleGame =>
               sv_side s = sv_side (_save st) /\ sv_units s !! k = Some uk).
  assert (forall j g s, P s -> P (onTile j g s)) as Htile by (intros j g s H; exact H).
  assert (forall i h s, i <> k -> P s -> P (onUnit i h s)) as Hunit.
  { intros i h s Hne [Hs Hu]. split; [exact Hs |]. unfold onUnit. cbn [sv_units setUnits].
    rewrite list_lookup_alter, decide_False by exact Hne. exact Hu. }
  assert (preserves P (calculateFOV_position E position)) as H.
  { unfold calculateFOV_position.
    apply preserves_bind; [apply preserves_getSave | intros s0].
    apply preserves_forEach. intros i st' HP.
    unfold bind at 1. unfold readUnit.
    destruct (sv_units (_save st') !! i) as [u |] eqn:Hu; [| exact HP].
    unfold bind at 1. cbn [getSave].
    destruct (factionEqb (u_faction u) (sv_side (_save st'))) eqn:Hf; [| exact HP].
    assert (i <> k) as Hne.
    { intros ->. destruct HP as [Hs Hu']. rewrite Hu in Hu'. injection Hu' as ->.
      apply factionEqb_eq in Hf. congruence. }
    apply calculateFOV_keeps; auto. }
  apply H. split; [reflexivity | exact Hk].
Qed.

(** X19.  [checkForVisibleUnits] answers false and changes nothing on a
    tile without a unit, on a unit that is out, for a
    player unit looking at a player or neutral unit, and for a hostile unit
    looking at a hostile unit. *)
Theorem checkForVisibleUnits_ignores_friends :
  forall (E : Externals) (st : State E) (unitp tile : nat) (t : Tile),
    sv_tiles (_save st) !! tile = Some t ->
    (t_unit t = None -> checkForVisibleUnits E unitp tile st = Done false st)
    /\ (forall buIdx bu u,
           t_unit t = Some buIdx ->
           sv_units (_save st) !! buIdx = Some bu ->
           sv_units (_save st) !! unitp = Some u ->
           u_out bu = true
           \/ (u_faction u = FACTION_PLAYER
               /\ (u_faction bu = FACTION_PLAYER \/ u_faction bu = FACTION_NEUTRAL))
           \/ (u_faction u = FACTION_HOSTILE /\ u_faction bu = FACTION_HOSTILE) ->
           checkForVisibleUnits E unitp tile st = Done false st).
Proof.
  intros E st unitp tile t Ht. unfold checkForVisibleUnits, bind, readTile. rewrite Ht.
  split.
  - intros ->. reflexivity.
  - intros buIdx bu u -> Hbu Hu Hcase. unfold readUnit. rewrite Hbu.
    destruct (u_out bu) eqn:Hout; [reflexivity |]. rewrite Hu.
    destruct Hcase as [Ho | [[Hp [Hb | Hb]] | [Hp Hb]]];
      [discriminate | rewrite Hp, Hb; reflexivity ..].
Qed.

Lemma sv_units_fold_onTile g l s :
  sv_units (fold_left (fun s i => onTile i g s) l s) = sv_units s.
Proof.
  revert s. induction l as [| i l IH]; intros s; simpl; [reflexivity |].
  rewrite IH. reflexivity.
Qed.

Lemma fovChange_fold_onTile s0 g l s :
  (forall t t', sameButFlags t t' -> sameButFlags t (g t')) ->
  fovChange s0 s -> fovChange s0 (fold_left (fun s i => onTile i g s) l s).
Proof.
  intros Hg. revert s. induction l as [| i l IH]; intros s H; simpl; [exact H |].
  apply IH. apply fovChange_onTile; assumption.
Qed.

Lemma addToVisibleUnits_visible bu u :
  forall k, k ∈ u_visibleUnits (addToVisibleUnits bu u) -> k ∈ u_visibleUnits u \/ k = bu.
Proof.
  intros k. unfold addToVisibleUnits. cbn [u_visibleUnits].
  destruct (existsb (Nat.eqb bu) (u_visibleUnits u)); [auto |].
  rewrite elem_of_app, list_elem_of_singleton. tauto.
Qed.

(** What [checkForVisibleUnits] can do to the saved game: nothing, or add
    the unit on the tile, which is not out and which the looking unit takes
    for a target, to the visible set of the looking unit. *)
Lemma checkForVisibleUnits_cases E unitp tile (st : State E) (Q : SavedBattleGame -> Prop) :
  Q (_save st) ->
  (forall buIdx bu u,
      sv_units (_save st) !! buIdx = Some bu -> u_out bu = false ->
      sv_units (_save st) !! unitp = Some u ->
      targets (u_faction u) (u_faction bu) = true ->
      Q (onUnit unitp (addToVisibleUnits buIdx) (_save st))) ->
  Q (_save (final (checkForVisibleUnits E unitp tile st))).
Proof.
  intros Hst Hadd. unfold checkForVisibleUnits.
  unfold bind at 1. unfold readTile.
  destruct (sv_tiles (_save st) !! tile) as [t |]; [| exact Hst].
  destruct (t_unit t) as [buIdx |]; [| exact Hst].
  unfold bind at 1. unfold readUnit at 1.
  destruct (sv_units (_save st) !! buIdx) as [bu |] eqn:Hbu; [| exact Hst].
  destruct (u_out bu) eqn:Hout; [exact Hst |].
  unfold bind at 1. unfold readUnit at 1.
  destruct (sv_units (_save st) !! unitp) as [u |] eqn:Hu; [| exact Hst].
  destruct (factionEqb (u_faction u) FACTION_PLAYER
            && (factionEqb (u_faction bu) FACTION_PLAYER
                || factionEqb (u_faction bu) FACTION_NEUTRAL)) eqn:Hf1; [exact Hst |].
  destruct (factionEqb (u_faction u) FACTION_HOSTILE
            && factionEqb (u_faction bu) FACTION_HOSTILE) eqn:Hf2; [exact Hst |].
  unfold bind at 1. cbn [getSave].
  unfold bind at 1. destruct (getTile (_save st) (u_position bu)) as [buTile |]; [| exact Hst].
  cbn [derefTile ret]. unfold bind at 1. unfold readTile.
  destruct (sv_tiles (_save st) !! buTile) as [bt |]; [| exact Hst].
  unfold bind at 1. cbn [getVoxelData]. unfold bind at 1.
  destruct (calculateLine _ _ _ _ _ _ _) as [test | f]; [| exact Hst].
  cbn [liftOutcome ret].
  destruct ((fst test =? -1) || (fst test =? 4) && _); [| exact Hst].
  cbn [bind modifySave ret final _save].
  apply (Hadd buIdx bu u Hbu Hout eq_refl). unfold targets. rewrite Hf1, Hf2. reflexivity.
Qed.

Section TargetFacts.
Variable E : Externals.
Variable s0 : SavedBattleGame.
Variable unitp : nat.
Variable u0 : BattleUnit.
Hypothesis looker : sv_units s0 !! unitp = Some u0.

Local Abbreviation P := (fun s => fovChange s0 s /\ seesTargets s0 (u_faction u0) unitp s).

Lemma seesTargets_add s bu b :
  fovChange s0 s ->
  seesTargets s0 (u_faction u0) unitp s ->
  sv_units s0 !! bu = Some b -> u_out b = false ->
  targets (u_faction u0) (u_faction b) = true ->
  seesTargets s0 (u_faction u0) unitp (onUnit unitp (addToVisibleUnits bu) s).
Proof.
  intros Hfc Hsees Hb Hout Htar u. unfold onUnit. cbn [sv_units setUnits].
  rewrite list_lookup_alter, decide_True by reflexivity.
  destruct (sv_units s !! unitp) as [u1 |] eqn:Hu1; cbn; [| discriminate].
  intros [= <-]. apply Forall_forall. intros k Hk.
  apply addToVisibleUnits_visible in Hk as [Hk | ->].
  - exact (proj1 (Forall_forall _ _) (Hsees u1 Hu1) k Hk).
  - exists b. auto.
Qed.

Lemma checkForVisibleUnits_targets b tile :
  preserves (fun s => P s /\ playerIs b unitp s) (checkForVisibleUnits E unitp tile).
Proof.
  intros st [[Hfc Hsees] Hpl].
  apply (checkForVisibleUnits_cases E unitp tile st
           (fun s => P s /\ playerIs b unitp s)); [auto |].
  intros buIdx bu u Hbu Hout Hu Htar.
  destruct Hfc as (Hw & Hl & Hh & Hsh & Hsd & Ht & Hus).
  destruct (Forall2_lookup_r _ _ _ _ _ Hus Hbu) as (b0 & Hb0 & Hsame).
  destruct (Forall2_lookup_r _ _ _ _ _ Hus Hu) as (u0' & Hu0' & Hsame').
  rewrite looker in Hu0'. injection Hu0' as <-.
  assert (u_out b0 = false /\ u_faction b0 = u_faction bu) as [Hout0 Hfb].
  { rewrite Hsame in Hout. rewrite Hsame. cbn in *. auto. }
  assert (u_faction u0 = u_faction u) as Hfu by (rewrite Hsame'; reflexivity).
  split; [split |].
  - apply fovChange_onUnit; [| repeat split; assumption].
    intros v v' ->. reflexivity.
  - apply (seesTargets_add _ buIdx b0); auto; [repeat split; assumption |].
    rewrite Hfu, Hfb. exact Htar.
  - apply playerIs_onUnit; [reflexivity | exact Hpl].
Qed.

Lemma fovSweep_targets b unitPos :
  preserves (fun s => P s /\ playerIs b unitp s) (fovSweep E unitp unitPos).
Proof.
  apply (fovSweep_inv E (fun s => P s) unitp b).
  - intros j c s [Hfc Hsees]. split; [| exact Hsees].
    apply fovChange_onTile; [| exact Hfc]. intros t t' ->. reflexivity.
  - intros _ j s [Hfc Hsees]. split; [| exact Hsees].
    apply fovChange_onTile; [| exact Hfc]. intros t t' ->. reflexivity.
  - intros tile. apply checkForVisibleUnits_targets.
Qed.

End TargetFacts.

(** X20.  After [calculateFOV] the visible set of the unit holds only
    units that are not out and that a unit of its faction targets, whatever
    the set held before the call. *)
Theorem calculateFOV_sees_only_targets :
  forall (E : Externals) (st : State E) (unitp : nat) (u : BattleUnit),
    sv_units (_save st) !! unitp = Some u ->
    (u_faction u = FACTION_PLAYER -> is_Some (getTile (_save st) (u_position u))) ->
    seesTargets (_save st) (u_faction u) unitp (_save (final (calculateFOV E unitp st))).
Proof.
  intros E st unitp u Hu Hown.
  rewrite (calculateFOV_runs E st unitp u Hu Hown).
  apply (fovSweep_targets E (_save st) unitp u Hu (factionEqb (u_faction u) FACTION_PLAYER)).
  cbn [_save]. unfold prologueSave.
  set (s1 := if factionEqb (u_faction u) FACTION_PLAYER
             then onTileAt (u_position u) (Tile_setDiscovered true) (_save st)
             else _save st).
  assert (fovChange (_save st) s1 /\ sv_units s1 = sv_units (_save st)) as [Hfc1 Hu1].
  { subst s1. destruct (factionEqb _ _); [| split; [apply fovChange_refl | reflexivity]].
    unfold onTileAt. destruct (getTile _ _); [| split; [apply fovChange_refl | reflexivity]].
    split; [| reflexivity]. apply fovChange_onTile; [| apply fovChange_refl].
    intros t t' ->. reflexivity. }
  assert (sv_units (onUnit unitp clearVisibleUnits s1) !! unitp = Some (clearVisibleUnits u))
    as Hcleared.
  { unfold onUnit. cbn [sv_units setUnits].
    rewrite list_lookup_alter, decide_True by reflexivity. rewrite Hu1, Hu. reflexivity. }
  split; [split |].
  - apply fovChange_fold_onTile; [intros t t' ->; reflexivity |].
    apply fovChange_onUnit; [intros v v' ->; reflexivity | exact Hfc1].
  - intros u'. rewrite sv_units_fold_onTile, Hcleared. intros [= <-]. constructor.
  - intros u'. rewrite sv_units_fold_onTile, Hcleared. intros [= <-]. reflexivity.
Qed.

(** ** Doors and items: facing, the edge of the map, and gravity *)

(** X21.  A unit that faces a diagonal, or holds a direction outside 0
    to 7, opens no door: [unitOpensDoor] answers -1 and changes nothing. *)
Theorem unitOpensDoor_needs_cardinal_facing :
  forall (E : Externals) (st : State E) (unitp : nat) (u : BattleUnit),
    sv_units (_save st) !! unitp = Some u ->
    u_direction u <> 0 -> u_direction u <> 2 -> u_direction u <> 4 -> u_direction u <> 6 ->
    unitOpensDoor E unitp st = Done (-1) st.
Proof.
  intros E st unitp u Hu H0 H2 H4 H6.
  unfold unitOpensDoor. unfold bind at 1. unfold readUnit. rewrite Hu.
  unfold bind at 1. cbn [getSave].
  apply Z.eqb_neq in H0, H2, H4, H6. rewrite H0, H2, H4, H6.
  reflexivity.
Qed.

(** X22.  Facing east or south, [unitOpensDoor] tries the tile ahead
    only; where that tile is off the map it answers -1 and changes nothing. *)
Theorem unitOpensDoor_at_map_edge :
  forall (E : Externals) (st : State E) (unitp : nat) (u : BattleUnit) (own : nat)
         (tl : Tile) (off : Position),
    sv_units (_save st) !! unitp = Some u ->
    getTile (_save st) (u_position u) = Some own ->
    sv_tiles (_save st) !! own = Some tl ->
    (u_direction u = 2 /\ off = mkPosition 1 0 0)
    \/ (u_direction u = 4 /\ off = mkPosition 0 (-1) 0) ->
    getTile (_save st) (Position_add (t_position tl) off) = None ->
    unitOpensDoor E unitp st = Done (-1) st.
Proof.
  intros E st unitp u own tl off Hu Hown Htl Hdir Hnone.
  unfold unitOpensDoor. unfold bind at 1. unfold readUnit. rewrite Hu.
  unfold bind at 1. cbn [getSave]. rewrite Hown.
  destruct Hdir as [[Hd ->] | [Hd ->]]; rewrite Hd; cbn [Z.eqb Pos.eqb];
    unfold bind, derefTile, ret, readTile; rewrite Htl, Hnone; reflexivity.
Qed.

Section LandingFacts.
Variable E : Externals.

(** The falling loop of [spawnItem] stops in the start column, on the
    highest level at or below the start that has a floor, or on the ground. *)
Lemma spawnItem_fall_lands n :
  forall p (st : State E),
    length (sv_tiles (_save st)) = tileCount (_save st) ->
    inBounds (_save st) p = true ->
    (Z.to_nat (pz p) <= n)%nat ->
    exists z',
      spawnItem_fall E n p st = Done (mkPosition (px p) (py p) z') st
      /\ 0 <= z' <= pz p
      /\ (hasFloor (_save st) (mkPosition (px p) (py p) z') = true \/ z' = 0)
      /\ forall z, z' < z <= pz p -> hasFloor (_save st) (mkPosition (px p) (py p) z) = false.
Proof.
  induction n as [| n IH]; intros p st Hlen Hb Hn.
  - destruct (getTile_in_grid _ p Hlen Hb) as [i Hi].
    pose proof (getTile_Some _ _ _ Hi) as (_ & _ & Hlt).
    destruct (lookup_lt_is_Some_2 _ _ Hlt) as [t Ht].
    pose proof Hb as Hb'. apply inBounds_spec in Hb' as (_ & _ & Hz).
    assert (pz p = 0) as Hz0 by lia.
    exists (pz p). simpl. unfold bind, readTile. cbn [getSave]. rewrite Hi.
    cbn [derefTile ret]. rewrite Ht.
    destruct p as [x y z]. cbn [px py pz] in *.
    split; [destruct (getMapData t O_FLOOR); [reflexivity |];
            destruct (0 <? z); reflexivity |].
    split; [lia |]. split; [right; exact Hz0 | intros z1 Hz1; lia].
  - destruct (getTile_in_grid _ p Hlen Hb) as [i Hi].
    pose proof (getTile_Some _ _ _ Hi) as (_ & _ & Hlt).
    destruct (lookup_lt_is_Some_2 _ _ Hlt) as [t Ht].
    pose proof Hb as Hb'. apply inBounds_spec in Hb' as (Hx & Hy & Hz).
    simpl. unfold bind at 1. cbn [getSave]. rewrite Hi. unfold bind at 1. cbn [derefTile ret].
    unfold bind at 1. unfold readTile. rewrite Ht.
    assert (hasFloor (_save st) p = bool_decide (is_Some (getMapData t O_FLOOR))) as Hfl.
    { unfold hasFloor. rewrite Hi. cbn [tileAt]. rewrite Ht. reflexivity. }
    destruct p as [x y z]. cbn [px py pz] in *.
    destruct (getMapData t O_FLOOR) as [mp |] eqn:Hmp.
    + exists z. split; [reflexivity |]. split; [lia |].
      split; [left; rewrite Hfl; apply bool_decide_eq_true_2; eauto | intros z1 Hz1; lia].
    + assert (hasFloor (_save st) (mkPosition x y z) = false) as Hno.
      { rewrite Hfl. apply bool_decide_eq_false_2. intros [mp Hmp']. discriminate. }
      destruct (Z.ltb_spec 0 z) as [Hpos | Hzero].
      * destruct (IH (mkPosition x y (z - 1)) st Hlen) as (z' & Hrun & Hz' & Hland & Habove).
        { apply inBounds_spec. cbn [px py pz]. lia. }
        { cbn [pz]. lia. }
        cbn [px py pz] in *. exists z'. split; [exact Hrun |]. split; [lia |].
        split; [exact Hland |]. intros z1 Hz1.
        destruct (Z.eq_dec z1 z) as [-> | Hne]; [exact Hno | apply Habove; lia].
      * exists z. split; [reflexivity |]. split; [lia |].
        split; [right; lia | intros z1 Hz1; lia].
Qed.

End LandingFacts.

(** X23.  [spawnItem] on a position of the map puts the item on the
    first tile with a floor at or below the position, in the same column, or
    on level 0 when there is none, and on no other tile. *)
Theorem spawnItem_lands :
  forall (E : Externals) (st : State E) (position : Position) (item : nat),
    length (sv_tiles (_save st)) = tileCount (_save st) ->
    inBounds (_save st) position = true ->
    exists z' i,
      getTile (_save st) (mkPosition (px position) (py position) z') = Some i
      /\ 0 <= z' <= pz position
      /\ (hasFloor (_save st) (mkPosition (px position) (py position) z') = true \/ z' = 0)
      /\ (forall z, z' < z <= pz position ->
                    hasFloor (_save st) (mkPosition (px position) (py position) z) = false)
      /\ spawnItem E position item st
         = Done tt (mkState (onTile i (tile_addItem E item) (_save st)) (_voxelData st)
                            (st_rng st) (st_log st ++ [EvAddItem i item])).
Proof.
  intros E st position item Hlen Hb.
  destruct (spawnItem_fall_lands E (Z.to_nat (pz position)) position st Hlen Hb)
    as (z' & Hrun & Hz' & Hland & Habove); [lia |].
  destruct (getTile_in_grid (_save st) (mkPosition (px position) (py position) z') Hlen)
    as [i Hi].
  { apply inBounds_spec in Hb. apply inBounds_spec. cbn [px py pz]. lia. }
  exists z', i. split; [exact Hi |]. split; [exact Hz' |]. split; [exact Hland |].
  split; [exact Habove |].
  unfold spawnItem. unfold bind at 1. rewrite Hrun. unfold bind at 1. cbn [getSave].
  rewrite Hi. reflexivity.
Qed.

(** X24.  [spawnItem] on a position off the map stops on a null
    pointer and adds no item. *)
Theorem spawnItem_off_map :
  forall (E : Externals) (st : State E) (position : Position) (item : nat),
    getTile (_save st) position = None ->
    spawnItem E position item st = Crash NullPointer st.
Proof.
  intros E st position item Hnone. unfold spawnItem. unfold bind at 1.
  assert (forall n, spawnItem_fall E n position st = Crash NullPointer st) as ->.
  { intros [| n]; simpl; unfold bind; cbn [getSave]; rewrite Hnone; reflexivity. }
  reflexivity.
Qed.

(** ** [prepareNewTurn]: the calls on each tile *)

Lemma tilesWhere_none p s :
  Forall (fun t => p t = false) (sv_tiles s) -> tilesWhere p s = [].
Proof.
  intros H. unfold tilesWhere.
  induction (seq 0 (tileCount s)) as [| i l IH]; [reflexivity |]. cbn [List.filter].
  destruct (sv_tiles s !! i) as [t |] eqn:Ht; [| exact IH].
  rewrite (proj1 (Forall_lookup _ _) H i t Ht). exact IH.
Qed.

(** X25.  On a map without fire [prepareNewTurn] draws no random
    number and ignites nothing: it calls [Tile::prepareNewTurn] once on each
    tile with smoke, in index order, and nothing else. *)
Theorem prepareNewTurn_without_fire :
  forall (E : Externals) (st : State E),
    Forall (fun t => t_fire t <= 0) (sv_tiles (_save st)) ->
    prepareNewTurn E st
    = Done tt (mkState
                 (fold_left (fun s i => onTile i (tile_prepareNewTurn E) s)
                            (tilesWhere (fun t => 0 <? t_smoke t) (_save st)) (_save st))
                 (_voxelData st) (st_rng st)
                 (st_log st
                  ++ map EvPrepareNewTurn (tilesWhere (fun t => 0 <? t_smoke t) (_save st)))).
Proof.
  intros E st Hfire. unfold prepareNewTurn. unfold bind at 1. cbn [getSave].
  rewrite (tilesWhere_none (fun t => 0 <? t_fire t)).
  - unfold bind at 1. rewrite forEach_callTile. reflexivity.
  - eapply Forall_impl; [exact Hfire |]. intros t Ht. apply Z.ltb_ge. exact Ht.
Qed.

Lemma turnCalls_app i l1 l2 : turnCalls i (l1 ++ l2) = (turnCalls i l1 + turnCalls i l2)%nat.
Proof. unfold turnCalls. rewrite List.filter_app, length_app. reflexivity. Qed.

Lemma turnCalls_map i l :
  turnCalls i (map EvPrepareNewTurn l) = length (List.filter (fun j => Nat.eqb j i) l).
Proof.
  unfold turnCalls. induction l as [| j l IH]; [reflexivity |]. cbn [map List.filter].
  destruct (Nat.eqb j i); cbn [length]; rewrite IH; reflexivity.
Qed.

Lemma turnCalls_ignites i evs :
  Forall (fun e => isIgnite e = true) evs -> turnCalls i evs = 0%nat.
Proof.
  unfold turnCalls. induction 1 as [| e evs He _ IH]; [reflexivity |]. cbn [List.filter].
  destruct e; try discriminate. exact IH.
Qed.

Lemma turnCalls_fireCalls i l :
  forall segs,
    length segs = length l ->
    Forall (Forall (fun e => isIgnite e = true)) segs ->
    turnCalls i (fireCalls l segs) = length (List.filter (fun j => Nat.eqb j i) l).
Proof.
  induction l as [| j l IH]; intros [| evs segs] Hlen Hall; try discriminate; [reflexivity |].
  apply Forall_cons_1 in Hall as [Hevs Hall]. unfold fireCalls in *. cbn [zip_with concat].
  rewrite !turnCalls_app, (turnCalls_ignites _ _ Hevs), IH by (auto with arith).
  unfold turnCalls at 1. cbn [List.filter]. destruct (Nat.eqb j i); reflexivity.
Qed.

Lemma count_tilesWhere p s i t :
  sv_tiles s !! i = Some t -> (i < tileCount s)%nat ->
  length (List.filter (fun j => Nat.eqb j i) (tilesWhere p s)) = if p t then 1%nat else 0%nat.
Proof.
  intros Ht Hi. unfold tilesWhere.
  assert (forall n a,
             length (List.filter (fun j => Nat.eqb j i)
                       (List.filter (fun j => match sv_tiles s !! j with
                                              | Some t => p t
                                              | None => false
                                              end) (seq a n)))
             = if bool_decide (a <= i < a + n)%nat then (if p t then 1%nat else 0%nat)
               else 0%nat) as H.
  { induction n as [| n IH]; intros a; cbn [seq List.filter].
    - rewrite bool_decide_eq_false_2 by lia. reflexivity.
    - destruct (Nat.eq_dec a i) as [-> | Hne].
      + rewrite Ht. rewrite bool_decide_eq_true_2 by lia.
        destruct (p t); cbn [List.filter]; [rewrite Nat.eqb_refl; cbn [length] |];
          rewrite IH, bool_decide_eq_false_2 by lia; reflexivity.
      + destruct (match sv_tiles s !! a with Some t0 => p t0 | None => false end);
          cbn [List.filter];
          [rewrite (proj2 (Nat.eqb_neq a i) Hne) |];
          rewrite IH; repeat case_bool_decide; try lia; reflexivity. }
  rewrite H, bool_decide_eq_true_2 by lia. reflexivity.
Qed.

(** X26.  [prepareNewTurn] calls [Tile::prepareNewTurn] on a tile once
    for its smoke and once more for its fire: twice on a tile with both, not
    at all on a tile with neither. *)
Theorem prepareNewTurn_calls_per_tile :
  forall (E : Externals) (st : State E) (i : nat) (t : Tile),
    sv_tiles (_save st) !! i = Some t ->
    (i < tileCount (_save st))%nat ->
    exists evs,
      st_log (final (prepareNewTurn E st)) = st_log st ++ evs
      /\ turnCalls i evs
         = Nat.add (if 0 <? t_smoke t then 1%nat else 0%nat)
                   (if 0 <? t_fire t then 1%nat else 0%nat).
Proof.
  intros E st i t Ht Hi.
  unfold prepareNewTurn. unfold bind at 1. cbn [getSave].
  set (burning := tilesWhere (fun t => 0 <? t_fire t) (_save st)).
  set (smoking := tilesWhere (fun t => 0 <? t_smoke t) (_save st)).
  unfold bind at 1.
  rewrite (forEach_callTile smoking (tile_prepareNewTurn E) EvPrepareNewTurn st).
  match goal with
  | |- context [bind (forEach burning (spreadFire E)) _ ?s1] =>
      destruct (fireLoop_runs E burning s1) as (segs & st2 & Hrun & Hn & Hsegs & Hlog)
  end.
  { intros j Hj. cbn [_save]. rewrite length_fold_onTile. apply (tilesWhere_lt _ _ _ Hj). }
  exists (map EvPrepareNewTurn smoking ++ fireCalls burning segs). split.
  - unfold bind at 1. rewrite Hrun.
    assert (silent (if bool_decide (0 < length burning)%nat
                    then calculateTerrainLighting E else ret tt)) as Hsilent
        by (destruct (bool_decide _);
            [apply calculateTerrainLighting_silent | apply silent_ret]).
    rewrite (Hsilent st2), Hlog. cbn [st_log]. rewrite <- app_assoc. reflexivity.
  - rewrite turnCalls_app, turnCalls_map, (turnCalls_fireCalls i burning segs Hn Hsegs).
    subst smoking burning. rewrite !(count_tilesWhere _ _ i t Ht Hi). reflexivity.
Qed.

(** ** [explode]: the calls of each damage type *)

Section LogKinds.
Variable E : Externals.
Variable ok : Event -> bool.

Lemma logsOnly_silent {A} (m : M E A) : silent m -> logsOnly ok m.
Proof. intros H st. exists []. rewrite app_nil_r. split; [apply H | constructor]. Qed.

Lemma logsOnly_bind {A B} (m : M E A) (k : A -> M E B) :
  logsOnly ok m -> (forall a, logsOnly ok (k a)) -> logsOnly ok (bind m k).
Proof.
  intros Hm Hk st. unfold bind. destruct (Hm st) as (evs & Hlog & Hevs).
  destruct (m st) as [a st' | f st']; cbn [final] in *.
  - destruct (Hk a st') as (evs' & Hlog' & Hevs'). exists (evs ++ evs').
    rewrite Hlog', Hlog, app_assoc. split; [reflexivity | apply Forall_app; auto].
  - exists evs. auto.
Qed.

Lemma logsOnly_forEach {X} (l : list X) (body : X -> M E unit) :
  (forall x, logsOnly ok (body x)) -> logsOnly ok (forEach l body).
Proof.
  intros Hb. induction l as [| x l IH]; simpl.
  - apply logsOnly_silent, silent_ret.
  - apply logsOnly_bind; [apply Hb | intros _; exact IH].
Qed.

Lemma logsOnly_callTile i g e : ok e = true -> logsOnly ok (callTile E i g e).
Proof.
  intros He st. exists [e]. split; [reflexivity | constructor; [exact He | constructor]].
Qed.

End LogKinds.

Ltac logs_step :=
  lazymatch goal with
  | |- logsOnly _ (bind _ _) => apply logsOnly_bind; [| intros ?]
  | |- logsOnly _ (callTile _ _ _ _) => apply logsOnly_callTile; reflexivity
  | |- logsOnly _ (forEach _ _) => apply logsOnly_forEach; intros ?
  | |- logsOnly _ (if ?b then _ else _) => destruct b
  | |- logsOnly _ (match ?x with _ => _ end) => destruct x
  | |- logsOnly _ _ => apply logsOnly_silent; repeat silent_step
  end.

Section BlastKinds.
Variable E : Externals.

Lemma blastRay_smoke n center maxRadius te :
  forall l power_ origin,
    logsOnly isAddSmoke (blastRay E n center DT_SMOKE maxRadius te l power_ origin).
Proof.
  induction n as [| n IH]; intros l power_ origin; simpl.
  - apply logsOnly_silent, silent_ret.
  - unfold blastTile. repeat first [ apply IH | logs_step ].
Qed.

Lemma blastRay_incendiary n center maxRadius te :
  forall l power_ origin,
    logsOnly isIgnite (blastRay E n center DT_IN maxRadius te l power_ origin).
Proof.
  induction n as [| n IH]; intros l power_ origin; simpl.
  - apply logsOnly_silent, silent_ret.
  - unfold blastTile. repeat first [ apply IH | logs_step ].
Qed.

Lemma blastRay_inert type n center maxRadius te :
  type = DT_STUN \/ type = DT_NONE ->
  forall l power_ origin, silent (blastRay E n center type maxRadius te l power_ origin).
Proof.
  intros Htype. induction n as [| n IH]; intros l power_ origin; simpl.
  - apply silent_ret.
  - unfold blastTile. destruct Htype as [-> | ->]; repeat first [ apply IH | silent_step ].
Qed.

Lemma explode_tail_silent center :
  silent (calculateFOV_position E center ;;; calculateTerrainLighting E).
Proof.
  apply silent_bind; [apply calculateFOV_position_silent |].
  intros _. apply calculateTerrainLighting_silent.
Qed.

End BlastKinds.

(** X27.  The calls of [explode] that the log records, by damage type:
    a smoke explosion makes only [addSmoke] calls, an incendiary one only
    [ignite] calls, and a stun or untyped one none at all. *)
Theorem explode_effects_by_type :
  forall (E : Externals) (center : Position) (power maxRadius : Z) (unitp : option nat),
    logsOnly isAddSmoke (explode E center power DT_SMOKE maxRadius unitp)
    /\ logsOnly isIgnite (explode E center power DT_IN maxRadius unitp)
    /\ silent (explode E center power DT_STUN maxRadius unitp)
    /\ silent (explode E center power DT_NONE maxRadius unitp).
Proof.
  intros E center power maxRadius unitp. unfold explode, blastRays.
  split; [| split; [| split]].
  - apply logsOnly_bind; [| intros _; apply logsOnly_silent, explode_tail_silent].
    repeat first [ apply blastRay_smoke | logs_step ].
  - apply logsOnly_bind; [| intros _; apply logsOnly_silent, explode_tail_silent].
    repeat first [ apply blastRay_incendiary | logs_step ].
  - apply silent_bind; [| intros _; apply explode_tail_silent].
    repeat first [ apply blastRay_inert; auto | silent_step ].
  - apply silent_bind; [| intros _; apply explode_tail_silent].
    repeat first [ apply blastRay_inert; auto | silent_step ].
Qed.

(** ** [explode]: the unit at the centre of a high-explosive blast *)

Lemma damageCalls_app k l1 l2 :
  damageCalls k (l1 ++ l2) = (damageCalls k l1 + damageCalls k l2)%nat.
Proof. unfold damageCalls. rewrite List.filter_app, length_app. reflexivity. Qed.

Section GroundZero.
Variable E : Externals.
Variable s0 : SavedBattleGame.
Variables k c : nat.

Lemma standsOn_onTile j g s :
  (forall t, t_unit (g t) = t_unit t) -> standsOn k c s -> standsOn k c (onTile j g s).
Proof.
  intros Hg. unfold standsOn, onTile. cbn [sv_tiles setTiles]. rewrite list_lookup_alter.
  case_decide; [subst j | tauto].
  destruct (sv_tiles s !! c) as [t |]; cbn; [rewrite Hg |]; tauto.
Qed.

Local Abbreviation keeps := (fun s => standsOn k c s /\ sameShape s0 s).

Lemma keeps_onTile j g s :
  (forall t, t_unit (g t) = t_unit t) -> keeps s -> keeps (onTile j g s).
Proof.
  intros Hg [Hs Hsh]. split; [apply standsOn_onTile; assumption | apply sameShape_onTile, Hsh].
Qed.

Lemma keeps_onUnit j h s : keeps s -> keeps (onUnit j h s).
Proof. exact (fun H => H). Qed.

Lemma blastTile_keeps dest power_ : preserves keeps (blastTile E DT_HE dest power_).
Proof.
  unfold blastTile, callTile.
  repeat first [ apply preserves_modifySave; intros s;
                 first [ apply keeps_onTile; intros t; reflexivity | apply keeps_onUnit ]
               | preserves_step ].
Qed.

Lemma blastRay_keeps n center maxRadius te :
  forall l power_ origin,
    preserves keeps (blastRay E n center DT_HE maxRadius te l power_ origin).
Proof.
  induction n as [| n IH]; intros l power_ origin; simpl.
  - apply preserves_ret.
  - repeat first [ apply IH | apply blastTile_keeps | preserves_step ].
Qed.

(** What [explode] does to the centre tile at the first step of a ray. *)
Lemma blastTile_HE_unit (st : State E) t u power_ :
  sv_tiles (_save st) !! c = Some t -> t_unit t = Some k ->
  sv_units (_save st) !! k = Some u ->
  exists r st',
    blastTile E DT_HE c power_ st = Done tt st'
    /\ st_log st' = st_log st ++ [EvSetExplosive c (Z.quot power_ 2);
                                  EvUnitDamage k (mkPosition 0 0 0) r].
Proof.
  intros Ht Hk Hu. unfold blastTile, callTile.
  unfold bind at 1. unfold bind at 1. unfold bind at 1. cbn [modifySave emit].
  unfold bind at 1. unfold readTile. cbn [_save onTile sv_tiles setTiles].
  rewrite list_lookup_alter, decide_True by reflexivity. rewrite Ht. cbn [fmap option_fmap option_map].
  cbn [t_unit Tile_setExplosive]. rewrite Hk.
  unfold bind at 1. unfold readUnit.
  cbn [_save _voxelData st_rng st_log sv_units onTile setTiles]. rewrite Hu.
  unfold bind at 1. unfold draw. cbn [st_rng].
  destruct (rng_generateReal E _ _ (st_rng st)) as [r g'].
  eexists. eexists. cbn. split; [reflexivity |]. rewrite <- app_assoc. reflexivity.
Qed.

Variable center : Position.
Variables power maxRadius : Z.
Variables nTiles count : nat.
Hypothesis centre_tile : getTile s0 (voxelTile center) = Some c.
Hypothesis centre_voxel : getTile s0 center = None.
Hypothesis first_step : forall te, blastRayTile E center te 0 = voxelTile center.
Hypothesis power_pos : 0 < power.
Hypothesis radius_nonneg : 0 <= maxRadius.

(** What holds between the rays. *)
Local Abbreviation between :=
  (fun st : State E =>
     length (sv_tiles (_save st)) = nTiles /\ tileCount (_save st) = count
     /\ occupantsOk (_save st) /\ keeps (_save st)).

(** Each ray of a high-explosive [explode] starts on the centre tile and
    damages the unit that stands there. *)
Lemma blastRay_ground_zero te (st : State E) :
  between st ->
  exists evs st',
    (let* s := getSave in
     blastRay E (Z.to_nat (maxRadius + 1)) center DT_HE maxRadius te 0 power (getTile s center))
      st = Done tt st'
    /\ between st'
    /\ st_log st' = st_log st ++ evs
    /\ (1 <= damageCalls k evs)%nat.
Proof.
  intros (Hlen & Hcnt & Hok & Hkeep).
  set (ray := let* s := getSave in
              blastRay E (Z.to_nat (maxRadius + 1)) center DT_HE maxRadius te 0 power
                       (getTile s center)).
  assert (keeps (_save (final (ray st)))) as Hkeep'.
  { revert Hkeep. generalize st. change (preserves keeps ray).
    apply preserves_bind; [apply preserves_getSave | intros s; apply blastRay_keeps]. }
  destruct Hkeep as [Hstand Hsh].
  unfold standsOn in Hstand.
  destruct (sv_tiles (_save st) !! c) as [t |] eqn:Ht; [| discriminate].
  cbn in Hstand. injection Hstand as Hk.
  destruct (lookup_lt_is_Some_2 _ _ (Hok c t k Ht Hk)) as [u Hu].
  destruct (blastTile_HE_unit st t u power Ht Hk Hu) as (r & st1 & Hrun1 & Hlog1).
  destruct (Z.to_nat (maxRadius + 1)) as [| m] eqn:Hm; [lia |].
  assert (ray st
          = (let* d := readTile c in
             blastRay E m center DT_HE maxRadius te (0 + 1)
                      match getMapData d O_OBJECT with
                      | Some mp => power - 10 - getBlock mp DT_HE
                      | None => power - 10
                      end (Some c)) st1) as Hstep.
  { subst ray. unfold bind at 1. cbn [getSave].
    rewrite (getTile_shape _ _ center Hsh), centre_voxel.
    cbn [blastRay]. rewrite (proj2 (Z.ltb_lt 0 power) power_pos).
    rewrite (proj2 (Z.leb_le 0 maxRadius) radius_nonneg). cbn [andb].
    unfold bind at 1. cbn [getSave]. rewrite first_step.
    rewrite (getTile_shape _ _ _ Hsh), centre_tile.
    change (hBlock E (_save st) None (Some c) DT_HE) with 0. rewrite Z.sub_0_r.
    rewrite (proj2 (Z.ltb_lt 0 power) power_pos).
    unfold bind at 1. rewrite Hrun1. reflexivity. }
  assert (rayInvariant E (st_log st1) nTiles count st1) as Hinv1.
  { destruct (blastTile_HE E (st_log st) nTiles count c power) with (st := st)
      as ([] & st1' & Hrun1' & Hlen1 & Hcnt1 & Hok1 & _).
    - apply lookup_lt_Some in Ht. lia.
    - split; [exact Hlen |]. split; [exact Hcnt |]. split; [exact Hok |].
      exists []. rewrite app_nil_r. split; [reflexivity | constructor].
    - rewrite Hrun1 in Hrun1'. injection Hrun1' as <-.
      split; [exact Hlen1 |]. split; [exact Hcnt1 |]. split; [exact Hok1 |].
      exists []. rewrite app_nil_r. split; [reflexivity | constructor]. }
  assert (total (rayInvariant E (st_log st1) nTiles count)
                (let* d := readTile c in
                 blastRay E m center DT_HE maxRadius te (0 + 1)
                          match getMapData d O_OBJECT with
                          | Some mp => power - 10 - getBlock mp DT_HE
                          | None => power - 10
                          end (Some c))
                (fun _ => rayInvariant E (st_log st1) nTiles count)) as Htail.
  { apply total_bind with (R := fun _ st => rayInvariant E (st_log st1) nTiles count st).
    - apply total_weaken
        with (P' := rayInvariant E (st_log st1) nTiles count)
             (Q' := fun d st => rayInvariant E (st_log st1) nTiles count st
                                /\ sv_tiles (_save st) !! c = Some d).
      + apply total_readTile. intros st2 (Hlen2 & _). apply lookup_lt_Some in Ht. lia.
      + intros st2 H. exact H.
      + intros d st2 [H _]. exact H.
    - intros d. apply blastRay_HE. }
  destruct (Htail st1 Hinv1) as ([] & st' & Hrun & Hlen' & Hcnt' & Hok' & evs & Hlog & _).
  rewrite Hstep, Hrun in Hkeep'. cbn [final] in Hkeep'.
  exists ([EvSetExplosive c (Z.quot power 2); EvUnitDamage k (mkPosition 0 0 0) r] ++ evs), st'.
  split; [rewrite Hstep; exact Hrun |]. split; [auto |].
  split; [rewrite Hlog, Hlog1, <- app_assoc; reflexivity |].
  rewrite damageCalls_app. unfold damageCalls at 1. cbn [List.filter].
  rewrite Nat.eqb_refl. cbn [length]. lia.
Qed.

Lemma blastRays_ground_zero tes :
  forall st : State E,
    between st ->
    exists evs st',
      forEach tes (fun te =>
        let* s := getSave in
        blastRay E (Z.to_nat (maxRadius + 1)) center DT_HE maxRadius te 0 power
                 (getTile s center)) st = Done tt st'
      /\ st_log st' = st_log st ++ evs
      /\ (length tes <= damageCalls k evs)%nat.
Proof.
  induction tes as [| te tes IH]; intros st Hst.
  - exists [], st. rewrite app_nil_r. cbn. auto.
  - destruct (blastRay_ground_zero te st Hst) as (evs1 & st1 & Hrun1 & Hst1 & Hlog1 & Hn1).
    destruct (IH st1 Hst1) as (evs2 & st2 & Hrun2 & Hlog2 & Hn2).
    exists (evs1 ++ evs2), st2. cbn [forEach]. unfold bind at 1. rewrite Hrun1.
    split; [exact Hrun2 |]. split; [rewrite Hlog2, Hlog1, <- app_assoc; reflexivity |].
    rewrite damageCalls_app. cbn [length]. lia.
Qed.

End GroundZero.

Lemma damageCalls_detonate k l : damageCalls k (map EvDetonate l) = 0%nat.
Proof. induction l as [| i l IH]; [reflexivity | exact IH]. Qed.

(** X28.  A high-explosive [explode] damages the unit on the tile of
    the centre once for each of its 121 rays, not once: every ray starts on
    that tile with full power.  The centre is given in voxels, and read as a
    tile position it is off the map. *)
Theorem explode_HE_damages_centre_unit_per_ray :
  forall (E : Externals) (st : State E) (center : Position) (power maxRadius : Z)
         (unitp : option nat) (c k : nat),
    occupantsOk (_save st) ->
    getTile (_save st) (voxelTile center) = Some c ->
    standsOn k c (_save st) ->
    getTile (_save st) center = None ->
    (forall te, blastRayTile E center te 0 = voxelTile center) ->
    0 < power -> 0 <= maxRadius ->
    exists evs,
      st_log (final (explode E center power DT_HE maxRadius unitp st)) = st_log st ++ evs
      /\ (121 <= damageCalls k evs)%nat.
Proof.
  intros E st center power maxRadius unitp c k Hok Hc Hk Hnone Hray Hpow Hrad.
  destruct (blastRays_ground_zero E (_save st) k c center power maxRadius
              (length (sv_tiles (_save st))) (tileCount (_save st))
              Hc Hnone Hray Hpow Hrad (degrees 0 360 3) st)
    as (evs & st' & Hrun & Hlog & Hn).
  { split; [reflexivity |]. split; [reflexivity |]. split; [exact Hok |].
    split; [exact Hk | apply sameShape_refl]. }
  exists (evs ++ map EvDetonate (seq 0 (tileCount (_save st')))).
  assert (explode E center power DT_HE maxRadius unitp st
          = (calculateFOV_position E center ;;; calculateTerrainLighting E)
              (mkState (fold_left (fun s i => onTile i (tile_detonate E) s)
                                  (seq 0 (tileCount (_save st'))) (_save st'))
                       (_voxelData st') (st_rng st')
                       (st_log st' ++ map EvDetonate (seq 0 (tileCount (_save st'))))))
    as ->.
  { unfold explode. unfold bind at 1. unfold bind at 1.
    change (blastRays E center power DT_HE maxRadius st) with
      (forEach (degrees 0 360 3) (fun te =>
         let* s := getSave in
         blastRay E (Z.to_nat (maxRadius + 1)) center DT_HE maxRadius te 0 power
                  (getTile s center)) st).
    rewrite Hrun, detonateAll_runs. reflexivity. }
  rewrite (explode_tail_silent E center). cbn [st_log].
  split; [rewrite Hlog, <- app_assoc; reflexivity |].
  rewrite damageCalls_app, damageCalls_detonate.
  change (121 <= damageCalls k evs)%nat in Hn. lia.
Qed.

(** ** [closeUfoDoors] *)

Lemma closeUfoDoors_from_runs E close n :
  forall a acc (st : State E),
    (a + n = length (sv_tiles (_save st)))%nat ->
    closeUfoDoors_from E close (seq a n) acc st
    = Done (acc + zsum (fun t => fst (close t)) (drop a (sv_tiles (_save st))))
           (mkState (setTiles (take a (sv_tiles (_save st))
                               ++ map (fun t => snd (close t)) (drop a (sv_tiles (_save st))))
                              (_save st))
                    (_voxelData st) (st_rng st) (st_log st)).
Proof.
  induction n as [| n IH]; intros a acc st Hlen; cbn [seq closeUfoDoors_from].
  - rewrite drop_ge by lia. rewrite take_ge by lia. cbn [map zsum fold_right].
    rewrite app_nil_r, Z.add_0_r. destruct st as [[] ? ? ?]; reflexivity.
  - destruct (lookup_lt_is_Some_2 (sv_tiles (_save st)) a) as [t Ht]; [lia |].
    unfold bind at 1. unfold readTile. rewrite Ht. unfold bind at 1. cbn [modifySave].
    rewrite IH by (cbn [_save onTile sv_tiles setTiles]; rewrite length_alter; lia).
    cbn [_save _voxelData st_rng st_log onTile sv_tiles setTiles].
    rewrite drop_alter by lia.
    rewrite (take_S_r _ a (snd (close t)))
      by (rewrite list_lookup_alter, decide_True by reflexivity; rewrite Ht; reflexivity).
    rewrite take_alter by lia.
    rewrite (drop_S _ _ _ Ht). cbn [map zsum fold_right]. rewrite <- app_assoc.
    rewrite !decide_False by lia. unfold zsum.
    replace (acc + fst (close t) + foldr (fun x acc0 => fst (close x) + acc0) 0
                                         (drop (S a) (sv_tiles (_save st))))
      with (acc + (fst (close t) + foldr (fun x acc0 => fst (close x) + acc0) 0
                                         (drop (S a) (sv_tiles (_save st))))) by lia.
    destruct (_save st); reflexivity.
Qed.

(** X29.  [closeUfoDoors] calls [Tile::closeUfoDoor] once on every tile
    and answers the sum of the answers; nothing else of the saved game
    changes, and no call is logged. *)
Theorem closeUfoDoors_counts :
  forall (E : Externals) (closeUfoDoor : Tile -> Z * Tile) (st : State E),
    length (sv_tiles (_save st)) = tileCount (_save st) ->
    closeUfoDoors E closeUfoDoor st
    = Done (zsum (fun t => fst (closeUfoDoor t)) (sv_tiles (_save st)))
           (mkState (setTiles (map (fun t => snd (closeUfoDoor t)) (sv_tiles (_save st)))
                              (_save st))
                    (_voxelData st) (st_rng st) (st_log st)).
Proof.
  intros E closeUfoDoor st Hlen. unfold closeUfoDoors. unfold bind. cbn [getSave].
  rewrite closeUfoDoors_from_runs by lia. reflexivity.
Qed.

(** ** The statements above on concrete battlescapes *)

Lemma calculateFOV_sees_only_targets_witness :
  seesTargets watchSave FACTION_PLAYER 0
              (_save (final (calculateFOV (plainExternals 0) 0 watchState)))
  /\ (u_visibleUnits <$> sv_units watchSave !! 0%nat) = Some [0%nat]
  /\ (u_visibleUnits
        <$> sv_units (_save (final (calculateFOV (plainExternals 0) 0 watchState))) !! 0%nat)
     = Some [1%nat].
Proof.
  split; [| vm_compute; split; reflexivity].
  exact (calculateFOV_sees_only_targets (plainExternals 0) watchState 0 sentry eq_refl
           (fun _ => ex_intro _ 0%nat eq_refl)).
Defined.

Lemma vectorToDirection_octant_reads_witness :
  Forall (fun i => (i < 8)%nat) (vectorToDirection_reads 0 0 (mkPosition 1 (-1) 0))
  /\ 0 <= vectorToDirection 0 0 (mkPosition 1 (-1) 0) <= 7
  /\ dirX !! Z.to_nat (vectorToDirection 0 0 (mkPosition 1 (-1) 0)) = Some 1
  /\ dirY !! Z.to_nat (vectorToDirection 0 0 (mkPosition 1 (-1) 0)) = Some (-1).
Proof. exact (vectorToDirection_octant_reads 0 0 (mkPosition 1 (-1) 0) eq_refl). Defined.

Lemma vectorToDirection_opposite_witness :
  vectorToDirection 0 0 (Position_sub (mkPosition 0 0 0) (mkPosition 1 0 0))
  = (vectorToDirection 0 0 (mkPosition 1 0 0) + 4) mod 8.
Proof. exact (vectorToDirection_opposite 0 0 (mkPosition 1 0 0) eq_refl). Defined.

Lemma horizontalBlockage_symmetric_witness :
  horizontalBlockage 0 0 wallSave (Some 0%nat) (Some 1%nat) DT_NONE
  = horizontalBlockage 0 0 wallSave (Some 1%nat) (Some 0%nat) DT_NONE.
Proof.
  exact (horizontalBlockage_symmetric 0 0 wallSave 0 1 _ _ DT_NONE eq_refl eq_refl eq_refl
           eq_refl).
Defined.

Lemma verticalBlockage_counts_floors_witness :
  verticalBlockage roofedSave (Some 0%nat) (Some 1%nat) DT_NONE
  = floorBlock DT_NONE * floorsBetween roofedSave 0 0 (Z.min 0 1 + 1) (Z.max 0 1).
Proof.
  exact (verticalBlockage_counts_floors roofedSave 0 1 _ _ DT_NONE eq_refl eq_refl).
Defined.

Lemma addLight_by_lightAt_witness :
  lightAt (addLight_by Z.max (mkPosition 0 0 0) 1 1 roofedSave) (mkPosition 0 0 1) 1
  = accumulated Z.max (lightCalls 1 (0 - 0) (0 - 0)) <$> lightAt roofedSave (mkPosition 0 0 1) 1.
Proof.
  exact (addLight_by_lightAt Z.max roofedSave (mkPosition 0 0 0) 1 1 (mkPosition 0 0 1)
           roofedSave_gridOk eq_refl).
Defined.

Lemma bareSave_3x3_gridOk : gridOk (bareSave 3 3 1 0).
Proof.
  split; [reflexivity |]. intros i t Ht.
  do 9 (destruct i as [| i]; [injection Ht as <-; reflexivity |]). discriminate.
Qed.

Lemma addLight_by_corner_witness :
  lightAt (addLight_by Z.add (mkPosition 0 0 0) 2 1 (bareSave 3 3 1 0)) (mkPosition 2 2 0) 1
  = (fun old => Z.add old (2 - lightDistance 2 2))
      <$> lightAt (bareSave 3 3 1 0) (mkPosition 2 2 0) 1
  /\ 2 - lightDistance 2 2 < 0.
Proof.
  apply (addLight_by_corner Z.add (bareSave 3 3 1 0) (mkPosition 0 0 0) 2 1 (mkPosition 2 2 0)
           bareSave_3x3_gridOk eq_refl); [lia | reflexivity | reflexivity].
Defined.

Lemma calculateSunShading_every_tile_witness :
  lightOn 0 (calculateSunShading_by Z.add roofedSave) 0
  = Some (Z.add 0 (15 - 0 - (if (0 <=? 5) && floorAbove roofedSave (mkPosition 0 0 0)
                             then 2 else 0)))
  /\ calculateSunShading roofedSave = calculateSunShading_by Z.add roofedSave.
Proof.
  exact (calculateSunShading_every_tile Z.add roofedSave 0 _ roofedSave_gridOk eq_refl).
Defined.

Lemma calculateLine_trajectory_witness :
  exists misses,
    Forall (fun c => voxelCheck (repeat 65535 16) corridor c None = Value (-1)
                     /\ inBox (mkPosition 18 8 10) (mkPosition 12 8 10) c
                     /\ c <> mkPosition 12 8 10) misses
    /\ (misses <> [] -> head misses = Some (mkPosition 18 8 10))
    /\ ((4 = -1 /\ Z.of_nat (length misses) = lineLength (mkPosition 18 8 10) (mkPosition 12 8 10)
         /\ Some [mkPosition 15 8 10] = Some ([] ++ if false then misses else []))
        \/ (4 <> -1
            /\ Z.of_nat (length misses) < lineLength (mkPosition 18 8 10) (mkPosition 12 8 10)
            /\ exists c,
                voxelCheck (repeat 65535 16) corridor c None = Value 4
                /\ inBox (mkPosition 18 8 10) (mkPosition 12 8 10) c
                /\ c <> mkPosition 12 8 10
                /\ (misses = [] -> c = mkPosition 18 8 10)
                /\ Some [mkPosition 15 8 10]
                   = Some ([] ++ if false then misses ++ [c] else [c]))).
Proof.
  exact (calculateLine_trajectory (repeat 65535 16) corridor (mkPosition 18 8 10)
           (mkPosition 12 8 10) false [] None 4 (Some [mkPosition 15 8 10]) eq_refl).
Defined.

Lemma calculateLine_in_box_witness :
  Forall (fun c => inBox (mkPosition 0 0 0) (mkPosition 3 0 0) c /\ c <> mkPosition 3 0 0)
         [mkPosition 0 0 0; mkPosition 1 0 0; mkPosition 2 0 0].
Proof.
  exact (calculateLine_in_box [] (bareSave 1 1 1 0) (mkPosition 0 0 0) (mkPosition 3 0 0)
           [] None (-1) [mkPosition 0 0 0; mkPosition 1 0 0; mkPosition 2 0 0] eq_refl).
Defined.

Lemma checkForVisibleUnits_ignores_friends_witness :
  (t_unit (withUnit 0 (bareTile (mkPosition 0 0 0))) = None ->
   checkForVisibleUnits (plainExternals 0) 0 0 corridorState = Done false corridorState)
  /\ (forall buIdx bu u,
         t_unit (withUnit 0 (bareTile (mkPosition 0 0 0))) = Some buIdx ->
         sv_units (_save corridorState) !! buIdx = Some bu ->
         sv_units (_save corridorState) !! 0%nat = Some u ->
         u_out bu = true
         \/ (u_faction u = FACTION_PLAYER
             /\ (u_faction bu = FACTION_PLAYER \/ u_faction bu = FACTION_NEUTRAL))
         \/ (u_faction u = FACTION_HOSTILE /\ u_faction bu = FACTION_HOSTILE) ->
         checkForVisibleUnits (plainExternals 0) 0 0 corridorState = Done false corridorState).
Proof.
  exact (checkForVisibleUnits_ignores_friends (plainExternals 0) corridorState 0 0 _ eq_refl).
Defined.

Lemma calculateFOV_never_hides_witness :
  tileHas t_discovered 1
          (_save (final (calculateFOV (plainExternals 0) 0
                           (startState (plainExternals 0) tt
                                       (onTile 1 (Tile_setDiscovered true) corridor)))))
  /\ tileHas t_discovered 1
             (_save (final (calculateFOV_position (plainExternals 0) (mkPosition 0 0 0)
                              (startState (plainExternals 0) tt
                                          (onTile 1 (Tile_setDiscovered true) corridor))))).
Proof.
  exact (calculateFOV_never_hides (plainExternals 0)
           (startState (plainExternals 0) tt (onTile 1 (Tile_setDiscovered true) corridor))
           0 (mkPosition 0 0 0) 1 eq_refl).
Defined.

Lemma calculateFOV_other_factions_discover_nothing_witness :
  t_discovered <$> sv_tiles (_save (final (calculateFOV (plainExternals 0) 0
                                             (startState (plainExternals 0) tt alienSave))))
                   !! 1%nat
  = t_discovered <$> sv_tiles alienSave !! 1%nat.
Proof.
  apply (calculateFOV_other_factions_discover_nothing (plainExternals 0)
           (startState (plainExternals 0) tt alienSave) 0 (alien (mkPosition 0 0 0) 1) 1);
    [reflexivity | discriminate].
Defined.

Lemma calculateFOV_position_skips_other_side_witness :
  sv_units (_save (final (calculateFOV_position (plainExternals 0) (mkPosition 0 0 0)
                            (startState (plainExternals 0) tt alienSave)))) !! 0%nat
  = Some (alien (mkPosition 0 0 0) 1).
Proof.
  apply (calculateFOV_position_skips_other_side (plainExternals 0)
           (startState (plainExternals 0) tt alienSave) (mkPosition 0 0 0) 0);
    [reflexivity | discriminate].
Defined.

Lemma unitOpensDoor_needs_cardinal_facing_witness :
  unitOpensDoor (plainExternals 0) 0 corridorState = Done (-1) corridorState.
Proof.
  apply (unitOpensDoor_needs_cardinal_facing (plainExternals 0) corridorState 0
           (soldier (mkPosition 0 0 0) 1)); [reflexivity | simpl; lia ..].
Defined.

Lemma unitOpensDoor_at_map_edge_witness :
  unitOpensDoor (plainExternals 0) 0 (startState (plainExternals 0) tt edgeSave)
  = Done (-1) (startState (plainExternals 0) tt edgeSave).
Proof.
  apply (unitOpensDoor_at_map_edge (plainExternals 0) (startState (plainExternals 0) tt edgeSave)
           0 (soldier (mkPosition 0 0 0) 2) 0 (withUnit 0 (bareTile (mkPosition 0 0 0)))
           (mkPosition 1 0 0));
    [reflexivity | reflexivity | reflexivity | left; split; reflexivity | reflexivity].
Defined.

Lemma spawnItem_lands_witness :
  exists z' i,
    getTile (bareSave 1 1 2 0) (mkPosition 0 0 z') = Some i
    /\ 0 <= z' <= 1
    /\ (hasFloor (bareSave 1 1 2 0) (mkPosition 0 0 z') = true \/ z' = 0)
    /\ (forall z, z' < z <= 1 -> hasFloor (bareSave 1 1 2 0) (mkPosition 0 0 z) = false)
    /\ spawnItem (plainExternals 0) (mkPosition 0 0 1) 7
                 (startState (plainExternals 0) tt (bareSave 1 1 2 0))
       = Done tt (@mkState (plainExternals 0)
                           (onTile i (tile_addItem (plainExternals 0) 7) (bareSave 1 1 2 0))
                           [] tt ([] ++ [EvAddItem i 7])).
Proof.
  exact (spawnItem_lands (plainExternals 0) (startState (plainExternals 0) tt (bareSave 1 1 2 0))
           (mkPosition 0 0 1) 7 eq_refl eq_refl).
Defined.

Lemma spawnItem_off_map_witness :
  spawnItem (plainExternals 0) offMap 7 (startState (plainExternals 0) tt (bareSave 1 1 2 0))
  = Crash NullPointer (startState (plainExternals 0) tt (bareSave 1 1 2 0)).
Proof.
  exact (spawnItem_off_map (plainExternals 0)
           (startState (plainExternals 0) tt (bareSave 1 1 2 0)) offMap 7 eq_refl).
Defined.

Lemma prepareNewTurn_without_fire_witness :
  prepareNewTurn (plainExternals 0) (startState (plainExternals 0) tt smokeSave)
  = Done tt (@mkState (plainExternals 0)
               (fold_left (fun s i => onTile i (tile_prepareNewTurn (plainExternals 0)) s)
                          (tilesWhere (fun t => 0 <? t_smoke t) smokeSave) smokeSave)
               [] tt
               ([] ++ map EvPrepareNewTurn (tilesWhere (fun t => 0 <? t_smoke t) smokeSave)))
  /\ tilesWhere (fun t => 0 <? t_smoke t) smokeSave = [1%nat].
Proof.
  split; [| reflexivity].
  apply (prepareNewTurn_without_fire (plainExternals 0)
           (startState (plainExternals 0) tt smokeSave)).
  repeat constructor; simpl; lia.
Defined.

Lemma prepareNewTurn_calls_per_tile_witness :
  exists evs,
    st_log (final (prepareNewTurn (plainExternals 1) (startState (plainExternals 1) tt fireSave)))
    = [] ++ evs
    /\ turnCalls 0 evs = Nat.add 0 1.
Proof.
  exact (prepareNewTurn_calls_per_tile (plainExternals 1)
           (startState (plainExternals 1) tt fireSave) 0 _ eq_refl ltac:(vm_compute; lia)).
Defined.

Lemma explode_HE_damages_centre_unit_per_ray_witness :
  exists evs,
    st_log (final (explode centredExternals (mkPosition 8 8 0) 30 DT_HE 2 None
                           (startState centredExternals tt corridor))) = [] ++ evs
    /\ (121 <= damageCalls 0 evs)%nat.
Proof.
  apply (explode_HE_damages_centre_unit_per_ray centredExternals
           (startState centredExternals tt corridor) (mkPosition 8 8 0) 30 2 None 0 0);
    [exact corridor_occupantsOk | reflexivity | reflexivity | reflexivity
    | intros te; reflexivity | lia | lia].
Defined.

Lemma explode_AP_single_call_witness :
  exists st' evs,
    explodeAP (plainExternals 0) (mkPosition 5 6 7) 40 None solidState = Done tt st'
    /\ st_log (final (explode (plainExternals 0) (mkPosition 5 6 7) 40 DT_AP 3 None solidState))
       = st_log solidState ++ evs
    /\ match evs with
       | [] => 4 = -1 \/ 4 = 5
       | [EvTileDamage i part _] =>
           getTile (_save solidState) (voxelTile (mkPosition 5 6 7)) = Some i
           /\ part = 4 /\ 0 <= 4 <= 3
       | [EvUnitDamage k relative _] =>
           4 = 4
           /\ (exists i, getTile (_save solidState) (voxelTile (mkPosition 5 6 7)) = Some i
                         /\ standsOn k i (_save solidState))
           /\ relative = mkPosition (Z.rem 5 16) (Z.rem 6 16) (Z.rem 7 24)
       | _ => False
       end.
Proof.
  exact (explode_AP_single_call (plainExternals 0) solidState (mkPosition 5 6 7) 40 3 None
           4 eq_refl).
Defined.

Lemma closeUfoDoors_counts_witness :
  closeUfoDoors (plainExternals 0) (fun t => (1, t))
                (startState (plainExternals 0) tt (bareSave 2 1 1 0))
  = Done (zsum (fun t => fst (1, t)) (sv_tiles (bareSave 2 1 1 0)))
         (@mkState (plainExternals 0)
                  (setTiles (map (fun t => snd (1, t)) (sv_tiles (bareSave 2 1 1 0)))
                            (bareSave 2 1 1 0))
                  [] tt []).
Proof.
  exact (closeUfoDoors_counts (plainExternals 0) (fun t => (1, t))
           (startState (plainExternals 0) tt (bareSave 2 1 1 0)) eq_refl).
Defined.
